(** * The [lightning.gpu] device: state preparation, gate replay,
      measurements and the adjoint Jacobian

    A shallow embedding of [pennylane_lightning_gpu/lightning_gpu.py].

    - Python floats are idealised as real numbers ([R]); a complex amplitude is
      a pair of reals.
    - The device object [self] is a record that every method threads through a
      state-and-exception monad; an exception keeps the state reached when it
      was raised, as a Python object keeps the writes made before a [raise].
    - The device-resident buffer [self._gpu_state] is represented by the
      sequence of mutating kernel calls issued on it (newest first).  The
      kernels that only read the buffer, the serializer module, and the
      [QubitDevice] methods reached through [super()] are collaborators of the
      file and are taken as an interface record. *)

From Stdlib Require Import String Ascii.
From Stdlib Require Import List Bool Arith ZArith Lia Reals Lra.
From Stdlib Require Import Permutation Sorted.
Import ListNotations.

(** ** Python values *)

(** Complex amplitude. *)
Definition C : Type := (R * R)%type.

Definition Czero : C := (0%R, 0%R).
Definition Cone : C := (1%R, 0%R).

(** An n-dimensional array: its shape, its data in C order, and whether it is
    an abstract tracer ([qml.math.is_abstract]). *)
Record tensor := mk_tensor {
  t_shape : list nat;
  t_data : list C;
  t_abstract : bool
}.

(** A dense matrix, row by row. *)
Definition matrix : Type := list (list C).

(** An operation parameter. *)
Inductive param :=
| PyFloat (x : R)          (* a Python float *)
| NpFloat (x : R)          (* a numpy floating scalar *)
| IntArray (v : list Z)    (* a 1-d integer array *)
| Array (t : tensor).      (* a float or complex array *)

(** [obj.name]: a string, or a list of strings for tensor products. *)
Inductive pyname :=
| Name (s : string)
| Names (l : list string).

Definition wire : Type := nat.

(** The classes that [isinstance] distinguishes in this file. *)
Inductive op_class :=
| QubitStateVector
| BasisState
| Rot
| Operation      (* any other subclass of Operation *)
| NotOperation.  (* an operator that is not an Operation *)

Record operation := mk_operation {
  op_name : string;
  op_base_name : string;
  op_class_of : op_class;
  op_wires : list wire;
  op_inverse : bool;
  op_parameters : list param;
  op_num_params : nat;
  op_matrix : option matrix   (* qml.matrix(o), where the operation defines a matrix *)
}.

Inductive exn :=
| ValueError (msg : string)
| TypeError (msg : string)
| IndexError
| KeyError (key : string)
| WireError
| DeviceError (msg : string)
| QuantumFunctionError (msg : string)
| MatrixUndefinedError
| PyException (msg : string).

(** ** The device object *)

(** Mutating kernels of the device buffer. *)
Inductive kernel_call :=
| setBasisState (index : Z) (use_async : bool)
| setZeroState
| setStateVector (indices : list Z) (state : list C) (use_async : bool)
| HostToDevice (data : list C) (use_async : bool)
| resetGPU (use_async : bool)
| named_gate (name : string) (wires : list nat) (inv : bool) (params : list param)
| matrix_gate (name : string) (wires : list nat) (mat : list C).

(** Calls to collaborators that leave the device buffer alone. *)
Inductive event :=
| Warned (msg : string)
| SerializedObservables
| SerializedOps
| CreatedOpsList
| AdjointKernel (batched : bool) (n_obs : nat) (tp : list Z).

Record device := mk_device {
  wires : list wire;                  (* self.wires *)
  shots : option nat;                 (* self.shots *)
  use_csingle : bool;
  _sync : bool;
  _state : tensor;
  _pre_rotated_state : tensor;
  _gpu_state : list kernel_call;
  _samples : option (list (list Z));
  trace : list event
}.

Definition num_wires (dev : device) : nat := length (wires dev).

Definition short_name : string := "lightning.gpu".

(** tolerance for numerical errors *)
Definition tolerance : R := (1 / 1000000)%R.

Definition set_state (s : tensor) (d : device) : device :=
  mk_device (wires d) (shots d) (use_csingle d) (_sync d) s
            (_pre_rotated_state d) (_gpu_state d) (_samples d) (trace d).

Definition set_pre_rotated_state (s : tensor) (d : device) : device :=
  mk_device (wires d) (shots d) (use_csingle d) (_sync d) (_state d)
            s (_gpu_state d) (_samples d) (trace d).

Definition set_gpu_state (g : list kernel_call) (d : device) : device :=
  mk_device (wires d) (shots d) (use_csingle d) (_sync d) (_state d)
            (_pre_rotated_state d) g (_samples d) (trace d).

Definition set_samples (s : option (list (list Z))) (d : device) : device :=
  mk_device (wires d) (shots d) (use_csingle d) (_sync d) (_state d)
            (_pre_rotated_state d) (_gpu_state d) s (trace d).

Definition set_trace (t : list event) (d : device) : device :=
  mk_device (wires d) (shots d) (use_csingle d) (_sync d) (_state d)
            (_pre_rotated_state d) (_gpu_state d) (_samples d) t.

(** ** The monad of methods *)

Inductive outcome (A : Type) :=
| Val (a : A)
| Exc (e : exn).
Arguments Val {A} a.
Arguments Exc {A} e.

Definition M (A : Type) : Type := device -> outcome A * device.

Definition ret {A} (a : A) : M A := fun d => (Val a, d).

Definition raise {A} (e : exn) : M A := fun d => (Exc e, d).

Definition bind {A B} (m : M A) (k : A -> M B) : M B :=
  fun d => match m d with
           | (Val a, d') => k a d'
           | (Exc e, d') => (Exc e, d')
           end.

Definition gets {A} (f : device -> A) : M A := fun d => (Val (f d), d).

Definition modify (f : device -> device) : M unit := fun d => (Val tt, f d).

Declare Scope monad_scope.
Delimit Scope monad_scope with monad.
Notation "x <- c ;; k" := (bind c (fun x => k))
  (at level 61, c at next level, right associativity) : monad_scope.
Notation "c ;; k" := (bind c (fun _ => k))
  (at level 61, right associativity) : monad_scope.
Local Open Scope monad_scope.

(** [for x in l: f x]. *)
Fixpoint for_each {A} (f : A -> M unit) (l : list A) : M unit :=
  match l with
  | [] => ret tt
  | x :: rest => f x ;; for_each f rest
  end.

(** A mutating kernel call on [self._gpu_state]. *)
Definition gpu_call (k : kernel_call) : M unit :=
  modify (fun d => set_gpu_state (k :: _gpu_state d) d).

Definition log_event (e : event) : M unit :=
  modify (fun d => set_trace (e :: trace d) d).

Definition warn (msg : string) : M unit := log_event (Warned msg).

(** ** Lists, wires and arrays *)

Fixpoint index_of (w : wire) (ws : list wire) : option nat :=
  match ws with
  | [] => None
  | x :: rest => if Nat.eqb x w then Some 0
                 else option_map S (index_of w rest)
  end.

(** [Wires.indices]: the position of every label, or no result when a label is
    not a wire of the device. *)
Fixpoint indices (dev_wires : list wire) (ws : list wire) : option (list nat) :=
  match ws with
  | [] => Some []
  | w :: rest =>
      match index_of w dev_wires, indices dev_wires rest with
      | Some i, Some l => Some (i :: l)
      | _, _ => None
      end
  end.

(** [self.wires.indices(ws)] and [self.map_wires(ws)]: the wire map built by the
    device numbers its labels consecutively, so both are positions. *)
Definition wires_indices (ws : list wire) : M (list nat) :=
  fun d => match indices (wires d) ws with
           | Some l => (Val l, d)
           | None => (Exc WireError, d)
           end.

Definition map_wires (ws : list wire) : M (list nat) := wires_indices ws.

Fixpoint insert_sorted (x : nat) (l : list nat) : list nat :=
  match l with
  | [] => [x]
  | y :: rest => if Nat.leb x y then x :: l else y :: insert_sorted x rest
  end.

Definition sorted (l : list nat) : list nat := fold_right insert_sorted [] l.

Fixpoint list_eqb (l1 l2 : list nat) : bool :=
  match l1, l2 with
  | [], [] => true
  | x :: r1, y :: r2 => Nat.eqb x y && list_eqb r1 r2
  | _, _ => false
  end.

Definition prod_shape (shape : list nat) : nat := fold_right Nat.mul 1 shape.

(** [self._size(tensor)] and [self._ndim(tensor)]. *)
Definition _size (t : tensor) : nat := prod_shape (t_shape t).
Definition _ndim (t : tensor) : nat := length (t_shape t).

Definition IZC (z : Z) : C := (IZR z, 0%R).

(** [self._asarray(state, dtype=self.C_DTYPE)]. *)
Definition _asarray (p : param) : tensor :=
  match p with
  | PyFloat x | NpFloat x => mk_tensor [] [(x, 0%R)] false
  | IntArray v => mk_tensor [length v] (map IZC v) false
  | Array t => t
  end.

(** [_get_batch_size]: whether a tensor has an additional batch dimension. *)
Definition _get_batch_size (t : tensor) (expected_shape : list nat)
    (expected_size : nat) : option nat :=
  let size := _size t in
  if Nat.ltb (length expected_shape) (_ndim t) || Nat.ltb expected_size size
  then Some (size / expected_size)
  else None.

Fixpoint chunk_fuel (fuel n : nat) (l : list C) : list (list C) :=
  match fuel with
  | 0 => []
  | S f =>
      match l with
      | [] => []
      | _ => firstn n l :: chunk_fuel f n (skipn n l)
      end
  end.

(** The vectors along the last axis. *)
Definition last_axis_rows (t : tensor) : list (list C) :=
  chunk_fuel (length (t_data t)) (last (t_shape t) 1) (t_data t).

Definition Cnorm2 (z : C) : R := (fst z * fst z + snd z * snd z)%R.

Definition sum_R (l : list R) : R := fold_right Rplus 0%R l.

(** [qml.math.linalg.norm(state, axis=-1, ord=2)]. *)
Definition linalg_norm (t : tensor) : list R :=
  map (fun row => sqrt (sum_R (map Cnorm2 row))) (last_axis_rows t).

Definition Rleb (a b : R) : bool := if Rle_dec a b then true else false.

(** numpy's closeness test, [abs(a - b) <= atol + rtol * abs(b)]. *)
Definition isclose (a b rtol atol : R) : bool :=
  Rleb (Rabs (a - b)) (atol + rtol * Rabs b).

(** The default relative tolerance of [qml.math.allclose], which the call in
    [_apply_state_vector_GPU] leaves in place. *)
Definition default_rtol : R := (1 / 100000)%R.

Definition allclose (a : list R) (b : R) (atol : R) : bool :=
  forallb (fun x => isclose x b default_rtol atol) a.

(** [state.shape in [(dim,), (batch_size, dim)]]. *)
Definition shape_in (shape : list nat) (dim : nat) (batch_size : option nat) : bool :=
  list_eqb shape [dim]
  || match batch_size with
     | Some b => list_eqb shape [b; dim]
     | None => false
     end.

(** [itertools.product([0, 1], repeat=k)]. *)
Fixpoint product01 (k : nat) : list (list nat) :=
  match k with
  | 0 => [[]]
  | S k' => map (cons 0) (product01 k') ++ map (cons 1) (product01 k')
  end.

Fixpoint set_nth (i : nat) (x : nat) (l : list nat) : list nat :=
  match l, i with
  | [], _ => []
  | _ :: rest, 0 => x :: rest
  | y :: rest, S i' => y :: set_nth i' x rest
  end.

(** One row of [unravelled_indices] after
    [unravelled_indices[:, device_wires] = basis_states]. *)
Fixpoint scatter_bits (device_wires bits : list nat) (row : list nat) : list nat :=
  match device_wires, bits with
  | w :: ws, b :: bs => scatter_bits ws bs (set_nth w b row)
  | _, _ => row
  end.

(** [np.ravel_multi_index] of one column over dimensions [[2] * n]. *)
Fixpoint ravel_bits (row : list nat) : Z :=
  match row with
  | [] => 0%Z
  | b :: rest => (Z.of_nat b * 2 ^ Z.of_nat (length rest) + ravel_bits rest)%Z
  end.

Definition ravelled_indices (n : nat) (device_wires : list nat) : list Z :=
  map (fun bits => ravel_bits (scatter_bits device_wires bits (repeat 0 n)))
      (product01 (length device_wires)).

(** ** State preparation *)

Definition syncH2D (use_async : bool) : M unit :=
  st <- gets _state ;;
  gpu_call (HostToDevice (t_data st) use_async).

Definition _create_basis_state_GPU (index : Z) (use_async : bool) : M unit :=
  gpu_call (setBasisState index use_async).

Definition shape_error : string :=
  "State vector must have shape (2**wires,) or (batch_size, 2**wires).".

Definition norm_error : string :=
  "Sum of amplitudes-squared does not equal one.".

Definition _apply_state_vector_GPU (state : param) (device_wires : list wire)
    (use_async : bool) : M unit :=
  device_wires <- map_wires device_wires ;;
  n <- gets num_wires ;;
  let dim := 2 ^ length device_wires in
  let state := _asarray state in
  let batch_size := _get_batch_size state [dim] dim in
  let output_shape :=
    match batch_size with
    | Some b => b :: repeat 2 n
    | None => repeat 2 n
    end in
  (if negb (shape_in (t_shape state) dim batch_size)
   then raise (ValueError shape_error)
   else ret tt) ;;
  (if negb (t_abstract state)
   then
     let norm := linalg_norm state in
     if negb (allclose norm 1%R tolerance)
     then raise (ValueError norm_error)
     else ret tt
   else ret tt) ;;
  if Nat.eqb (length device_wires) n
     && list_eqb (sorted device_wires) device_wires
  then
    (* Initialize the entire device state with the input state *)
    modify (set_state (mk_tensor output_shape (t_data state) (t_abstract state))) ;;
    syncH2D false
  else
    gpu_call (setStateVector (ravelled_indices n device_wires) (t_data state) use_async).

Definition Z_is_bit (z : Z) : bool := Z.eqb z 0 || Z.eqb z 1.

Definition Reqb (a b : R) : bool := if Req_dec_T a b then true else false.

(** Whether an entry of a float or complex array equals 0 or 1. *)
Definition C_is_bit (z : C) : bool :=
  Reqb (snd z) 0 && (Reqb (fst z) 0 || Reqb (fst z) 1).

(** A signed 64-bit integer: what numpy keeps of the value [z]. *)
Definition int64 (z : Z) : Z := ((z + 2 ^ 63) mod 2 ^ 64 - 2 ^ 63)%Z.

(** [int(x)] for a float [x]: truncation toward zero. *)
Definition py_int (x : R) : Z :=
  if Rle_dec 0 x then Int_part x else (- Int_part (- x))%Z.

(** [2 ** (self.num_wires - 1 - np.array(device_wires))]: an int64 array.  The
    exponents are not negative, device wires being positions below
    [num_wires]. *)
Definition basis_weights (n : nat) (device_wires : list nat) : list Z :=
  map (fun w => int64 (2 ^ (Z.of_nat n - 1 - Z.of_nat w))) device_wires.

(** [np.dot] of two int64 vectors. *)
Fixpoint dot_int64 (a b : list Z) : Z :=
  match a, b with
  | x :: a', y :: b' => int64 (x * y + dot_int64 a' b')
  | _, _ => 0%Z
  end.

(** [np.dot] of a float or complex vector with an int64 vector: the weights
    are converted and the products summed in double precision, here in the
    real numbers. *)
Fixpoint dot_float (a : list C) (b : list Z) : C :=
  match a, b with
  | z :: a', y :: b' =>
      let r := dot_float a' b' in
      ((fst z * IZR y + fst r)%R, (snd z * IZR y + snd r)%R)
  | _, _ => (0%R, 0%R)
  end.

(** [qml.math.dot(state, basis_states)] for an integer [state]. *)
Definition dot_basis (n : nat) (state : list Z) (device_wires : list nat) : Z :=
  dot_int64 state (basis_weights n device_wires).

(** [len(state)]. *)
Definition param_len (p : param) : M nat :=
  match p with
  | PyFloat _ => raise (TypeError "object of type 'float' has no len()")
  | NpFloat _ => raise (TypeError "object of type 'numpy.float64' has no len()")
  | IntArray v => ret (length v)
  | Array t =>
      match t_shape t with
      | [] => raise (TypeError "len() of unsized object")
      | m :: _ => ret m
      end
  end.

(** [set(state.tolist()).issubset({0, 1})]: the entries of a one-dimensional
    array are compared with 0 and 1 as numbers, whatever their type; the rows
    of an array of two dimensions or more are lists, which a set does not
    take.  A scalar does not come this far, [len(state)] has raised. *)
Definition entries_are_bits (p : param) : M bool :=
  match p with
  | IntArray v => ret (forallb Z_is_bit v)
  | Array t =>
      match t_shape t with
      | [_] => ret (forallb C_is_bit (t_data t))
      | 0 :: _ :: _ => ret true
      | _ => raise (TypeError "unhashable type: 'list'")
      end
  | _ => raise (TypeError "object is not iterable")
  end.

(** [int(qml.math.dot(state, basis_states))]: an int64 dot product for an
    integer state; for a float or complex state the weights are converted,
    and [int] keeps the real part.  An array of two dimensions or more comes
    this far only when it is empty: the dot product then fails on the shapes,
    or [int] on its empty result. *)
Definition basis_number (n : nat) (p : param) (device_wires : list nat) : M Z :=
  match p with
  | IntArray v => ret (dot_basis n v device_wires)
  | Array t =>
      match t_shape t with
      | [_] => ret (py_int (fst (dot_float (t_data t) (basis_weights n device_wires))))
      | shape =>
          if Nat.eqb (last shape 0) 0
          then raise (TypeError "only size-1 arrays can be converted to Python scalars")
          else raise (ValueError "shapes not aligned")
      end
  | _ => raise (TypeError "unsupported operand")
  end.

Definition _apply_basis_state_GPU (state : param) (ws : list wire) : M unit :=
  (* translate to wire labels used by device *)
  device_wires <- map_wires ws ;;
  n <- gets num_wires ;;
  (* length of basis state parameter *)
  n_basis_state <- param_len state ;;
  bits <- entries_are_bits state ;;
  (if negb bits
   then raise (ValueError "BasisState parameter must consist of 0 or 1 integers.")
   else ret tt) ;;
  (if negb (Nat.eqb n_basis_state (length device_wires))
   then raise (ValueError "BasisState parameter and wires must be of equal length.")
   else ret tt) ;;
  (* get computational basis state number *)
  num <- basis_number n state device_wires ;;
  gpu_call setZeroState ;;
  _create_basis_state_GPU num false.

(** ** Observables, measurements and tapes *)

Inductive obs_class :=
| Projector
| Hermitian
| Tensor
| OtherObservable.

(** A term of a Hamiltonian: its name (a list for a tensor product) and wires. *)
Record word := mk_word {
  w_name : pyname;
  w_wires : list wire
}.

Record csr_matrix := mk_csr {
  indptr : list Z;
  csr_indices : list Z;
  csr_data : list C
}.

Record observable := mk_observable {
  ob_name : pyname;
  ob_class_of : obs_class;
  ob_wires : list wire;
  ob_parameters : list param;
  ob_matrix : matrix;                          (* qml.matrix(observable) *)
  ob_coeffs : list R;
  ob_ops : list word;
  ob_non_identity_obs : list obs_class;
  ob_diagonalizing_gates : list operation;     (* observable.diagonalizing_gates() *)
  ob_sparse_matrix : csr_matrix                (* observable.sparse_matrix().tocsr() *)
}.

Inductive return_type :=
| Expectation
| State
| OtherReturn.

Record measurement := mk_measurement {
  m_return_type : return_type;
  m_obs : option observable
}.

Record tape := mk_tape {
  operations : list operation;
  measurements : list measurement;
  num_observables : nat;              (* len(tape.observables) *)
  par_info : list operation;          (* the operator owning each parameter *)
  trainable_params : list nat
}.

(** The arguments that the measurement methods hand on to [QubitDevice]. *)
Record sample_opts := mk_opts {
  shot_range : option (nat * nat);
  bin_size : option nat;
  counts : bool
}.

(** ** Collaborators

    The compiled kernels that read the device buffer, the serializer module
    and the inherited [QubitDevice] methods. *)
Record collaborators := mk_collaborators {
  ser_obs : Type;                     (* a serialized observable term *)
  ser_ops : Type;                     (* the serialized operation lists *)
  ops_struct : Type;                  (* OpsStructGPU *)
  has_kernel : string -> bool;        (* getattr(self._gpu_state, name, None) is not None *)
  DeviceToHost : list kernel_call -> list C -> list C;
  GenerateSamples : nat -> option nat -> list kernel_call -> list (list Z);
  ExpectationValue_csr : list Z -> list Z -> list C -> list kernel_call -> R;
  ExpectationValue_words :
    list string -> list (list wire) -> list R -> list kernel_call -> R;
  ExpectationValue_dense : list nat -> list C -> list kernel_call -> R;
  ExpectationValue_named :
    pyname -> list nat -> list param -> list C -> list kernel_call -> R;
  _serialize_observables : tape -> list wire -> bool -> list ser_obs * list nat;
  _serialize_ops : tape -> list wire -> bool -> ser_ops * bool;
  create_ops_list : ser_ops -> ops_struct;
  (* AdjointJacobianGPU_C64 / _C128, chosen by the first argument *)
  adj_adjoint_jacobian :
    bool -> list kernel_call -> list ser_obs -> ops_struct -> list Z -> list R;
  adj_adjoint_jacobian_batched :
    bool -> list kernel_call -> list ser_obs -> ops_struct -> list Z -> list R;
  getTotalDevices : Z;                (* self._dp.getTotalDevices() *)
  super_reset : M unit;
  super_execute : tape -> M unit;
  super_sample : observable -> sample_opts -> M (list R);
  super_expval : observable -> sample_opts -> M R
}.

Section Device.

Variable K : collaborators.

(** ** Gate replay *)

(** [s.split(".")[0]]. *)
Fixpoint split_dot_head (s : string) : string :=
  match s with
  | EmptyString => EmptyString
  | String c rest =>
      if Ascii.eqb c "."%char then EmptyString
      else String c (split_dot_head rest)
  end.

Definition ravel (m : matrix) : list C := concat m.

(** [len(arr)]: the first dimension; a 0-d array has none. *)
Definition py_len (t : tensor) : M nat :=
  match t_shape t with
  | [] => raise (TypeError "len() of unsized object")
  | n :: _ => ret n
  end.

Definition syncD2H (use_async : bool) : M unit :=
  st <- gets _state ;;
  n <- gets num_wires ;;
  len <- py_len st ;;
  (if negb (Nat.eqb len (2 ^ n))
   then modify (set_state (mk_tensor (repeat 2 n) (repeat Czero (2 ^ n)) false))
   else ret tt) ;;
  st <- gets _state ;;
  g <- gets _gpu_state ;;
  modify (set_state (mk_tensor (t_shape st) (DeviceToHost K g (t_data st)) (t_abstract st))) ;;
  st <- gets _state ;;
  modify (set_pre_rotated_state st).

(** [qml.matrix(o)]: the matrix, or [MatrixUndefinedError] for an operation
    that defines none.  The [except AttributeError] around the call serves
    versions of PennyLane that have no [qml.matrix]; it is not modelled. *)
Definition qml_matrix (o : operation) : M matrix :=
  match op_matrix o with
  | Some m => ret m
  | None => raise MatrixUndefinedError
  end.

Definition apply_cq_one (o : operation) : M unit :=
  (* Skip over identity operations *)
  if String.eqb (op_base_name o) "Identity" then ret tt
  else
    let name := split_dot_head (op_name o) in
    let method := has_kernel K name in
    ws <- wires_indices (op_wires o) ;;
    if negb method then
      (* Inverse can be set to False since qml.matrix(o) is already in inverted form *)
      mat <- qml_matrix o ;;
      if Nat.eqb (length mat) 0 then raise (PyException "Unsupported operation")
      else gpu_call (matrix_gate name ws (ravel mat))
    else
      let inv := op_inverse o in
      let param := op_parameters o in
      gpu_call (named_gate name ws inv param).

Definition apply_cq (ops : list operation) : M unit :=
  for_each apply_cq_one ops.

Definition is_state_prep (o : operation) : bool :=
  match op_class_of o with
  | QubitStateVector | BasisState => true
  | _ => false
  end.

Definition state_prep_error (o : operation) : exn :=
  DeviceError ("Operation " ++ op_name o
               ++ " cannot be used after other Operations have already been applied on a "
               ++ short_name ++ " device.").

(** [operations[0].parameters[0]]. *)
Definition first_parameter (o : operation) : M param :=
  match op_parameters o with
  | [] => raise IndexError
  | p :: _ => ret p
  end.

(** State preparation is currently done in Python: the first block of [apply].
    The [del operations[0]] of the source shortens the caller's list; the
    model returns the operations that remain. *)
Definition apply_state_preparation (ops : list operation) : M (list operation) :=
  match ops with
  | [] => ret ops
  | o0 :: tl =>
      match op_class_of o0 with
      | QubitStateVector =>
          p <- first_parameter o0 ;;
          _apply_state_vector_GPU p (op_wires o0) false ;;
          ret tl
      | BasisState =>
          p <- first_parameter o0 ;;
          _apply_basis_state_GPU p (op_wires o0) ;;
          ret tl
      | _ => ret ops
      end
  end.

Definition apply (ops : list operation) : M unit :=
  rest <- apply_state_preparation ops ;;
  for_each (fun o => if is_state_prep o then raise (state_prep_error o) else ret tt) rest ;;
  apply_cq rest ;;
  s <- gets _sync ;;
  if s then syncD2H false else ret tt.

(** ** Measurements *)

Definition generate_samples : M (list (list Z)) :=
  d <- gets (fun d => d) ;;
  ret (GenerateSamples K (length (wires d)) (shots d) (_gpu_state d)).

Definition pyname_eqb_str (n : pyname) (s : string) : bool :=
  match n with
  | Name x => String.eqb x s
  | Names _ => false
  end.

Definition sample (ob : observable) (opts : sample_opts) : M (list R) :=
  (if negb (pyname_eqb_str (ob_name ob) "PauliZ")
   then
     apply_cq (ob_diagonalizing_gates ob) ;;
     s <- generate_samples ;;
     modify (set_samples (Some s))
   else ret tt) ;;
  super_sample K ob opts.

Definition mean (l : list R) : R := (sum_R l / INR (length l))%R.

Definition variance (l : list R) : R :=
  mean (map (fun x => ((x - mean l) * (x - mean l))%R) l).

(** [_name_map]. *)
Definition _name_map (s : string) : option string :=
  if String.eqb s "PauliX" then Some "X"%string
  else if String.eqb s "PauliY" then Some "Y"%string
  else if String.eqb s "PauliZ" then Some "Z"%string
  else if String.eqb s "Identity" then Some "I"%string
  else None.

Definition name_map_lookup (s : string) : M string :=
  match _name_map s with
  | Some c => ret c
  | None => raise (KeyError s)
  end.

Fixpoint compress_chars (names : list string) : M (list string) :=
  match names with
  | [] => ret []
  | n :: rest =>
      c <- name_map_lookup n ;;
      cs <- compress_chars rest ;;
      ret (c :: cs)
  end.

(** One Pauli word: the mapped letters of its name, joined. *)
Definition compress_word (w : word) : M string :=
  cs <- match w_name w with
        | Names l => compress_chars l
        | Name s => compress_chars [s]
        end ;;
  ret (String.concat "" cs).

Fixpoint compress_words (ws : list word) : M (list string * list (list wire)) :=
  match ws with
  | [] => ret ([], [])
  | w :: rest =>
      pw <- compress_word w ;;
      r <- compress_words rest ;;
      ret (pw :: fst r, w_wires w :: snd r)
  end.

Definition is_np_floating (p : param) : bool :=
  match p with
  | NpFloat _ => true
  | _ => false
  end.

Definition expval (ob : observable) (opts : sample_opts) : M R :=
  if pyname_eqb_str (ob_name ob) "Projector" || pyname_eqb_str (ob_name ob) "Hermitian"
  then
    syncD2H false ;;
    super_expval K ob opts
  else
    sh <- gets shots ;;
    match sh with
    | Some _ =>
        (* estimate the expectation value *)
        samples <- sample ob (mk_opts (shot_range opts) (bin_size opts) false) ;;
        ret (mean samples)
    | None =>
        g <- gets _gpu_state ;;
        if pyname_eqb_str (ob_name ob) "SparseHamiltonian" then
          let m := ob_sparse_matrix ob in
          ret (ExpectationValue_csr K (indptr m) (csr_indices m) (csr_data m) g)
        else if pyname_eqb_str (ob_name ob) "Hamiltonian" then
          device_wires <- map_wires (ob_wires ob) ;;
          (* 16 bytes * (2^13)^2 -> 1GB Hamiltonian limit for GPU transfer before *)
          if Nat.ltb 13 (length device_wires) then
            let coeffs := ob_coeffs ob in
            pw <- compress_words (ob_ops ob) ;;
            ret (ExpectationValue_words K (fst pw) (snd pw) coeffs g)
          else
            ret (ExpectationValue_dense K device_wires (ravel (ob_matrix ob)) g)
        else
          let par :=
            match ob_parameters ob with
            | p :: _ => if is_np_floating p then ob_parameters ob else []
            | [] => []
            end in
          ws <- wires_indices (ob_wires ob) ;;
          ret (ExpectationValue_named K (ob_name ob) ws par (ravel (ob_matrix ob)) g)
    end.

(** Matrices: [math.conj], [math.T] and [np.matmul]. *)
Definition Cconj (z : C) : C := (fst z, (- snd z)%R).
Definition Cadd (a b : C) : C := ((fst a + fst b)%R, (snd a + snd b)%R).
Definition Cmul (a b : C) : C :=
  ((fst a * fst b - snd a * snd b)%R, (fst a * snd b + snd a * fst b)%R).

Definition conj (m : matrix) : matrix := map (map Cconj) m.

Fixpoint transpose_cols (ncols : nat) (m : matrix) : matrix :=
  match ncols with
  | 0 => []
  | S k => transpose_cols k m ++ [map (fun row => nth k row Czero) m]
  end.

Definition T (m : matrix) : matrix :=
  transpose_cols (length (hd [] m)) m.

Definition Cdot (u v : list C) : C :=
  fold_right Cadd Czero (map (fun p => Cmul (fst p) (snd p)) (combine u v)).

Definition matmul (a b : matrix) : matrix :=
  map (fun row => map (fun col => Cdot row col) (T b)) a.

(** [[i + suffix for i in observable.name]]: over the characters of a string,
    or over the entries of a list. *)
Fixpoint chars_of (s : string) : list string :=
  match s with
  | EmptyString => []
  | String c rest => String c EmptyString :: chars_of rest
  end.

Definition name_items (n : pyname) : list string :=
  match n with
  | Name s => chars_of s
  | Names l => l
  end.

Definition with_suffix (n : pyname) (suffix : string) : pyname :=
  Names (map (fun i => i ++ suffix)%string (name_items n)).

Definition var (ob : observable) (opts : sample_opts) : M R :=
  sh <- gets shots ;;
  match sh with
  | Some _ =>
      (* estimate the var *)
      samples <- sample ob (mk_opts (shot_range opts) (bin_size opts) false) ;;
      ret (variance samples)
  | None =>
      let adjoint_matrix := T (conj (ob_matrix ob)) in
      let sqr_matrix := matmul adjoint_matrix (ob_matrix ob) in
      ws <- wires_indices (ob_wires ob) ;;
      g <- gets _gpu_state ;;
      let mean := ExpectationValue_named K (with_suffix (ob_name ob) "_var") ws
                    (ob_parameters ob) (ravel (ob_matrix ob)) g in
      ws' <- wires_indices (ob_wires ob) ;;
      g' <- gets _gpu_state ;;
      let squared_mean := ExpectationValue_named K (with_suffix (ob_name ob) "_sqr") ws'
                            (ob_parameters ob) (ravel sqr_matrix) g' in
      ret (squared_mean - mean ^ 2)%R
  end.

(** ** Adjoint differentiation *)

(** What [adjoint_jacobian] returns: the 0-d array [np.array(0)], or a 2-d
    array with its number of columns and its rows. *)
Inductive ndarray :=
| Array0d (x : R)
| Array2d (ncols : nat) (rows : list (list R)).

(** [self._batch_obs], of type [Union[bool, int]]; fixed when the device is
    built and read by [adjoint_jacobian] alone. *)
Inductive batch_policy :=
| BatchBool (b : bool)
| BatchInt (k : Z).

(** Truth value of [self._batch_obs]. *)
Definition truthy (p : batch_policy) : bool :=
  match p with
  | BatchBool b => b
  | BatchInt k => negb (Z.eqb k 0)
  end.

Definition is_projector (c : obs_class) : bool :=
  match c with Projector => true | _ => false end.

Definition is_hermitian (c : obs_class) : bool :=
  match c with Hermitian => true | _ => false end.

Definition is_tensor (c : obs_class) : bool :=
  match c with Tensor => true | _ => false end.

Definition is_expectation (r : return_type) : bool :=
  match r with Expectation => true | _ => false end.

Definition is_state (r : return_type) : bool :=
  match r with State => true | _ => false end.

Definition projector_error : exn :=
  QuantumFunctionError
    "Adjoint differentiation method does not support the Projector observable".

Definition hermitian_error : exn :=
  QuantumFunctionError
    "LightningGPU adjoint differentiation method does not currently support the Hermitian observable".

Definition check_measurement_obs (m : measurement) : M unit :=
  match m_obs m with
  | None => ret tt
  | Some ob =>
      if negb (is_tensor (ob_class_of ob)) then
        if is_projector (ob_class_of ob) then raise projector_error
        else if is_hermitian (ob_class_of ob) then raise hermitian_error
        else ret tt
      else
        if existsb is_projector (ob_non_identity_obs ob) then raise projector_error
        else if existsb is_hermitian (ob_non_identity_obs ob) then raise hermitian_error
        else ret tt
  end.

Definition _check_adjdiff_supported_measurements (ms : list measurement)
    : M (option return_type) :=
  if Nat.eqb (length ms) 0 then ret None
  else if Nat.eqb (length ms) 1
          && match ms with m :: _ => is_state (m_return_type m) | [] => false end
  then raise (QuantumFunctionError "Not supported")
  else if negb (forallb (fun m => is_expectation (m_return_type m)) ms)
  then raise (QuantumFunctionError
    "Adjoint differentiation method does not support expectation return type mixed with other return types")
  else
    for_each check_measurement_obs ms ;;
    ret (Some Expectation).

Definition is_rot (o : operation) : bool :=
  match op_class_of o with Rot => true | _ => false end.

(** The operations that the adjoint method refuses. *)
Definition unsupported_op (o : operation) : bool :=
  Nat.ltb 1 (op_num_params o) && negb (is_rot o).

(** The double-quote character. *)
Definition dquote : string := String (Ascii.ascii_of_nat 34) EmptyString.

Definition unsupported_op_error (o : operation) : exn :=
  QuantumFunctionError
    ("The " ++ op_name o
     ++ " operation is not supported using the " ++ dquote ++ "adjoint" ++ dquote
     ++ " differentiation method").

Definition _check_adjdiff_supported_operations (ops : list operation) : M unit :=
  for_each (fun o => if unsupported_op o then raise (unsupported_op_error o) else ret tt) ops.

Definition _create_basis_state_default (index : nat) : M tensor :=
  match index with
  | 0 => ret (mk_tensor [2] [Cone; Czero] false)
  | 1 => ret (mk_tensor [2] [Czero; Cone] false)
  | _ => raise IndexError
  end.

Definition reset : M unit :=
  super_reset K ;;
  (* init the state vector to |00..0> *)
  st <- _create_basis_state_default 0 ;;
  modify (set_state st) ;;
  st <- gets _state ;;
  modify (set_pre_rotated_state st) ;;
  gpu_call (resetGPU false).

(** [tape.get_operation(idx)]: the operator owning the [idx]-th trainable
    parameter. *)
Definition get_operation (t : tape) (idx : nat) : M operation :=
  match nth_error (trainable_params t) idx with
  | None => raise IndexError
  | Some t_idx =>
      match nth_error (par_info t) t_idx with
      | None => raise IndexError
      | Some op => ret op
      end
  end.

(** [isinstance(op, Operation) and not isinstance(op, (BasisState, QubitStateVector))] *)
Definition differentiable_op (o : operation) : bool :=
  match op_class_of o with
  | Rot | Operation => true
  | QubitStateVector | BasisState | NotOperation => false
  end.

(** The loop over [enumerate(trainable_params)]; the accumulator holds
    [tp_shift], [record_tp_rows] and [all_params]. *)
Fixpoint trainable_loop (t : tape) (op_idx : nat) (tps : list nat)
    (acc : list Z * list nat * nat) : M (list Z * list nat * nat) :=
  match tps with
  | [] => ret acc
  | tp :: rest =>
      op <- get_operation t op_idx ;;
      let '(tp_shift, record_tp_rows, all_params) := acc in
      let acc' :=
        if differentiable_op op
        then (tp_shift ++ [Z.of_nat tp], record_tp_rows ++ [all_params], S all_params)
        else (tp_shift, record_tp_rows, S all_params) in
      trainable_loop t (S op_idx) rest acc'
  end.

(** [range(0, stop, step)]: a zero step is an error, a negative one gives no
    element. *)
Fixpoint range_up (fuel : nat) (cur stop step : Z) : list Z :=
  match fuel with
  | 0 => []
  | S f => if Z.ltb cur stop then cur :: range_up f (cur + step) stop step else []
  end.

Definition py_range (stop step : Z) : M (list Z) :=
  if Z.eqb step 0 then raise (ValueError "range() arg 3 must not be zero")
  else if Z.ltb step 0 then ret []
  else ret (range_up (Z.to_nat stop) 0 stop step).

(** [l[a : b]] for [0 <= a]. *)
Definition slice {A} (l : list A) (a b : nat) : list A := firstn (b - a) (skipn a l).

Fixpoint chunk_rows (fuel n : nat) (l : list R) : list (list R) :=
  match fuel with
  | 0 => []
  | S f =>
      match l with
      | [] => []
      | _ => firstn n l :: chunk_rows f n (skipn n l)
      end
  end.

(** [np.array(jac).reshape(-1, ncols)]. *)
Definition reshape_rows (jac : list R) (ncols : nat) : M (list (list R)) :=
  if Nat.eqb ncols 0
  then raise (ValueError "cannot reshape array into shape (-1, 0)")
  else if negb (Nat.eqb (length jac mod ncols) 0)
  then raise (ValueError "cannot reshape array: size is not a multiple of the row length")
  else ret (chunk_rows (length jac) ncols jac).

(** [np.sum(rows, axis=0)] for rows of [ncols] entries. *)
Definition sum_axis0 (ncols : nat) (rows : list (list R)) : list R :=
  map (fun j => sum_R (map (fun row => nth j row 0%R) rows)) (seq 0 ncols).

Fixpoint replace_nth {A} (i : nat) (x : A) (l : list A) : list A :=
  match l, i with
  | [], _ => []
  | _ :: rest, 0 => x :: rest
  | y :: rest, S i' => y :: replace_nth i' x rest
  end.

Definition broadcast_error : exn := ValueError "could not broadcast input array".

(** [jac_r[idx, :] = src] for a 1-d [src]: copied when the lengths agree,
    repeated when [src] has one entry, an error otherwise. *)
Definition assign_row (ncols : nat) (jac_r : list (list R)) (idx : nat)
    (src : list R) : M (list (list R)) :=
  if negb (Nat.ltb idx (length jac_r)) then raise IndexError
  else if Nat.eqb (length src) ncols then ret (replace_nth idx src jac_r)
  else match src with
       | [x] => ret (replace_nth idx (repeat x ncols) jac_r)
       | _ => raise broadcast_error
       end.

(** [jac_r[idx, :] = src] for a 2-d [src]: a leading dimension of one is
    dropped, any other is an error. *)
Definition assign_row_2d (ncols : nat) (jac_r : list (list R)) (idx : nat)
    (src : list (list R)) : M (list (list R)) :=
  match src with
  | [row] => assign_row ncols jac_r idx row
  | _ =>
      if negb (Nat.ltb idx (length jac_r)) then raise IndexError
      else raise broadcast_error
  end.

(** Reduce over decomposed expval(H), if required. *)
Fixpoint reduce_loop (jac : list (list R)) (jac_ncols : nat) (obs_offsets : list nat)
    (ncols : nat) (idxs : list nat) (jac_r : list (list R)) : M (list (list R)) :=
  match idxs with
  | [] => ret jac_r
  | idx :: rest =>
      let a := nth idx obs_offsets 0 in
      let b := nth (idx + 1) obs_offsets 0 in
      jac_r' <-
        (if Z.ltb 1 (Z.of_nat b - Z.of_nat a)
         then assign_row ncols jac_r idx (sum_axis0 jac_ncols (slice jac a b))
         else assign_row_2d ncols jac_r idx (slice jac a b)) ;;
      reduce_loop jac jac_ncols obs_offsets ncols rest jac_r'
  end.

(** The kernel calls of one differentiation, under the batching policy. *)
Fixpoint batched_loop (obs_serialized : list (ser_obs K)) (ops_serialized : ops_struct K)
    (tp_shift : list Z) (batch_size : Z) (chunks : list Z) (jac : list R) : M (list R) :=
  match chunks with
  | [] => ret jac
  | chunk :: rest =>
      let obs_chunk := slice obs_serialized (Z.to_nat chunk) (Z.to_nat (chunk + batch_size)) in
      cs <- gets use_csingle ;;
      g <- gets _gpu_state ;;
      log_event (AdjointKernel true (length obs_chunk) tp_shift) ;;
      let jac_chunk := adj_adjoint_jacobian_batched K cs g obs_chunk ops_serialized tp_shift in
      batched_loop obs_serialized ops_serialized tp_shift batch_size rest (jac ++ jac_chunk)
  end.

Definition run_kernels (batch_obs : batch_policy) (obs_serialized : list (ser_obs K))
    (ops_serialized : ops_struct K) (tp_shift : list Z) : M (list R) :=
  if truthy batch_obs then
    let num_obs := Z.of_nat (length obs_serialized) in
    let batch_size :=
      match batch_obs with
      | BatchBool _ => num_obs
      | BatchInt k => (k * getTotalDevices K)%Z
      end in
    chunks <- py_range num_obs batch_size ;;
    batched_loop obs_serialized ops_serialized tp_shift batch_size chunks []
  else
    cs <- gets use_csingle ;;
    g <- gets _gpu_state ;;
    log_event (AdjointKernel false (length obs_serialized) tp_shift) ;;
    ret (adj_adjoint_jacobian K cs g obs_serialized ops_serialized tp_shift).

Definition shots_warning : string :=
  "Requested adjoint differentiation to be computed with finite shots. The derivative is always exact when using the adjoint differentiation method.".

(** Lines 624-644: the trainable parameters handed to the kernels. *)
Definition filter_trainable_params (t : tape) (use_sp : bool)
    : M (list Z * list nat * nat) :=
  let trainable := sorted (trainable_params t) in
  acc <- trainable_loop t 0 trainable ([], [], 0) ;;
  let '(tp_shift, record_tp_rows, all_params) := acc in
  (* When the first element of the tape is state preparation. *)
  let tp_shift := if use_sp then map (fun i => (i - 1)%Z) tp_shift else tp_shift in
  ret (tp_shift, record_tp_rows, all_params).

(** Initialization of state. *)
Definition adjoint_init_state (t : tape) (starting_state : option tensor)
    (use_device_state : bool) : M unit :=
  match starting_state with
  | Some _ => ret tt
  | None => if negb use_device_state then reset ;; super_execute K t else ret tt
  end.

(** Lines 680-691: the kernel output as rows, reduced over the offsets. *)
Definition assemble_jacobian (jac : list R) (n_tp : nat) (obs_offsets : list nat)
    (n_obs all_params : nat) : M ndarray :=
  (* only for parameters differentiable with the adjoint method *)
  jac <- reshape_rows jac n_tp ;;
  let jac_r := repeat (repeat 0%R all_params) n_obs in
  jac_r <- reduce_loop jac n_tp obs_offsets all_params
             (seq 0 (length obs_offsets - 1)) jac_r ;;
  ret (Array2d all_params jac_r).

(** Serialization, filtering, kernel calls and assembly. *)
Definition adjoint_differentiate (batch_obs : batch_policy) (t : tape) : M ndarray :=
  cs <- gets use_csingle ;;
  wire_map <- gets wires ;;
  let '(obs_serialized, obs_offsets) := _serialize_observables K t wire_map cs in
  log_event SerializedObservables ;;
  let '(ops_ser, use_sp) := _serialize_ops K t wire_map cs in
  log_event SerializedOps ;;
  let ops_serialized := create_ops_list K ops_ser in
  log_event CreatedOpsList ;;
  f <- filter_trainable_params t use_sp ;;
  let '(tp_shift, record_tp_rows, all_params) := f in
  jac <- run_kernels batch_obs obs_serialized ops_serialized tp_shift ;;
  assemble_jacobian jac (length tp_shift) obs_offsets (num_observables t) all_params.

Definition adjoint_jacobian (batch_obs : batch_policy) (t : tape)
    (starting_state : option tensor) (use_device_state : bool) : M ndarray :=
  sh <- gets shots ;;
  (match sh with
   | Some _ => warn shots_warning
   | None => ret tt
   end) ;;
  tape_return_type <- _check_adjdiff_supported_measurements (measurements t) ;;
  if Nat.eqb (length (trainable_params t)) 0 then ret (Array0d 0%R)
  else
    (* Check adjoint diff support *)
    _check_adjdiff_supported_operations (operations t) ;;
    adjoint_init_state t starting_state use_device_state ;;
    adjoint_differentiate batch_obs t.

End Device.

(** ** Vocabulary of the statements *)

(** A computation that neither reads nor writes the device. *)
Definition stateless {A} (m : M A) : Prop :=
  exists r, forall d, m d = (r, d).

(** The kernel call that [apply_cq] issues for an operation on device wires
    [ws]: the named kernel when the buffer has one, the matrix otherwise. *)
Definition gate_call (K : collaborators) (ws : list nat) (o : operation) : kernel_call :=
  let name := split_dot_head (op_name o) in
  if has_kernel K name
  then named_gate name ws (op_inverse o) (op_parameters o)
  else matrix_gate name ws (ravel (match op_matrix o with Some m => m | None => [] end)).

(** The operations that [apply_cq] does not skip. *)
Definition replayed (o : operation) : bool :=
  negb (String.eqb (op_base_name o) "Identity").

(** The names that [expval] sends through [_name_map] for one word. *)
Definition word_names (w : word) : list string :=
  match w_name w with
  | Names l => l
  | Name s => [s]
  end.

(** The words that [_name_map] covers. *)
Definition pauli_word (w : word) : Prop :=
  Forall (fun n => _name_map n <> None) (word_names w).

(** The measurements that [_check_adjdiff_supported_measurements] lets
    through: none at all, or expectations only, none of them of a Projector or
    a Hermitian observable. *)
Definition supported_obs (m : measurement) : bool :=
  match m_obs m with
  | None => true
  | Some ob =>
      if is_tensor (ob_class_of ob)
      then negb (existsb is_projector (ob_non_identity_obs ob))
           && negb (existsb is_hermitian (ob_non_identity_obs ob))
      else negb (is_projector (ob_class_of ob)) && negb (is_hermitian (ob_class_of ob))
  end.

Definition supported_measurements (ms : list measurement) : bool :=
  forallb (fun m => is_expectation (m_return_type m)) ms && forallb supported_obs ms.

(** The device after the warning that [adjoint_jacobian] emits under finite
    shots. *)
Definition warned (dev : device) : device :=
  match shots dev with
  | Some _ => set_trace (Warned shots_warning :: trace dev) dev
  | None => dev
  end.

(** Whether trainable position [tp] belongs to an operation that the adjoint
    method differentiates. *)
Definition owner_differentiable (t : tape) (tp : nat) : bool :=
  match nth_error (par_info t) tp with
  | Some o => differentiable_op o
  | None => false
  end.

(** The device once the tape has been serialized. *)
Definition differentiation_start (d : device) : device :=
  set_trace (CreatedOpsList :: SerializedOps :: SerializedObservables :: trace d) d.

(** A recorded kernel invocation that received the trainable positions [tp]. *)
Definition kernel_event_with (tp : list Z) (e : event) : Prop :=
  exists batched n, e = AdjointKernel batched n tp.

(** The value that the kernel calls of [run_kernels] add up to, as a function
    of the precision flag and the buffer they read. *)
Definition kernel_result (K : collaborators) (batch_obs : batch_policy) (cs : bool)
    (g : list kernel_call) (obs : list (ser_obs K)) (ops : ops_struct K) (tp : list Z)
    : outcome (list R) :=
  if truthy batch_obs then
    let num_obs := Z.of_nat (length obs) in
    let batch_size :=
      match batch_obs with
      | BatchBool _ => num_obs
      | BatchInt k => (k * getTotalDevices K)%Z
      end in
    if Z.eqb batch_size 0 then Exc (ValueError "range() arg 3 must not be zero")
    else if Z.ltb batch_size 0 then Val []
    else Val (flat_map
                (fun chunk =>
                   adj_adjoint_jacobian_batched K cs g
                     (slice obs (Z.to_nat chunk) (Z.to_nat (chunk + batch_size))) ops tp)
                (range_up (Z.to_nat num_obs) 0 num_obs batch_size))
  else Val (adj_adjoint_jacobian K cs g obs ops tp).

(** The outcome of [adjoint_differentiate] on a device, as a value. *)
Definition differentiate_result (K : collaborators) (batch_obs : batch_policy) (t : tape)
    (d : device) : outcome ndarray :=
  let so := _serialize_observables K t (wires d) (use_csingle d) in
  let sp := _serialize_ops K t (wires d) (use_csingle d) in
  match fst (filter_trainable_params t (snd sp) d) with
  | Exc e => Exc e
  | Val (tp_shift, _, all_params) =>
      match kernel_result K batch_obs (use_csingle d) (_gpu_state d) (fst so)
              (create_ops_list K (fst sp)) tp_shift with
      | Exc e => Exc e
      | Val jac =>
          fst (assemble_jacobian jac (length tp_shift) (snd so) (num_observables t)
                 all_params d)
      end
  end.

(** What [jac_r[idx, :] = src] leaves in a row of [n] columns: [src] itself
    when it has [n] entries, its single entry repeated otherwise. *)
Definition row_is (n : nat) (r src : list R) : Prop :=
  (length src = n /\ r = src) \/ (exists x, src = [x] /\ r = repeat x n).

(** Row [idx] of the result against the rows [jac] of the kernels: the sum of
    the rows in the offsets range when the range is longer than one, the
    single row of the range otherwise. *)
Definition reduced_row (n : nat) (jac : list (list R)) (m : nat) (offsets : list nat)
    (idx : nat) (r : list R) : Prop :=
  let a := nth idx offsets 0 in
  let b := nth (idx + 1) offsets 0 in
  if Z.ltb 1 (Z.of_nat b - Z.of_nat a)
  then row_is n r (sum_axis0 m (slice jac a b))
  else exists row, slice jac a b = [row] /\ row_is n r row.


(** ** Vocabulary of the variance *)

(** The entry of a matrix in row [i] and column [j]. *)
Definition mat_entry (m : matrix) (i j : nat) : C := nth j (nth i m []) Czero.

Definition Csum (l : list C) : C := fold_right Cadd Czero l.

(** An [n] by [n] matrix. *)
Definition square (n : nat) (m : matrix) : Prop :=
  length m = n /\ Forall (fun row => length row = n) m.

(** A matrix that is its own conjugate transpose. *)
Definition hermitian (n : nat) (m : matrix) : Prop :=
  forall i j, i < n -> j < n -> mat_entry m j i = Cconj (mat_entry m i j).

(** The [n] by [n] matrix of the entries [f i j]. *)
Definition tabulate (n : nat) (f : nat -> nat -> C) : matrix :=
  map (fun i => map (fun j => f i j) (seq 0 n)) (seq 0 n).

(** A matrix composed with itself: the entry in row [i] and column [j] is the
    sum over [k] of [m[i][k] * m[k][j]]. *)
Definition matrix_square (n : nat) (m : matrix) : matrix :=
  tabulate n (fun i j =>
    Csum (map (fun k => Cmul (mat_entry m i k) (mat_entry m k j)) (seq 0 n))).

(** The conjugate transpose of a matrix composed with the matrix: the entry
    in row [i] and column [j] is the sum over [k] of
    [conj(m[k][i]) * m[k][j]]. *)
Definition adjoint_square (n : nat) (m : matrix) : matrix :=
  tabulate n (fun i j =>
    Csum (map (fun k => Cmul (Cconj (mat_entry m k i)) (mat_entry m k j)) (seq 0 n))).

(** ** A reference instance of the collaborators *)

(** Reference serializer: a Hamiltonian expands into one term per coefficient,
    any other observable into one term; a term is represented by its weight. *)
Definition ref_terms (m : measurement) : list R :=
  match m_obs m with
  | Some ob =>
      if pyname_eqb_str (ob_name ob) "Hamiltonian" then ob_coeffs ob else [1%R]
  | None => [1%R]
  end.

Fixpoint ref_offsets (acc : nat) (ms : list measurement) : list nat :=
  match ms with
  | [] => []
  | m :: rest =>
      (acc + length (ref_terms m)) :: ref_offsets (acc + length (ref_terms m)) rest
  end.

Definition ref_serialize_observables (t : tape) (wm : list wire) (cs : bool)
    : list R * list nat :=
  (flat_map ref_terms (measurements t), 0 :: ref_offsets 0 (measurements t)).

Definition ref_serialize_ops (t : tape) (wm : list wire) (cs : bool) : unit * bool :=
  (tt, existsb is_state_prep (operations t)).

(** Reference kernel: one row per term, one entry per trainable position. *)
Definition ref_adjoint (cs : bool) (g : list kernel_call) (obs : list R) (ops : unit)
    (tp : list Z) : list R :=
  flat_map (fun c => map (fun p => (c * IZR (p + 1))%R) tp) obs.

Definition ref_K : collaborators :=
  mk_collaborators R unit unit
    (fun _ => true)
    (fun _ buf => buf)
    (fun _ _ _ => [])
    (fun _ _ _ _ => 0%R)
    (fun _ _ _ _ => 0%R)
    (fun _ _ _ => 0%R)
    (fun _ _ _ _ _ => 0%R)
    ref_serialize_observables
    ref_serialize_ops
    (fun ops => ops)
    ref_adjoint
    ref_adjoint
    2%Z
    (ret tt)
    (fun _ => ret tt)
    (fun _ _ => ret [])
    (fun _ _ => ret 0%R).

(** ** Example inputs *)

(** A device as [__init__] leaves it: wires [0 .. n-1], the buffer in the
    basis state 0. *)
Definition new_device (n : nat) (sh : option nat) (sync : bool) : device :=
  mk_device (seq 0 n) sh false sync
    (mk_tensor [2] [Cone; Czero] false) (mk_tensor [2] [Cone; Czero] false)
    [setBasisState 0 false] None [].

Definition no_opts : sample_opts := mk_opts None None false.

(** A gate that the buffer applies by its name; its matrix, which [apply_cq]
    asks for only when the buffer has no kernel of the name, is left out. *)
Definition gate (name : string) (ws : list wire) (params : list param) : operation :=
  mk_operation name name Operation ws false params (length params) None.

Definition basis_state_op (bits : list Z) (ws : list wire) : operation :=
  mk_operation "BasisState" "BasisState" BasisState ws false [IntArray bits] 1 None.

Definition state_vector_op (amps : list C) (ws : list wire) : operation :=
  mk_operation "QubitStateVector" "QubitStateVector" QubitStateVector ws false
    [Array (mk_tensor [length amps] amps false)] 1 None.

Definition rx (theta : R) (w : wire) : operation := gate "RX" [w] [PyFloat theta].

Definition ry (theta : R) (w : wire) : operation := gate "RY" [w] [PyFloat theta].

Definition crot : operation :=
  gate "CRot" [0; 1] [PyFloat (1 / 10)%R; PyFloat (2 / 10)%R; PyFloat (3 / 10)%R].

Definition zero_ket : operation := state_vector_op [Cone; Czero] [0].

(** [BasisState([1])] on wire 0, a Pauli X, then a second [BasisState]. *)
Definition late_state_prep_ops : list operation :=
  [basis_state_op [1%Z] [0]; gate "PauliX" [0] []; basis_state_op [0%Z] [0]].

(** A one-qubit state vector of norm 1.000005. *)
Definition loose_norm : R := (1000005 / 1000000)%R.

Definition loose_state : tensor :=
  mk_tensor [2] [(loose_norm, 0%R); Czero] false.

Definition named_observable (name : string) (ws : list wire) (gates : list operation)
    : observable :=
  mk_observable (Name name) OtherObservable ws [] [] [] [] [] gates (mk_csr [] [] []).

(** The Identity observable: it has no diagonalizing gate. *)
Definition identity_observable : observable := named_observable "Identity" [0] [].

(** The tensor product of two Pauli Z: its name is a list, and it has no
    diagonalizing gate either. *)
Definition zz_observable : observable :=
  mk_observable (Names ["PauliZ"%string; "PauliZ"%string]) Tensor [0; 1] [] [] [] []
    [OtherObservable; OtherObservable] [] (mk_csr [] [] []).

(** Pauli Z on wire 0, with its matrix. *)
Definition pauli_z_matrix : matrix :=
  [[(1%R, 0%R); (0%R, 0%R)]; [(0%R, 0%R); ((-1)%R, 0%R)]].

Definition pauli_z : observable :=
  mk_observable (Name "PauliZ") OtherObservable [0] [] pauli_z_matrix [] [] [] []
    (mk_csr [] [] []).

(** A Hamiltonian of [n] Pauli Z terms, one per wire. *)
Definition z_chain (n : nat) : observable :=
  mk_observable (Name "Hamiltonian") OtherObservable (seq 0 n) [] []
    (repeat 1%R n) (map (fun w => mk_word (Name "PauliZ") [w]) (seq 0 n)) [] []
    (mk_csr [] [] []).

(** A Hamiltonian on 14 wires with a Hadamard term. *)
Definition hadamard_chain : observable :=
  mk_observable (Name "Hamiltonian") OtherObservable (seq 0 14) [] []
    (repeat 1%R 14)
    (mk_word (Name "Hadamard") [0] :: map (fun w => mk_word (Name "PauliZ") [w]) (seq 1 13))
    [] [] (mk_csr [] [] []).

(** A Hamiltonian on two wires with a Hadamard term, of matrix [m]. *)
Definition hadamard_pair (m : matrix) : observable :=
  mk_observable (Name "Hamiltonian") OtherObservable [0; 1] [] m
    [1%R; 1%R]
    [mk_word (Name "Hadamard") [0]; mk_word (Name "PauliZ") [1]]
    [] [] (mk_csr [] [] []).

(** A Hamiltonian of three weighted Pauli terms, measured next to a Pauli Z. *)
Definition ham3 : observable :=
  mk_observable (Name "Hamiltonian") OtherObservable [0; 1] [] []
    [(1 / 2)%R; 2%R; 3%R]
    [mk_word (Name "PauliX") [0]; mk_word (Name "PauliZ") [1];
     mk_word (Names ["PauliZ"%string; "PauliZ"%string]) [0; 1]]
    [] [] (mk_csr [] [] []).

Definition expval_of (ob : observable) : measurement :=
  mk_measurement Expectation (Some ob).

(** A tape with a three-parameter [CRot] and no trainable parameter. *)
Definition crot_tape : tape :=
  mk_tape [crot] [expval_of pauli_z] 1 [crot; crot; crot] [].

(** A tape that returns the state and has no trainable parameter. *)
Definition state_tape : tape :=
  mk_tape [gate "Hadamard" [0] []] [mk_measurement State None] 1 [] [].

(** A tape with one trainable [RX] and an unsupported [CRot]. *)
Definition rx_crot_tape : tape :=
  mk_tape [rx (3 / 10)%R 0; crot] [expval_of pauli_z] 1
    [rx (3 / 10)%R 0; crot; crot; crot] [0].

(** Tapes that prepare a state and then apply rotations; every parameter,
    the state vector included, owns one trainable position. *)
Definition prepared_tape_2 : tape :=
  mk_tape [zero_ket; rx (3 / 10)%R 0; ry (5 / 10)%R 0] [expval_of pauli_z] 1
    [zero_ket; rx (3 / 10)%R 0; ry (5 / 10)%R 0] [0; 1; 2].

Definition prepared_tape_1 : tape :=
  mk_tape [zero_ket; rx (3 / 10)%R 0] [expval_of pauli_z] 1
    [zero_ket; rx (3 / 10)%R 0] [0; 1].

(** The same two rotations with only their own parameters trainable. *)
Definition prepared_tape : tape :=
  mk_tape [zero_ket; rx (3 / 10)%R 0; ry (5 / 10)%R 0] [expval_of pauli_z] 1
    [zero_ket; rx (3 / 10)%R 0; ry (5 / 10)%R 0] [1; 2].

Definition ham_tape : tape :=
  mk_tape [rx (3 / 10)%R 0; rx (11 / 10)%R 1] [expval_of ham3; expval_of pauli_z] 2
    [rx (3 / 10)%R 0; rx (11 / 10)%R 1] [0; 1].

(** The Hamiltonian of three terms measured alone. *)
Definition ham_only_tape : tape :=
  mk_tape [rx (3 / 10)%R 0; rx (11 / 10)%R 1] [expval_of ham3] 1
    [rx (3 / 10)%R 0; rx (11 / 10)%R 1] [0; 1].

(** A tape with a trainable rotation and nothing measured. *)
Definition unmeasured_tape : tape :=
  mk_tape [rx (3 / 10)%R 0] [] 0 [rx (3 / 10)%R 0] [0].

(** ** The host view of the state *)

(** [self._reshape(tensor, shape)]: the number of entries must not change. *)
Definition _reshape (t : tensor) (shape : list nat) : M tensor :=
  if Nat.eqb (_size t) (prod_shape shape)
  then ret (mk_tensor shape (t_data t) (t_abstract t))
  else raise (ValueError "cannot reshape array").

(** The [state] property. *)
Definition state (K : collaborators) : M tensor :=
  (* Flattening the state. *)
  n <- gets num_wires ;;
  let shape := [Nat.shiftl 1 n] in
  syncD2H K false ;;
  st <- gets _pre_rotated_state ;;
  _reshape st shape.

(** ** Probabilities *)

(** The probability kernel of the device buffer and the estimate from samples
    that [QubitDevice] provides. *)
Record readout := mk_readout {
  Probability : list nat -> list kernel_call -> list R;
  estimate_probability : option (list wire) -> sample_opts -> M (list R)
}.

Fixpoint nodupb (l : list nat) : bool :=
  match l with
  | [] => true
  | x :: rest => negb (existsb (Nat.eqb x) rest) && nodupb rest
  end.

(** [Wires(wires)]: the labels must be unique. *)
Definition Wires (ws : list wire) : M (list wire) :=
  if nodupb ws then ret ws else raise WireError.

(** [a.reshape([2] * k)]: the entries stay in place when there are [2 ** k]. *)
Definition reshape_bits (a : list R) (k : nat) : M (list R) :=
  if Nat.eqb (length a) (2 ^ k) then ret a
  else raise (ValueError "cannot reshape array").

(** Entry [idx] of an array of shape [[2] * k], stored in row-major order. *)
Definition entry (a : list R) (idx : list nat) : R :=
  nth (Z.to_nat (ravel_bits idx)) a 0%R.

(** [a.transpose().reshape(-1)] for [a] of shape [[2] * k]: entry [idx] of the
    transpose is entry [reversed(idx)] of [a]; the entries are listed in
    row-major order. *)
Definition transpose_flat (k : nat) (a : list R) : list R :=
  map (fun idx => entry a (rev idx)) (product01 k).

Definition probability (P : readout) (ws : option (list wire)) (opts : sample_opts)
    : M (list R) :=
  sh <- gets shots ;;
  match sh with
  | Some _ => estimate_probability P ws opts
  | None =>
      (* wires = wires or self.wires *)
      ws <- match ws with
            | Some (w :: rest) => Wires (w :: rest)
            | _ => gets wires
            end ;;
      (* translate to wire labels used by device *)
      device_wires <- map_wires ws ;;
      g <- gets _gpu_state ;;
      (* Device returns as col-major orderings, so perform transpose on data
         for bit-index shuffle for now. *)
      a <- reshape_bits (Probability P device_wires g) (length ws) ;;
      ret (transpose_flat (length ws) a)
  end.

(** ** Vector-Jacobian products *)

(** The cotangent [dy]: its entries, and whether its dtype is complex
    ([np.iscomplexobj(dy)]). *)
Record cotangent := mk_cotangent {
  dy_data : list C;
  dy_complex : bool
}.

Definition Cabs (z : C) : R := sqrt (Cnorm2 z).

Definition Csub (a b : C) : C := ((fst a - fst b)%R, (snd a - snd b)%R).

(** The default absolute tolerance of [math.allclose]. *)
Definition default_atol : R := (1 / 100000000)%R.

(** [math.allclose(dy, 0)], with the default tolerances. *)
Definition allclose_zero (dy : cotangent) : bool :=
  forallb (fun z => Rleb (Cabs (Csub z (IZC 0)))
                      (default_atol + default_rtol * Cabs (IZC 0)))
          (dy_data dy).

(** What [vjp] returns: the function that yields zeros, the processing
    function around a Hamiltonian, or nothing when the method reaches its
    end. *)
Inductive vjp_function :=
| zero_vjp
| processing_fn (ham : observable)
| no_function.

Definition dy_length_error : exn :=
  ValueError
    "Number of observables in the tape must be the same as the length of dy in the vjp method".

Definition dy_complex_error : exn :=
  ValueError
    "The vjp method only works with a real-valued dy when the tape is returning an expectation value".

(** [arr.reshape(-1)]. *)
Definition reshape_flat (J : ndarray) : list R :=
  match J with
  | Array0d x => [x]
  | Array2d _ rows => concat rows
  end.

Section VectorJacobian.

Variable K : collaborators.

(** [qml.Hamiltonian(coeffs, observables)]. *)
Variable Hamiltonian : list R -> list (option observable) -> observable.

Definition vjp (meas : list measurement) (dy : cotangent) : M vjp_function :=
  sh <- gets shots ;;
  (match sh with
   | Some _ => warn shots_warning
   | None => ret tt
   end) ;;
  tape_return_type <- _check_adjdiff_supported_measurements meas ;;
  if allclose_zero dy
     || match tape_return_type with None => true | Some _ => false end
  then ret zero_vjp
  else
    match tape_return_type with
    | Some Expectation =>
        if negb (Nat.eqb (length (dy_data dy)) (length meas))
        then raise dy_length_error
        else if dy_complex dy
        then raise dy_complex_error
        else ret (processing_fn (Hamiltonian (map fst (dy_data dy)) (map m_obs meas)))
    | _ => ret no_function
    end.

(** [new_tape = tape.copy(); new_tape._measurements = [qml.expval(ham)]]. *)
Definition with_expval (t : tape) (ham : observable) : tape :=
  mk_tape (operations t) [mk_measurement Expectation (Some ham)] 1
    (par_info t) (trainable_params t).

(** Calling the function that [vjp] returned; the processing function closes
    over [starting_state] and [use_device_state]. *)
Definition call_vjp (batch_obs : batch_policy) (f : vjp_function)
    (starting_state : option tensor) (use_device_state : bool) (t : tape)
    : M (list R) :=
  match f with
  | zero_vjp => ret (repeat 0%R (length (trainable_params t)))
  | processing_fn ham =>
      let num_params := length (trainable_params t) in
      if Nat.eqb num_params 0 then ret []
      else
        let new_tape := with_expval t ham in
        J <- adjoint_jacobian K batch_obs new_tape starting_state use_device_state ;;
        ret (reshape_flat J)
  | no_function => raise (TypeError "'NoneType' object is not callable")
  end.

End VectorJacobian.

(** ** Construction of the device *)

Inductive dtype :=
| complex64
| complex128
| float32
| float64.

(** The compiled state-vector classes. *)
Inductive state_vector_class :=
| LightningGPU_C64
| LightningGPU_C128.

Definition dtype_error : exn :=
  ValueError "Data type is not supported for state-vector computation".

Definition _gpu_dtype (dt : dtype) : outcome state_vector_class :=
  match dt with
  | complex128 => Val LightningGPU_C128
  | complex64 => Val LightningGPU_C64
  | _ => Exc dtype_error
  end.

(** [__init__] for an integer number of wires: the precision is chosen, the
    base class takes the wires and the shots (which it refuses when they are
    fewer than one), the buffer is allocated in the basis state 0.  The result
    is the device with its batching policy and the class of its buffer. *)
Definition __init__ (n_wires : nat) (sync : bool) (c_dtype : dtype)
    (sh : option nat) (batch_obs : batch_policy)
    : outcome (device * batch_policy * state_vector_class) :=
  match (match c_dtype with
         | complex64 => Val true
         | complex128 => Val false
         | _ => Exc (TypeError "Unsupported complex Type")
         end) with
  | Exc e => Exc e
  | Val csingle =>
      match sh with
      | Some 0 =>
          Exc (DeviceError "The specified number of shots needs to be at least 1.")
      | _ =>
          match _gpu_dtype c_dtype with
          | Exc e => Exc e
          | Val cls =>
              let basis := mk_tensor [2] [Cone; Czero] false in
              Val (mk_device (seq 0 n_wires) sh csingle sync basis basis
                     [setBasisState 0 false] None [],
                   batch_obs, cls)
          end
      end
  end.

(** ** Vocabulary of the further statements *)

(** A row of bits. *)
Definition bit_row (row : list nat) : Prop := Forall (fun b => b <= 1) row.

(** The number of a basis state, [bit * 2 ** (n - 1 - wire)] summed over the
    wires, as an integer without bound. *)
Fixpoint basis_index (n : nat) (bits : list Z) (device_wires : list nat) : Z :=
  match bits, device_wires with
  | b :: bs, w :: ws =>
      (b * 2 ^ (Z.of_nat n - 1 - Z.of_nat w) + basis_index n bs ws)%Z
  | _, _ => 0%Z
  end.

(** A one-dimensional array: an integer array, or a float or complex array
    of shape [(m,)] with its [m] entries. *)
Definition array_1d (p : param) : Prop :=
  match p with
  | IntArray _ => True
  | Array t => t_shape t = [length (t_data t)]
  | _ => False
  end.

(** The number of wires from which the basis number is no longer exact: 64
    for an integer array, whose dot product runs in 64-bit integers, and 54
    for a float or complex array, whose dot product runs in double precision,
    where the real numbers of this development show no rounding. *)
Definition wires_limit (p : param) : nat :=
  match p with
  | IntArray _ => 64
  | _ => 54
  end.

(** The entries of an array as integers, when each of them is 0 or 1. *)
Definition param_bits (p : param) : option (list Z) :=
  match p with
  | IntArray v => if forallb Z_is_bit v then Some v else None
  | Array t =>
      if forallb C_is_bit (t_data t)
      then Some (map (fun z => if Reqb (fst z) 1 then 1%Z else 0%Z) (t_data t))
      else None
  | _ => None
  end.

(** The shape in which [_apply_state_vector_GPU] stores a state on all [n]
    wires: [[2] * n], behind the batch size when there is one. *)
Definition state_vector_shape (st : tensor) (k n : nat) : list nat :=
  match _get_batch_size st [2 ^ k] (2 ^ k) with
  | Some b => b :: repeat 2 n
  | None => repeat 2 n
  end.

(** Whether [apply_cq] can replay an operation on a device with wires
    [dev_wires]: an Identity is skipped; any other operation needs its wires
    on the device and a kernel of its name or a matrix that is not empty. *)
Definition runnable (K : collaborators) (dev_wires : list wire) (o : operation) : bool :=
  negb (replayed o)
  || (match indices dev_wires (op_wires o) with Some _ => true | None => false end
      && (has_kernel K (split_dot_head (op_name o))
          || match op_matrix o with
             | Some m => negb (Nat.eqb (length m) 0)
             | None => false
             end)).

(** The kernel calls of a list of operations, in the order of the list. *)
Definition gate_calls (K : collaborators) (dev_wires : list wire) (ops : list operation)
    : list kernel_call :=
  flat_map (fun o =>
              if replayed o then
                match indices dev_wires (op_wires o) with
                | Some ws => [gate_call K ws o]
                | None => []
                end
              else []) ops.

(** The exception that stops [apply_cq] at an operation it cannot replay: an
    unknown wire is met first; without a kernel of the name, an operation
    that defines no matrix fails in [qml.matrix], one with an empty matrix is
    refused as unsupported. *)
Definition replay_error (dev_wires : list wire) (o : operation) : exn :=
  match indices dev_wires (op_wires o) with
  | None => WireError
  | Some _ =>
      match op_matrix o with
      | None => MatrixUndefinedError
      | Some _ => PyException "Unsupported operation"
      end
  end.

(** The host copy that [syncD2H] leaves when it first allocates a buffer. *)
Definition fresh_host_copy (K : collaborators) (d : device) : tensor :=
  mk_tensor (repeat 2 (num_wires d))
    (DeviceToHost K (_gpu_state d) (repeat Czero (2 ^ num_wires d))) false.

(** The shapes in which [__init__], [reset], [syncD2H] and an unbatched
    [QubitStateVector] on all wires leave the host copy. *)
Definition host_shape_ok (d : device) : Prop :=
  t_shape (_state d) = [2] \/ t_shape (_state d) = repeat 2 (num_wires d).

(** The indices that the transpose reads, in the order in which it lists the
    entries. *)
Definition reversed_indices (k : nat) : list nat :=
  map (fun idx => Z.to_nat (ravel_bits (rev idx))) (product01 k).

(** The labels that [probability] reads: the ones given, or every wire of the
    device when none is given. *)
Definition probability_wires (dev : device) (ws : option (list wire)) : list wire :=
  match ws with
  | Some (w :: rest) => w :: rest
  | _ => wires dev
  end.

(** The device with another number of shots. *)
Definition set_shots (sh : option nat) (d : device) : device :=
  mk_device (wires d) sh (use_csingle d) (_sync d) (_state d)
            (_pre_rotated_state d) (_gpu_state d) (_samples d) (trace d).

(** ** Further example inputs *)

(** The reference collaborators with the kernels and the named expectation
    value chosen. *)
Definition ref_K_with (kernels : string -> bool)
    (named : pyname -> list nat -> list param -> list C -> list kernel_call -> R)
    : collaborators :=
  mk_collaborators R unit unit
    kernels
    (fun _ buf => buf)
    (fun _ _ _ => [])
    (fun _ _ _ _ => 0%R)
    (fun _ _ _ _ => 0%R)
    (fun _ _ _ => 0%R)
    named
    ref_serialize_observables
    ref_serialize_ops
    (fun ops => ops)
    ref_adjoint
    ref_adjoint
    2%Z
    (ret tt)
    (fun _ => ret tt)
    (fun _ _ => ret [])
    (fun _ _ => ret 0%R).

(** A buffer with kernels for the named gates only. *)
Definition gates_K : collaborators :=
  ref_K_with
    (fun name =>
       existsb (String.eqb name)
         ["PauliX"; "PauliY"; "PauliZ"; "Hadamard"; "RX"; "RY"; "RZ"; "CNOT"; "CRot"]%string)
    (fun _ _ _ _ _ => 0%R).

(** [qml.BasisState] on a float or complex array of bits. *)
Definition float_basis_state_op (bits : tensor) (ws : list wire) : operation :=
  mk_operation "BasisState" "BasisState" BasisState ws false [Array bits] 1 None.

Definition pauli_x_matrix : matrix := [[Czero; Cone]; [Cone; Czero]].

(** A buffer in the basis state 0 for the named kernel: the expectation of a
    matrix is the real part of its first entry. *)
Definition ket0_K : collaborators :=
  ref_K_with (fun _ => true) (fun _ _ _ flat _ => fst (hd Czero flat)).

(** Pauli X with its matrix. *)
Definition pauli_x_dense : observable :=
  mk_observable (Name "PauliX") OtherObservable [0] [] pauli_x_matrix [] [] []
    [gate "Hadamard" [0] []] (mk_csr [] [] []).

(** A unitary given by its matrix, and an operation that defines none. *)
Definition qubit_unitary_x (w : wire) : operation :=
  mk_operation "QubitUnitary" "QubitUnitary" Operation [w] false [] 1
    (Some pauli_x_matrix).

Definition barrier (w : wire) : operation :=
  mk_operation "Barrier" "Barrier" Operation [w] false [] 0 None.

(** The bits [1, 0] as a float array, [np.array([1.0, 0.0])]. *)
Definition float_bits_10 : tensor := mk_tensor [2] [Cone; Czero] false.

(** A tape that prepares a state and rotates, with the state vector as the
    only trainable parameter. *)
Definition prep_only_tape : tape :=
  mk_tape [zero_ket; rx (3 / 10)%R 0] [expval_of pauli_z] 1
    [zero_ket; rx (3 / 10)%R 0] [0].

(** Two rotations measured by two Pauli Z, every parameter trainable. *)
Definition two_z_tape : tape :=
  mk_tape [rx (3 / 10)%R 0; rx (11 / 10)%R 1]
    [expval_of pauli_z; expval_of (named_observable "PauliZ" [1] [])] 2
    [rx (3 / 10)%R 0; rx (11 / 10)%R 1] [0; 1].

(** Pauli X on wire 0, diagonalized by a Hadamard gate. *)
Definition pauli_x : observable :=
  named_observable "PauliX" [0] [gate "Hadamard" [0] []].

(** A readout whose kernel returns the probabilities of the basis state 0 on
    any buffer. *)
Definition ref_readout : readout :=
  mk_readout (fun ws _ => 1%R :: repeat 0%R (2 ^ length ws - 1))
             (fun _ _ => ret []).

(** A Hamiltonian as the reference serializer reads it: a name and
    coefficients. *)
Definition ref_Hamiltonian (coeffs : list R) (obs : list (option observable))
    : observable :=
  mk_observable (Name "Hamiltonian") OtherObservable [] [] [] coeffs [] [] []
    (mk_csr [] [] []).

Definition real_dy (l : list R) : cotangent :=
  mk_cotangent (map (fun x => (x, 0%R)) l) false.

(** The processing function for the cotangent [(1, 2)] of [two_z_tape]. *)
Definition two_z_vjp : vjp_function :=
  processing_fn (ref_Hamiltonian [1%R; 2%R] (map m_obs (measurements two_z_tape))).

(** A Hermitian observable on wire 0 with the matrix of Pauli Z. *)
Definition hermitian_z : observable :=
  mk_observable (Name "Hermitian") Hermitian [0] [] pauli_z_matrix [] [] [] []
    (mk_csr [] [] []).

(** * Properties *)

(** ** Running the monad *)

Lemma bind_val {A B} (m : M A) (k : A -> M B) d a d' :
  m d = (Val a, d') -> bind m k d = k a d'.
Proof. intros H. unfold bind. rewrite H. reflexivity. Qed.

Lemma bind_exc {A B} (m : M A) (k : A -> M B) d e d' :
  m d = (Exc e, d') -> bind m k d = (Exc e, d').
Proof. intros H. unfold bind. rewrite H. reflexivity. Qed.

Lemma bind_inv_val {A B} (m : M A) (k : A -> M B) d b d2 :
  bind m k d = (Val b, d2) ->
  exists a d1, m d = (Val a, d1) /\ k a d1 = (Val b, d2).
Proof.
  unfold bind. destruct (m d) as [[a|e] d1]; intros H.
  - exists a, d1. split; [reflexivity | exact H].
  - discriminate H.
Qed.

Lemma stateless_ret {A} (a : A) : stateless (ret a).
Proof. exists (Val a). reflexivity. Qed.

Lemma stateless_raise {A} (e : exn) : stateless (@raise A e).
Proof. exists (Exc e). reflexivity. Qed.

Lemma stateless_bind {A B} (m : M A) (k : A -> M B) :
  stateless m -> (forall a, stateless (k a)) -> stateless (bind m k).
Proof.
  intros [r Hr] Hk. destruct r as [a|e].
  - destruct (Hk a) as [r' Hr']. exists r'. intros d.
    unfold bind. rewrite Hr. apply Hr'.
  - exists (Exc e). intros d. unfold bind. rewrite Hr. reflexivity.
Qed.

Lemma stateless_if {A} (b : bool) (m1 m2 : M A) :
  stateless m1 -> stateless m2 -> stateless (if b then m1 else m2).
Proof. destruct b; auto. Qed.

Lemma stateless_for_each {A} (f : A -> M unit) (l : list A) :
  (forall x, stateless (f x)) -> stateless (for_each f l).
Proof.
  intros Hf. induction l as [|x l IH]; simpl.
  - apply stateless_ret.
  - apply stateless_bind; auto.
Qed.

Lemma stateless_state {A} (m : M A) d r d' :
  stateless m -> m d = (r, d') -> d' = d.
Proof. intros [r0 H0] H. rewrite H0 in H. congruence. Qed.

Lemma stateless_any {A} (m : M A) d d0 :
  stateless m -> m d = (fst (m d0), d).
Proof. intros [r H]. rewrite (H d), (H d0). reflexivity. Qed.

Create HintDb stateless.

#[local] Hint Resolve stateless_ret stateless_raise stateless_bind stateless_if
  stateless_for_each : stateless.

(** ** The auxiliary functions on small inputs *)

Example split_dot_head_inv : split_dot_head "RX.inv" = "RX"%string.
Proof. reflexivity. Qed.

Example sorted_3 : sorted [2; 0; 1] = [0; 1; 2].
Proof. reflexivity. Qed.

Example product01_2 : product01 2 = [[0; 0]; [0; 1]; [1; 0]; [1; 1]].
Proof. reflexivity. Qed.

Example ravelled_indices_middle_wire : ravelled_indices 3 [1] = [0%Z; 2%Z].
Proof. reflexivity. Qed.

Example ravelled_indices_swapped : ravelled_indices 2 [1; 0] = [0%Z; 2%Z; 1%Z; 3%Z].
Proof. reflexivity. Qed.

Example dot_basis_101 : dot_basis 3 [1%Z; 0%Z; 1%Z] [0; 1; 2] = 5%Z.
Proof. reflexivity. Qed.

Example py_range_5_2 :
  fst (py_range 5 2 (new_device 1 None true)) = Val [0%Z; 2%Z; 4%Z].
Proof. reflexivity. Qed.

Example with_suffix_string : with_suffix (Name "ab") "_var" = Names ["a_var"%string; "b_var"%string].
Proof. reflexivity. Qed.

Example batch_size_of_batched_state :
  _get_batch_size (mk_tensor [3; 4] (repeat Czero 12) false) [4] 4 = Some 3.
Proof. reflexivity. Qed.

(** ** Rejection of late state preparations *)

Lemma reject_state_prep_run (rest : list operation) (d : device) :
  for_each (fun o => if is_state_prep o then raise (state_prep_error o) else ret tt)
           rest d
  = match find is_state_prep rest with
    | Some o => (Exc (state_prep_error o), d)
    | None => (Val tt, d)
    end.
Proof.
  induction rest as [|o rest IH]; simpl.
  - reflexivity.
  - destruct (is_state_prep o) eqn:E.
    + reflexivity.
    + unfold bind at 1. unfold ret at 1. exact IH.
Qed.

Lemma existsb_find_some {A} (f : A -> bool) (l : list A) :
  existsb f l = true -> exists x, find f l = Some x.
Proof.
  induction l as [|y l IH]; simpl; intros H.
  - discriminate.
  - destruct (f y).
    + eauto.
    + apply IH. exact H.
Qed.

Lemma apply_state_preparation_rest (ops rest : list operation) d d1 :
  apply_state_preparation ops d = (Val rest, d1) ->
  (rest = ops /\ d1 = d /\ existsb is_state_prep (firstn 1 ops) = false)
  \/ (rest = tl ops /\ existsb is_state_prep (firstn 1 ops) = true).
Proof.
  unfold apply_state_preparation. destruct ops as [|o0 tl0].
  - intros H. left. inversion H. auto.
  - unfold is_state_prep. simpl. destruct (op_class_of o0) eqn:E; intros H.
    + right. apply bind_inv_val in H. destruct H as (p & d2 & _ & H).
      apply bind_inv_val in H. destruct H as (u & d3 & _ & H).
      inversion H. auto.
    + right. apply bind_inv_val in H. destruct H as (p & d2 & _ & H).
      apply bind_inv_val in H. destruct H as (u & d3 & _ & H).
      inversion H. auto.
    + left. inversion H. auto.
    + left. inversion H. auto.
    + left. inversion H. auto.
Qed.

(** C9 (as amended).  When a state preparation stands at any position after the
    first, [apply] never reaches the gate replay.  Whatever the leading state
    preparation does comes first: if it is refused, its own error is the
    outcome; otherwise a [DeviceError] naming the first late state preparation
    is raised, in the state that the leading state preparation left.  When the
    first operation is not a state preparation that state is the initial one. *)
Theorem apply_late_state_prep (K : collaborators) (ops : list operation)
    (dev dev1 : device) (r : outcome (list operation)) :
  existsb is_state_prep (tl ops) = true ->
  apply_state_preparation ops dev = (r, dev1) ->
  (forall e, r = Exc e -> apply K ops dev = (Exc e, dev1))
  /\ (forall rest, r = Val rest ->
        exists o, find is_state_prep (tl ops) = Some o
                  /\ apply K ops dev = (Exc (state_prep_error o), dev1))
  /\ (existsb is_state_prep (firstn 1 ops) = false -> r = Val ops /\ dev1 = dev).
Proof.
  intros Hlate Hprep. split; [|split].
  - intros e ->. unfold apply. apply bind_exc. exact Hprep.
  - intros rest ->.
    destruct (existsb_find_some _ _ Hlate) as [o Ho]. exists o. split; [exact Ho|].
    unfold apply. rewrite (bind_val _ _ _ _ _ Hprep).
    apply bind_exc. rewrite reject_state_prep_run.
    destruct (apply_state_preparation_rest _ _ _ _ Hprep) as [(-> & _ & Hhd) | (-> & _)].
    + destruct ops as [|o0 tl0]; [discriminate Hlate|].
      simpl in Hhd, Ho |- *. rewrite orb_false_r in Hhd. rewrite Hhd, Ho. reflexivity.
    + rewrite Ho. reflexivity.
  - intros Hhd. destruct ops as [|o0 tl0]; [discriminate Hlate|].
    simpl in Hhd. rewrite orb_false_r in Hhd.
    unfold apply_state_preparation, is_state_prep in *.
    destruct (op_class_of o0); try discriminate Hhd; inversion Hprep; auto.
Qed.

Lemma apply_late_state_prep_witness :
  existsb is_state_prep (tl late_state_prep_ops) = true
  /\ exists o, find is_state_prep (tl late_state_prep_ops) = Some o
       /\ apply ref_K late_state_prep_ops (new_device 1 None true)
          = (Exc (state_prep_error o),
             snd (apply_state_preparation late_state_prep_ops (new_device 1 None true))).
Proof.
  split; [reflexivity|].
  destruct (apply_late_state_prep ref_K late_state_prep_ops (new_device 1 None true)
              (snd (apply_state_preparation late_state_prep_ops (new_device 1 None true)))
              (Val (tl late_state_prep_ops)) eq_refl eq_refl) as (_ & H & _).
  exact (H _ eq_refl).
Defined.

(** C9, as stated, fails: with [BasisState([1])] first and a second
    [BasisState] later, the [DeviceError] is raised after the device buffer has
    been zeroed and set to the basis state 1. *)
Lemma apply_late_state_prep_counterexample :
  exists msg dev',
    apply ref_K late_state_prep_ops (new_device 1 None true) = (Exc (DeviceError msg), dev')
    /\ _gpu_state dev' = [setBasisState 1 false; setZeroState; setBasisState 0 false]
    /\ _gpu_state dev' <> _gpu_state (new_device 1 None true).
Proof.
  eexists. eexists. split; [reflexivity|]. split; [reflexivity|].
  simpl. discriminate.
Qed.

(** ** Validation of an explicit state vector *)

Lemma Rleb_true_iff (a b : R) : Rleb a b = true <-> (a <= b)%R.
Proof.
  unfold Rleb. destruct (Rle_dec a b) as [H|H]; split; intros H'; auto; discriminate.
Qed.

(** The tolerance that [allclose(norm, 1.0, atol=tolerance)] applies. *)
Lemma allclose_one_spec (l : list R) :
  allclose l 1%R tolerance = true
  <-> Forall (fun nrm => (Rabs (nrm - 1) <= tolerance + default_rtol)%R) l.
Proof.
  unfold allclose. rewrite forallb_forall, Forall_forall.
  assert (E : forall x, isclose x 1 default_rtol tolerance = true
                        <-> (Rabs (x - 1) <= tolerance + default_rtol)%R).
  { intros x. unfold isclose. rewrite Rleb_true_iff, Rabs_R1, Rmult_1_r. tauto. }
  split; intros H x Hx; apply E; auto.
Qed.

Lemma list_eqb_eq (l1 l2 : list nat) : list_eqb l1 l2 = true <-> l1 = l2.
Proof.
  revert l2. induction l1 as [|x l1 IH]; destruct l2 as [|y l2]; simpl;
    try (split; [discriminate | discriminate]); try tauto.
  rewrite andb_true_iff, Nat.eqb_eq, IH. split.
  - intros [-> ->]. reflexivity.
  - intros H. inversion H. auto.
Qed.

Lemma shape_in_spec (st : tensor) (dim : nat) :
  dim <> 0 ->
  shape_in (t_shape st) dim (_get_batch_size st [dim] dim) = true
  <-> (t_shape st = [dim] \/ exists b, t_shape st = [b; dim]).
Proof.
  intros Hdim. unfold shape_in. rewrite orb_true_iff, list_eqb_eq. split.
  - intros [H|H]; [left; exact H|].
    destruct (_get_batch_size st [dim] dim) as [b|]; [|discriminate].
    right. exists b. apply list_eqb_eq. exact H.
  - intros [H|[b H]]; [left; exact H|]. right.
    unfold _get_batch_size, _ndim, _size. rewrite H. simpl.
    rewrite Nat.mul_1_r, Nat.div_mul by exact Hdim.
    rewrite !Nat.eqb_refl. reflexivity.
Qed.

Lemma pow2_nonzero (k : nat) : 2 ^ k <> 0.
Proof. apply Nat.pow_nonzero. discriminate. Qed.

Lemma state_vector_accept (dev : device) (p : param) (ws : list wire)
    (use_async : bool) (dw : list nat) :
  indices (wires dev) ws = Some dw ->
  t_abstract (_asarray p) = false ->
  shape_in (t_shape (_asarray p)) (2 ^ length dw)
    (_get_batch_size (_asarray p) [2 ^ length dw] (2 ^ length dw)) = true ->
  allclose (linalg_norm (_asarray p)) 1%R tolerance = true ->
  exists dev', _apply_state_vector_GPU p ws use_async dev = (Val tt, dev').
Proof.
  intros Hw Habs Hshape Hnorm.
  unfold _apply_state_vector_GPU, map_wires, wires_indices, bind at 1.
  rewrite Hw. unfold bind at 1, gets at 1.
  rewrite Hshape, Habs, Hnorm. simpl negb. cbv iota.
  unfold bind at 1, ret at 1. unfold bind at 1, ret at 1.
  destruct (Nat.eqb (length dw) (num_wires dev) && list_eqb (sorted dw) dw).
  - eexists. reflexivity.
  - eexists. reflexivity.
Qed.

Lemma state_vector_reject (dev : device) (p : param) (ws : list wire)
    (use_async : bool) (dw : list nat) :
  indices (wires dev) ws = Some dw ->
  t_abstract (_asarray p) = false ->
  shape_in (t_shape (_asarray p)) (2 ^ length dw)
    (_get_batch_size (_asarray p) [2 ^ length dw] (2 ^ length dw)) = false
  \/ allclose (linalg_norm (_asarray p)) 1%R tolerance = false ->
  exists msg, _apply_state_vector_GPU p ws use_async dev = (Exc (ValueError msg), dev).
Proof.
  intros Hw Habs Hbad.
  unfold _apply_state_vector_GPU, map_wires, wires_indices, bind at 1.
  rewrite Hw. unfold bind at 1, gets at 1.
  destruct (shape_in _ _ _) eqn:Hshape.
  - destruct Hbad as [Hbad|Hbad]; [discriminate Hbad|].
    rewrite Habs, Hbad. simpl negb. cbv iota.
    unfold bind at 1, ret at 1. unfold bind at 1, raise at 1.
    eexists. reflexivity.
  - simpl negb. cbv iota. unfold bind at 1, raise at 1. eexists. reflexivity.
Qed.

(** C5 (as amended).  A concrete state vector is accepted exactly when its
    shape is [(2**wires,)] or [(batch_size, 2**wires)] and every norm along the
    last axis is within [tolerance + rtol] of one, [rtol] being the default
    relative tolerance 1e-5 of [allclose], that is within 1.1e-5; a vector that
    is refused raises a [ValueError] and leaves the device as it was. *)
Theorem state_vector_validation (dev : device) (p : param) (ws : list wire)
    (use_async : bool) (dw : list nat) :
  indices (wires dev) ws = Some dw ->
  t_abstract (_asarray p) = false ->
  let st := _asarray p in
  let dim := 2 ^ length dw in
  let accepted :=
    (t_shape st = [dim] \/ exists b, t_shape st = [b; dim])
    /\ Forall (fun nrm => (Rabs (nrm - 1) <= 11 / 1000000)%R) (linalg_norm st) in
  (accepted -> exists dev', _apply_state_vector_GPU p ws use_async dev = (Val tt, dev'))
  /\ (~ accepted ->
      exists msg, _apply_state_vector_GPU p ws use_async dev = (Exc (ValueError msg), dev)).
Proof.
  intros Hw Habs st dim accepted.
  assert (Htol : (tolerance + default_rtol = 11 / 1000000)%R)
    by (unfold tolerance, default_rtol; lra).
  assert (Hacc : accepted <->
            shape_in (t_shape st) dim (_get_batch_size st [dim] dim) = true
            /\ allclose (linalg_norm st) 1%R tolerance = true).
  { unfold accepted. rewrite shape_in_spec by apply pow2_nonzero.
    rewrite allclose_one_spec, Htol. tauto. }
  split.
  - intros Ha. apply Hacc in Ha. destruct Ha as [Hs Hn].
    eapply state_vector_accept; eauto.
  - intros Hna.
    assert (Hbad : shape_in (t_shape st) dim (_get_batch_size st [dim] dim) = false
                   \/ allclose (linalg_norm st) 1%R tolerance = false).
    { destruct (shape_in (t_shape st) dim (_get_batch_size st [dim] dim));
        [|left; reflexivity].
      destruct (allclose (linalg_norm st) 1%R tolerance); [|right; reflexivity].
      exfalso. apply Hna, Hacc. split; reflexivity. }
    eapply state_vector_reject; eauto.
Qed.

Lemma loose_state_norm : linalg_norm loose_state = [loose_norm].
Proof.
  unfold linalg_norm, last_axis_rows, loose_state, sum_R, Cnorm2, Czero. simpl.
  f_equal.
  replace (loose_norm * loose_norm + 0 * 0 + (0 * 0 + 0 * 0 + 0))%R
    with (loose_norm * loose_norm)%R by ring.
  apply sqrt_square. unfold loose_norm. lra.
Qed.

Lemma loose_norm_close : (Rabs (loose_norm - 1) <= 11 / 1000000)%R.
Proof. unfold loose_norm. rewrite Rabs_pos_eq; lra. Qed.

Lemma state_vector_validation_witness :
  exists dev',
    _apply_state_vector_GPU (Array loose_state) [0] false (new_device 1 None true)
    = (Val tt, dev').
Proof.
  apply (state_vector_validation (new_device 1 None true) (Array loose_state) [0] false [0]
           eq_refl eq_refl).
  split.
  - left. reflexivity.
  - cbn [_asarray]. rewrite loose_state_norm.
    constructor; [apply loose_norm_close | constructor].
Defined.

(** C5, as stated, fails: a one-qubit vector of norm 1.000005 is accepted and
    written to the device although it is further than 1e-6 from norm one. *)
Lemma state_vector_validation_counterexample :
  exists dev',
    _apply_state_vector_GPU (Array loose_state) [0] false (new_device 1 None true)
    = (Val tt, dev')
    /\ _gpu_state dev' <> _gpu_state (new_device 1 None true)
    /\ linalg_norm loose_state = [loose_norm]
    /\ ~ (Rabs (loose_norm - 1) <= tolerance)%R.
Proof.
  assert (Hclose : allclose (linalg_norm (_asarray (Array loose_state))) 1%R tolerance = true).
  { apply allclose_one_spec. simpl _asarray. rewrite loose_state_norm.
    constructor; [|constructor].
    unfold tolerance, default_rtol, loose_norm. rewrite Rabs_pos_eq; lra. }
  unfold _apply_state_vector_GPU, map_wires, wires_indices, bind at 1. simpl indices.
  unfold bind at 1, gets at 1. simpl shape_in. simpl t_abstract.
  rewrite Hclose. simpl.
  eexists. split; [reflexivity|]. split; [simpl; discriminate|]. split.
  - apply loose_state_norm.
  - unfold tolerance, loose_norm. rewrite Rabs_pos_eq; lra.
Qed.

(** ** Sampling rotates the device buffer *)

Lemma set_gpu_state_same (d : device) : set_gpu_state (_gpu_state d) d = d.
Proof. destruct d. reflexivity. Qed.

Lemma apply_cq_effect (K : collaborators) (ops : list operation) (d d' : device) :
  apply_cq K ops d = (Val tt, d') ->
  exists calls,
    d' = set_gpu_state (rev calls ++ _gpu_state d) d
    /\ Forall2 (fun o c => exists ws, indices (wires d) (op_wires o) = Some ws
                                     /\ c = gate_call K ws o)
               (filter replayed ops) calls.
Proof.
  revert d. induction ops as [|o ops IH]; intros d H.
  - inversion H. exists []. simpl. rewrite set_gpu_state_same. auto.
  - unfold apply_cq in H. simpl in H. apply bind_inv_val in H.
    destruct H as ([] & d1 & Ho & Hrest).
    unfold apply_cq_one in Ho. unfold replayed at 1. simpl filter.
    destruct (String.eqb (op_base_name o) "Identity") eqn:Eid.
    + inversion Ho; subst d1. simpl. apply IH. exact Hrest.
    + simpl. apply bind_inv_val in Ho. destruct Ho as (ws & d2 & Hws & Ho).
      unfold wires_indices in Hws.
      destruct (indices (wires d) (op_wires o)) as [ws0|] eqn:Ew; [|discriminate Hws].
      inversion Hws; subst ws0 d2. clear Hws.
      assert (Hd1 : d1 = set_gpu_state (gate_call K ws o :: _gpu_state d) d).
      { unfold gate_call. destruct (has_kernel K (split_dot_head (op_name o))).
        - simpl in Ho. inversion Ho. reflexivity.
        - simpl in Ho. unfold bind, qml_matrix in Ho.
          destruct (op_matrix o) as [m|]; [|discriminate Ho].
          unfold ret at 1 in Ho.
          destruct (Nat.eqb (length m) 0); [discriminate Ho|].
          inversion Ho. reflexivity. }
      apply IH in Hrest. destruct Hrest as (calls & Hd' & Hall).
      exists (gate_call K ws o :: calls). split.
      * rewrite Hd', Hd1. simpl. rewrite <- app_assoc. reflexivity.
      * constructor; [exists ws; auto|]. rewrite Hd1 in Hall. exact Hall.
Qed.

(** C10 (as amended).  For an observable whose name is not PauliZ, [sample]
    replays the diagonalizing gates on the device buffer, refills the sample
    cache from the rotated buffer and then delegates; nothing restores the
    buffer.  The buffer handed on is the one before the call with one kernel
    call per non-Identity diagonalizing gate on top, so it is the buffer
    before the call when the observable has no such gate. *)
Theorem sample_rotates_in_place (K : collaborators) (ob : observable)
    (opts : sample_opts) (dev : device) :
  pyname_eqb_str (ob_name ob) "PauliZ" = false ->
  (forall e d1, apply_cq K (ob_diagonalizing_gates ob) dev = (Exc e, d1) ->
     sample K ob opts dev = (Exc e, d1))
  /\ (forall d1, apply_cq K (ob_diagonalizing_gates ob) dev = (Val tt, d1) ->
        (exists calls,
            Forall2 (fun o c => exists ws, indices (wires dev) (op_wires o) = Some ws
                                           /\ c = gate_call K ws o)
                    (filter replayed (ob_diagonalizing_gates ob)) calls
            /\ d1 = set_gpu_state (rev calls ++ _gpu_state dev) dev)
        /\ (filter replayed (ob_diagonalizing_gates ob) = [] -> d1 = dev)
        /\ sample K ob opts dev
           = super_sample K ob opts
               (set_samples
                  (Some (GenerateSamples K (length (wires d1)) (shots d1) (_gpu_state d1)))
                  d1)).
Proof.
  intros Hname. split.
  - intros e d1 H. unfold sample. rewrite Hname. simpl negb. cbv iota.
    apply bind_exc. apply bind_exc. exact H.
  - intros d1 H. destruct (apply_cq_effect K _ _ _ H) as (calls & Hd1 & Hall).
    split; [exists calls; auto|]. split.
    + intros Hnone. rewrite Hnone in Hall. inversion Hall; subst calls.
      rewrite Hd1. apply set_gpu_state_same.
    + unfold sample. rewrite Hname. simpl negb. cbv iota.
      unfold bind at 1. unfold bind at 1. rewrite H. reflexivity.
Qed.

Lemma sample_rotates_in_place_witness :
  let dev := new_device 1 (Some 10) true in
  let rotated := [named_gate "Hadamard" [0] false []; setBasisState 0 false] in
  sample ref_K pauli_x no_opts dev
  = super_sample ref_K pauli_x no_opts
      (set_samples (Some (GenerateSamples ref_K 1 (Some 10) rotated))
         (set_gpu_state rotated dev))
  /\ _gpu_state (snd (sample ref_K pauli_x no_opts dev)) = rotated
  /\ _gpu_state dev <> rotated.
Proof.
  intros dev rotated.
  destruct (sample_rotates_in_place ref_K pauli_x no_opts dev eq_refl) as (_ & H).
  destruct (H (set_gpu_state rotated dev) eq_refl) as (_ & _ & H').
  split; [exact H'|]. split; [rewrite H'; reflexivity|].
  intros E. discriminate E.
Defined.

(** C10, as stated, fails: the Identity observable and the tensor product of
    two Pauli Z are not named PauliZ, yet sampling them replays no gate and the
    device buffer after the call is the buffer before it. *)
Lemma sample_rotates_in_place_counterexample :
  (pyname_eqb_str (ob_name identity_observable) "PauliZ" = false
   /\ ob_diagonalizing_gates identity_observable = []
   /\ exists r dev',
        sample ref_K identity_observable no_opts (new_device 1 (Some 10) true) = (r, dev')
        /\ _gpu_state dev' = _gpu_state (new_device 1 (Some 10) true))
  /\ (pyname_eqb_str (ob_name zz_observable) "PauliZ" = false
      /\ ob_diagonalizing_gates zz_observable = []
      /\ exists r dev',
           sample ref_K zz_observable no_opts (new_device 2 (Some 10) true) = (r, dev')
           /\ _gpu_state dev' = _gpu_state (new_device 2 (Some 10) true)).
Proof.
  split; (split; [reflexivity|]; split; [reflexivity|];
          eexists; eexists; split; reflexivity).
Qed.

(** ** Expectation of a Hamiltonian *)

Lemma compress_chars_run (names : list string) (d : device) :
  (exists cs, compress_chars names d = (Val cs, d) /\ length cs = length names)
  \/ (exists n, In n names /\ _name_map n = None
                /\ compress_chars names d = (Exc (KeyError n), d)).
Proof.
  induction names as [|n names IH]; simpl.
  - left. exists []. auto.
  - unfold name_map_lookup. destruct (_name_map n) as [c|] eqn:En.
    + destruct IH as [(cs & Hcs & Hlen) | (k & Hin & Hk & Hexc)].
      * left. exists (c :: cs). split.
        -- unfold bind at 1, ret at 1. unfold bind at 1. rewrite Hcs. reflexivity.
        -- simpl. congruence.
      * right. exists k. split; [right; exact Hin|]. split; [exact Hk|].
        unfold bind at 1, ret at 1. unfold bind at 1. rewrite Hexc. reflexivity.
    + right. exists n. split; [left; reflexivity|]. split; [exact En|]. reflexivity.
Qed.

Lemma compress_words_run (ws : list word) (d : device) :
  (exists pw, compress_words ws d = (Val pw, d)
              /\ length (fst pw) = length ws /\ snd pw = map w_wires ws)
  \/ (exists w n, In w ws /\ In n (word_names w) /\ _name_map n = None
                  /\ compress_words ws d = (Exc (KeyError n), d)).
Proof.
  induction ws as [|w ws IH]; simpl.
  - left. exists ([], []). auto.
  - assert (Hw : (exists s, compress_word w d = (Val s, d))
                 \/ (exists n, In n (word_names w) /\ _name_map n = None
                               /\ compress_word w d = (Exc (KeyError n), d))).
    { unfold compress_word, word_names.
      destruct (compress_chars_run
                  match w_name w with Names l => l | Name s => [s] end d)
        as [(cs & Hcs & _) | (n & Hin & Hn & Hexc)].
      - left. eexists. unfold bind.
        destruct (w_name w); rewrite Hcs; reflexivity.
      - right. exists n. split; [exact Hin|]. split; [exact Hn|].
        unfold bind. destruct (w_name w); rewrite Hexc; reflexivity. }
    destruct Hw as [(s & Hs) | (n & Hin & Hn & Hexc)].
    + destruct IH as [(pw & Hpw & Hlen & Hwires) | (w' & n & Hw' & Hin & Hn & Hexc)].
      * left. exists (s :: fst pw, w_wires w :: snd pw). split.
        -- unfold bind at 1. rewrite Hs. unfold bind at 1. rewrite Hpw. reflexivity.
        -- simpl. split; congruence.
      * right. exists w', n. split; [right; exact Hw'|]. split; [exact Hin|].
        split; [exact Hn|].
        unfold bind at 1. rewrite Hs. unfold bind at 1. rewrite Hexc. reflexivity.
    + right. exists w, n. split; [left; reflexivity|]. split; [exact Hin|].
      split; [exact Hn|]. unfold bind at 1. rewrite Hexc. reflexivity.
Qed.

(** The two paths of an analytic expectation of a Hamiltonian. *)
Lemma expval_hamiltonian_run (K : collaborators) (ob : observable)
    (opts : sample_opts) (dev : device) (dw : list nat) :
  shots dev = None ->
  ob_name ob = Name "Hamiltonian" ->
  indices (wires dev) (ob_wires ob) = Some dw ->
  (13 < length dw ->
     (exists pw,
         length (fst pw) = length (ob_ops ob)
         /\ snd pw = map w_wires (ob_ops ob)
         /\ compress_words (ob_ops ob) dev = (Val pw, dev)
         /\ expval K ob opts dev
            = (Val (ExpectationValue_words K (fst pw) (snd pw) (ob_coeffs ob)
                      (_gpu_state dev)), dev))
     \/ (exists w n, In w (ob_ops ob) /\ In n (word_names w) /\ _name_map n = None
                     /\ expval K ob opts dev = (Exc (KeyError n), dev)))
  /\ (length dw <= 13 ->
        expval K ob opts dev
        = (Val (ExpectationValue_dense K dw (ravel (ob_matrix ob)) (_gpu_state dev)), dev)).
Proof.
  intros Hshots Hname Hw.
  assert (Hrun : expval K ob opts dev
                 = (if Nat.ltb 13 (length dw)
                    then bind (compress_words (ob_ops ob))
                           (fun pw => ret (ExpectationValue_words K (fst pw) (snd pw)
                                             (ob_coeffs ob) (_gpu_state dev)))
                    else ret (ExpectationValue_dense K dw (ravel (ob_matrix ob))
                                (_gpu_state dev))) dev).
  { unfold expval. rewrite Hname. cbn [pyname_eqb_str].
    replace ("Hamiltonian" =? "Projector")%string with false by reflexivity.
    replace ("Hamiltonian" =? "Hermitian")%string with false by reflexivity.
    replace ("Hamiltonian" =? "SparseHamiltonian")%string with false by reflexivity.
    replace ("Hamiltonian" =? "Hamiltonian")%string with true by reflexivity.
    cbn [orb]. unfold bind at 1, gets at 1. rewrite Hshots.
    unfold bind at 1, gets at 1.
    unfold bind at 1, map_wires, wires_indices. rewrite Hw. reflexivity. }
  split.
  - intros Hgt. apply Nat.ltb_lt in Hgt. rewrite Hgt in Hrun.
    destruct (compress_words_run (ob_ops ob) dev)
      as [(pw & Hpw & Hlen & Hwires) | (w & n & Hin & Hn & Hnone & Hexc)].
    + left. exists pw. repeat split; auto.
      rewrite Hrun. unfold bind. rewrite Hpw. reflexivity.
    + right. exists w, n. repeat split; auto.
      rewrite Hrun. unfold bind. rewrite Hexc. reflexivity.
  - intros Hle. apply Nat.ltb_ge in Hle. rewrite Hle in Hrun. exact Hrun.
Qed.

(** An analytic expectation of a Hamiltonian dispatches on the number of
    device wires alone.  Above 13 wires, a Hamiltonian whose terms are named
    by PauliX, PauliY, PauliZ and Identity is compressed into Pauli-word
    strings, one per term, and the word kernel receives the strings, the
    wires of each word and the coefficients; at 13 wires or fewer the dense
    kernel receives the device wires and the flattened matrix.  The device
    is left as it was. *)
Lemma expval_hamiltonian_pauli_words (K : collaborators) (ob : observable)
    (opts : sample_opts) (dev : device) (dw : list nat) :
  shots dev = None ->
  ob_name ob = Name "Hamiltonian" ->
  indices (wires dev) (ob_wires ob) = Some dw ->
  (13 < length dw ->
   Forall pauli_word (ob_ops ob) ->
   exists pw,
     length (fst pw) = length (ob_ops ob)
     /\ snd pw = map w_wires (ob_ops ob)
     /\ compress_words (ob_ops ob) dev = (Val pw, dev)
     /\ expval K ob opts dev
        = (Val (ExpectationValue_words K (fst pw) (snd pw) (ob_coeffs ob)
                  (_gpu_state dev)), dev))
  /\ (length dw <= 13 ->
        expval K ob opts dev
        = (Val (ExpectationValue_dense K dw (ravel (ob_matrix ob)) (_gpu_state dev)), dev)).
Proof.
  intros Hshots Hname Hw.
  destruct (expval_hamiltonian_run K ob opts dev dw Hshots Hname Hw) as [Hwords Hdense].
  split; [|exact Hdense].
  intros Hgt Hpauli. destruct (Hwords Hgt) as [H | (w & n & Hin & Hn & Hnone & _)].
  - exact H.
  - exfalso. rewrite Forall_forall in Hpauli. specialize (Hpauli w Hin).
    unfold pauli_word in Hpauli. rewrite Forall_forall in Hpauli.
    exact (Hpauli n Hn Hnone).
Qed.

Lemma z_chain_pauli (n : nat) : Forall pauli_word (ob_ops (z_chain n)).
Proof.
  unfold z_chain. cbn [ob_ops]. apply Forall_forall. intros w Hw.
  apply in_map_iff in Hw. destruct Hw as (i & <- & _).
  unfold pauli_word, word_names. cbn. constructor; [discriminate | constructor].
Qed.

Example expval_hamiltonian_z_chain :
  (exists pw,
      expval ref_K (z_chain 14) no_opts (new_device 14 None true)
      = (Val (ExpectationValue_words ref_K (fst pw) (snd pw) (ob_coeffs (z_chain 14))
                (_gpu_state (new_device 14 None true))), new_device 14 None true))
  /\ expval ref_K (z_chain 13) no_opts (new_device 14 None true)
     = (Val (ExpectationValue_dense ref_K (seq 0 13) (ravel (ob_matrix (z_chain 13)))
               (_gpu_state (new_device 14 None true))), new_device 14 None true).
Proof.
  split.
  - destruct (expval_hamiltonian_pauli_words ref_K (z_chain 14) no_opts
                (new_device 14 None true) (seq 0 14) eq_refl eq_refl eq_refl) as (H & _).
    destruct H as (pw & _ & _ & _ & H).
    + simpl. lia.
    + apply z_chain_pauli.
    + exists pw. exact H.
  - destruct (expval_hamiltonian_pauli_words ref_K (z_chain 13) no_opts
                (new_device 14 None true) (seq 0 13) eq_refl eq_refl eq_refl) as (_ & H).
    apply H. simpl. lia.
Qed.

(** C4.  The term-wise path misses Hamiltonians that the dense path
    evaluates.  [Hadamard] is an observable of the device, and a Hamiltonian
    may hold it as a term.  On 14 wires such a Hamiltonian is not evaluated
    term by term: the lookup of the name of its term in [_name_map], which
    has the four Pauli names only, raises [KeyError], whatever the kernels
    are.  On 2 wires of the same device a Hamiltonian with the same term is
    evaluated by the dense kernel on its matrix. *)
Theorem expval_hamiltonian_hadamard_term (K : collaborators) (opts : sample_opts)
    (m : matrix) :
  shots (new_device 14 None true) = None
  /\ ob_name hadamard_chain = Name "Hamiltonian"
  /\ indices (wires (new_device 14 None true)) (ob_wires hadamard_chain)
     = Some (seq 0 14)
  /\ expval K hadamard_chain opts (new_device 14 None true)
     = (Exc (KeyError "Hadamard"), new_device 14 None true)
  /\ expval K (hadamard_pair m) opts (new_device 14 None true)
     = (Val (ExpectationValue_dense K [0; 1] (ravel m) [setBasisState 0 false]),
        new_device 14 None true).
Proof. repeat split; reflexivity. Qed.

(** ** Variance *)

Lemma nth_map_seq {A} (f : nat -> A) (n i : nat) (d : A) :
  i < n -> nth i (map f (seq 0 n)) d = f i.
Proof.
  intros H. rewrite (nth_indep _ d (f 0)) by (rewrite length_map, length_seq; exact H).
  rewrite map_nth, seq_nth by exact H. reflexivity.
Qed.

Lemma map_as_nth_seq {A B} (f : A -> B) (l : list A) (d : A) :
  map f l = map (fun i => f (nth i l d)) (seq 0 (length l)).
Proof.
  induction l as [|x l IH]; [reflexivity|].
  cbn [length]. rewrite <- cons_seq, <- seq_shift. cbn [map nth]. f_equal.
  rewrite map_map. exact IH.
Qed.

Lemma nth_map_default {A B} (f : A -> B) (l : list A) (i : nat) (d : A) (e : B) :
  i < length l -> nth i (map f l) e = f (nth i l d).
Proof.
  intros H. rewrite (nth_indep _ e (f d)) by (rewrite length_map; exact H).
  apply map_nth.
Qed.

Lemma transpose_cols_seq (c : nat) (m : matrix) :
  transpose_cols c m = map (fun k => map (fun row => nth k row Czero) m) (seq 0 c).
Proof.
  induction c as [|c IH]; [reflexivity|].
  cbn [transpose_cols]. rewrite IH, seq_S, map_app. reflexivity.
Qed.

Lemma Cdot_sum (n : nat) (u v : list C) :
  length u = n -> length v = n ->
  Cdot u v = Csum (map (fun k => Cmul (nth k u Czero) (nth k v Czero)) (seq 0 n)).
Proof.
  revert u v. induction n as [|n IH]; intros [|x u] [|y v] Hu Hv; try discriminate.
  - reflexivity.
  - rewrite <- cons_seq, <- seq_shift. cbn [map]. rewrite map_map.
    unfold Cdot, Csum in *. cbn [combine map fold_right fst snd nth].
    f_equal. apply IH; [injection Hu | injection Hv]; auto.
Qed.

Lemma square_row (n : nat) (m : matrix) (i : nat) :
  square n m -> i < n -> length (nth i m []) = n.
Proof.
  intros [Hl Hr] Hi. rewrite Forall_forall in Hr. apply Hr. apply nth_In. lia.
Qed.

Lemma square_head (n : nat) (m : matrix) : square n m -> length (hd [] m) = n.
Proof.
  intros [Hl Hr]. destruct m as [|r m]; [exact Hl|]. exact (Forall_inv Hr).
Qed.

Lemma square_tabulate (n : nat) (f : nat -> nat -> C) : square n (tabulate n f).
Proof.
  unfold square, tabulate. rewrite length_map, length_seq. split; [reflexivity|].
  apply Forall_forall. intros r Hr. apply in_map_iff in Hr. destruct Hr as (i & <- & _).
  rewrite length_map, length_seq. reflexivity.
Qed.

Lemma mat_entry_tabulate (n : nat) (f : nat -> nat -> C) (i j : nat) :
  i < n -> j < n -> mat_entry (tabulate n f) i j = f i j.
Proof.
  intros Hi Hj. unfold mat_entry, tabulate.
  rewrite (nth_map_seq _ n i [] Hi). apply nth_map_seq. exact Hj.
Qed.

Lemma tabulate_ext (n : nat) (f g : nat -> nat -> C) :
  (forall i j, i < n -> j < n -> f i j = g i j) -> tabulate n f = tabulate n g.
Proof.
  intros H. unfold tabulate. apply map_ext_in. intros i Hi. apply in_seq in Hi.
  apply map_ext_in. intros j Hj. apply in_seq in Hj. apply H; lia.
Qed.

(** [np.matmul] of two square matrices, by its entries. *)
Lemma matmul_entries (n : nat) (a b : matrix) :
  square n a -> square n b ->
  matmul a b
  = tabulate n (fun i j =>
      Csum (map (fun k => Cmul (mat_entry a i k) (mat_entry b k j)) (seq 0 n))).
Proof.
  intros Ha Hb. unfold matmul, T, tabulate.
  rewrite (square_head n b Hb), transpose_cols_seq.
  rewrite (map_as_nth_seq _ a []). destruct Ha as [Hla Hra]. rewrite Hla.
  apply map_ext_in. intros i Hi. apply in_seq in Hi.
  rewrite map_map. apply map_ext_in. intros j Hj. apply in_seq in Hj.
  rewrite (Cdot_sum n).
  - f_equal. apply map_ext_in. intros k Hk. apply in_seq in Hk.
    unfold mat_entry. f_equal.
    apply (nth_map_default (fun row => nth j row Czero) b k []).
    destruct Hb as [Hlb _]. lia.
  - apply (square_row n a i); [split; assumption | lia].
  - rewrite length_map. exact (proj1 Hb).
Qed.

(** [math.T(math.conj(m))] of a square matrix, by its entries. *)
Lemma adjoint_entries (n : nat) (m : matrix) :
  square n m -> T (conj m) = tabulate n (fun i k => Cconj (mat_entry m k i)).
Proof.
  intros Hm. unfold T, tabulate.
  assert (Hh : length (hd [] (conj m)) = n).
  { pose proof (square_head n m Hm) as H. destruct m as [|r m]; [exact H|].
    simpl in *. rewrite length_map. exact H. }
  rewrite Hh, transpose_cols_seq.
  apply map_ext_in. intros i Hi. apply in_seq in Hi.
  unfold conj. rewrite map_map, (map_as_nth_seq _ m []), (proj1 Hm).
  apply map_ext_in. intros k Hk. apply in_seq in Hk.
  unfold mat_entry. apply nth_map_default.
  rewrite (square_row n m k Hm); lia.
Qed.

(** The matrix whose expectation [var] takes for the squared mean. *)
Lemma sqr_matrix_entries (n : nat) (m : matrix) :
  square n m -> matmul (T (conj m)) m = adjoint_square n m.
Proof.
  intros Hm. rewrite (matmul_entries n).
  - unfold adjoint_square. apply tabulate_ext. intros i j Hi Hj.
    f_equal. apply map_ext_in. intros k Hk. apply in_seq in Hk. f_equal.
    rewrite (adjoint_entries n m Hm). apply mat_entry_tabulate; lia.
  - rewrite (adjoint_entries n m Hm). apply square_tabulate.
  - exact Hm.
Qed.

Lemma adjoint_square_hermitian (n : nat) (m : matrix) :
  hermitian n m -> adjoint_square n m = matrix_square n m.
Proof.
  intros Hh. unfold adjoint_square, matrix_square. apply tabulate_ext.
  intros i j Hi Hj. f_equal. apply map_ext_in. intros k Hk. apply in_seq in Hk.
  f_equal. symmetry. apply Hh; lia.
Qed.

(** C8.  An analytic variance is [squared_mean - mean ** 2], and the device is
    left as it was.  [mean] is the kernel expectation of the matrix of the
    observable, an [n] by [n] matrix; [squared_mean] is the kernel
    expectation, on the same wires and buffer, of the conjugate transpose of
    the matrix times the matrix, whose entry in row [i] and column [j] is the
    sum over [k] of [conj(m[k][i]) * m[k][j]].  For a Hermitian matrix, as
    that of an observable, this is the matrix composed with itself, of entries
    the sums over [k] of [m[i][k] * m[k][j]]. *)
Theorem var_is_squared_mean_minus_mean_squared (K : collaborators) (ob : observable)
    (opts : sample_opts) (dev : device) (ws : list nat) (n : nat) :
  shots dev = None ->
  indices (wires dev) (ob_wires ob) = Some ws ->
  square n (ob_matrix ob) ->
  let m := ob_matrix ob in
  let mean := ExpectationValue_named K (with_suffix (ob_name ob) "_var") ws
                (ob_parameters ob) (ravel m) (_gpu_state dev) in
  let squared_mean (sqr : matrix) :=
    ExpectationValue_named K (with_suffix (ob_name ob) "_sqr") ws
      (ob_parameters ob) (ravel sqr) (_gpu_state dev) in
  var K ob opts dev = (Val (squared_mean (adjoint_square n m) - mean ^ 2)%R, dev)
  /\ (hermitian n m ->
      var K ob opts dev = (Val (squared_mean (matrix_square n m) - mean ^ 2)%R, dev)).
Proof.
  intros Hshots Hw Hsq m mean squared_mean.
  assert (H : var K ob opts dev
              = (Val (squared_mean (adjoint_square n m) - mean ^ 2)%R, dev)).
  { unfold var. unfold bind at 1, gets at 1. rewrite Hshots.
    unfold bind at 1, wires_indices. rewrite Hw.
    unfold bind at 1, gets at 1.
    unfold bind at 1. rewrite Hw.
    rewrite (sqr_matrix_entries n (ob_matrix ob) Hsq). reflexivity. }
  split; [exact H|]. intros Hherm. rewrite H.
  rewrite (adjoint_square_hermitian n m Hherm). reflexivity.
Qed.

Lemma pauli_x_square : square 2 pauli_x_matrix.
Proof. split; [reflexivity|]. repeat constructor. Qed.

Lemma pauli_x_hermitian : hermitian 2 pauli_x_matrix.
Proof.
  intros [|[|i]] [|[|j]] Hi Hj; try lia;
    unfold mat_entry, pauli_x_matrix, Cconj, Czero, Cone; simpl; f_equal; lra.
Qed.

(** The variance of Pauli X in the basis state 0 is 1: the mean is the entry
    0 of the matrix, the squared mean the entry 1 of its square. *)
Lemma var_is_squared_mean_minus_mean_squared_witness :
  exists v,
    var ket0_K pauli_x_dense no_opts (new_device 1 None true)
    = (Val v, new_device 1 None true)
    /\ v = 1%R.
Proof.
  destruct (var_is_squared_mean_minus_mean_squared ket0_K pauli_x_dense no_opts
              (new_device 1 None true) [0] 2 eq_refl eq_refl pauli_x_square) as (_ & H).
  eexists. split; [exact (H pauli_x_hermitian)|].
  unfold matrix_square, tabulate, mat_entry, Csum, Cmul, Cadd, Czero, Cone.
  simpl. lra.
Defined.

(** ** Validation before differentiation *)

Lemma check_measurement_obs_run (m : measurement) (d : device) :
  if supported_obs m
  then check_measurement_obs m d = (Val tt, d)
  else exists msg, check_measurement_obs m d = (Exc (QuantumFunctionError msg), d).
Proof.
  unfold supported_obs, check_measurement_obs, projector_error, hermitian_error.
  destruct (m_obs m) as [ob|]; [|reflexivity].
  destruct (is_tensor (ob_class_of ob)); simpl.
  - destruct (existsb is_projector (ob_non_identity_obs ob)); simpl; [eexists; reflexivity|].
    destruct (existsb is_hermitian (ob_non_identity_obs ob)); simpl;
      [eexists; reflexivity | reflexivity].
  - destruct (is_projector (ob_class_of ob)); simpl; [eexists; reflexivity|].
    destruct (is_hermitian (ob_class_of ob)); simpl; [eexists; reflexivity | reflexivity].
Qed.

Lemma check_all_obs_run (ms : list measurement) (d : device) :
  if forallb supported_obs ms
  then for_each check_measurement_obs ms d = (Val tt, d)
  else exists msg, for_each check_measurement_obs ms d = (Exc (QuantumFunctionError msg), d).
Proof.
  induction ms as [|m ms IH]; simpl; [reflexivity|].
  pose proof (check_measurement_obs_run m d) as Hm.
  destruct (supported_obs m); simpl.
  - destruct (forallb supported_obs ms).
    + unfold bind at 1. rewrite Hm. exact IH.
    + destruct IH as [msg IH]. exists msg. unfold bind at 1. rewrite Hm. exact IH.
  - destruct Hm as [msg Hm]. exists msg. unfold bind. rewrite Hm. reflexivity.
Qed.

Lemma check_measurements_run (ms : list measurement) (d : device) :
  if supported_measurements ms
  then exists rt, _check_adjdiff_supported_measurements ms d = (Val rt, d)
  else exists msg,
         _check_adjdiff_supported_measurements ms d = (Exc (QuantumFunctionError msg), d).
Proof.
  unfold supported_measurements, _check_adjdiff_supported_measurements.
  destruct ms as [|m ms]; [simpl; eexists; reflexivity|].
  cbn [length Nat.eqb].
  destruct (Nat.eqb (length ms) 0 && is_state (m_return_type m)) eqn:E1.
  - apply andb_true_iff in E1. destruct E1 as [_ E1].
    cbn [forallb]. destruct (m_return_type m); try discriminate E1.
    simpl. eexists. reflexivity.
  - destruct (forallb (fun m0 => is_expectation (m_return_type m0)) (m :: ms)) eqn:E2.
    + cbn [negb andb].
      pose proof (check_all_obs_run (m :: ms) d) as Hobs.
      destruct (forallb supported_obs (m :: ms)).
      * eexists. unfold bind. rewrite Hobs. reflexivity.
      * destruct Hobs as [msg Hobs]. exists msg. unfold bind. rewrite Hobs. reflexivity.
    + cbn [negb andb]. eexists. reflexivity.
Qed.

Lemma check_operations_run (ops : list operation) (d : device) :
  _check_adjdiff_supported_operations ops d
  = match find unsupported_op ops with
    | Some o => (Exc (unsupported_op_error o), d)
    | None => (Val tt, d)
    end.
Proof.
  unfold _check_adjdiff_supported_operations.
  induction ops as [|o ops IH]; simpl; [reflexivity|].
  destruct (unsupported_op o); [reflexivity|].
  unfold bind at 1, ret at 1. exact IH.
Qed.

Lemma shots_warning_run (dev : device) :
  bind (gets shots)
       (fun sh => match sh with Some _ => warn shots_warning | None => ret tt end) dev
  = (Val tt, warned dev).
Proof.
  unfold bind, gets, warned, warn, log_event, modify, ret.
  destruct (shots dev); reflexivity.
Qed.

(** The first two steps of [adjoint_jacobian]. *)
Lemma adjoint_jacobian_prefix (K : collaborators) (bo : batch_policy) (t : tape)
    (ss : option tensor) (uds : bool) (dev : device) :
  adjoint_jacobian K bo t ss uds dev
  = bind (_check_adjdiff_supported_measurements (measurements t))
      (fun _ =>
         if Nat.eqb (length (trainable_params t)) 0 then ret (Array0d 0%R)
         else bind (_check_adjdiff_supported_operations (operations t))
                (fun _ => bind (adjoint_init_state K t ss uds)
                            (fun _ => adjoint_differentiate K bo t)))
      (warned dev).
Proof.
  unfold adjoint_jacobian. unfold bind at 1, gets at 1.
  unfold warned, warn, log_event, modify, bind at 1.
  destruct (shots dev); reflexivity.
Qed.

(** C7 (as amended).  With an empty set of trainable parameters, and
    measurements that pass the measurement check, [adjoint_jacobian] returns
    [np.array(0)] at once: apart from the finite-shots warning the device and
    the record of collaborator calls are as before, so nothing was serialized,
    no kernel ran.  Measurements that fail the check raise its
    [QuantumFunctionError] first. *)
Theorem adjoint_jacobian_no_trainable (K : collaborators) (bo : batch_policy)
    (t : tape) (ss : option tensor) (uds : bool) (dev : device) :
  trainable_params t = [] ->
  (supported_measurements (measurements t) = true ->
     adjoint_jacobian K bo t ss uds dev = (Val (Array0d 0%R), warned dev))
  /\ (supported_measurements (measurements t) = false ->
        exists msg,
          adjoint_jacobian K bo t ss uds dev
          = (Exc (QuantumFunctionError msg), warned dev)).
Proof.
  intros Htp. rewrite adjoint_jacobian_prefix, Htp.
  pose proof (check_measurements_run (measurements t) (warned dev)) as Hm.
  split; intros Hs; rewrite Hs in Hm.
  - destruct Hm as [rt Hm]. unfold bind. rewrite Hm. reflexivity.
  - destruct Hm as [msg Hm]. exists msg. unfold bind. rewrite Hm. reflexivity.
Qed.

Lemma adjoint_jacobian_no_trainable_witness :
  adjoint_jacobian ref_K (BatchBool false) crot_tape None false (new_device 2 (Some 100) true)
  = (Val (Array0d 0%R), warned (new_device 2 (Some 100) true)).
Proof.
  apply (adjoint_jacobian_no_trainable ref_K (BatchBool false) crot_tape None false
           (new_device 2 (Some 100) true) eq_refl).
  reflexivity.
Defined.

(** C7, as stated, fails: a tape without trainable parameters whose single
    measurement returns the state raises a [QuantumFunctionError] instead of
    returning the zero result. *)
Lemma adjoint_jacobian_no_trainable_counterexample :
  trainable_params state_tape = []
  /\ adjoint_jacobian ref_K (BatchBool false) state_tape None false (new_device 1 None true)
     = (Exc (QuantumFunctionError "Not supported"), new_device 1 None true).
Proof. split; reflexivity. Qed.

(** C6 (as amended).  When the tape has at least one trainable parameter and
    contains an operation with more than one parameter that is not a [Rot],
    [adjoint_jacobian] raises a [QuantumFunctionError] before anything is
    serialized and before any kernel runs: apart from the finite-shots warning
    the device and the record of collaborator calls are as before.  The check
    of the operations itself passes exactly when every operation with more
    than one parameter is a [Rot]. *)
Theorem adjoint_jacobian_unsupported_operation (K : collaborators) (bo : batch_policy)
    (t : tape) (ss : option tensor) (uds : bool) (dev : device) :
  trainable_params t <> [] ->
  existsb unsupported_op (operations t) = true ->
  (exists msg,
      adjoint_jacobian K bo t ss uds dev = (Exc (QuantumFunctionError msg), warned dev))
  /\ (forall ops d,
        _check_adjdiff_supported_operations ops d = (Val tt, d)
        <-> forallb (fun o => Nat.leb (op_num_params o) 1 || is_rot o) ops = true).
Proof.
  intros Htp Hops. split.
  - rewrite adjoint_jacobian_prefix.
    pose proof (check_measurements_run (measurements t) (warned dev)) as Hm.
    destruct (supported_measurements (measurements t)).
    + destruct Hm as [rt Hm]. unfold bind at 1. rewrite Hm.
      destruct (trainable_params t) as [|tp tps]; [contradiction|].
      cbn [length Nat.eqb].
      destruct (existsb_find_some _ _ Hops) as [o Ho].
      eexists. unfold bind. rewrite check_operations_run, Ho. reflexivity.
    + destruct Hm as [msg Hm]. exists msg. unfold bind. rewrite Hm. reflexivity.
  - intros ops d. rewrite check_operations_run.
    induction ops as [|o ops IH]; simpl; [tauto|].
    unfold unsupported_op at 1.
    destruct (Nat.leb (op_num_params o) 1) eqn:E.
    + apply Nat.leb_le in E. apply Nat.ltb_ge in E. rewrite E. simpl. exact IH.
    + apply Nat.leb_gt in E. apply Nat.ltb_lt in E. rewrite E. simpl.
      destruct (is_rot o); simpl; [exact IH|]. split; discriminate.
Qed.

Lemma adjoint_jacobian_unsupported_operation_witness :
  exists msg,
    adjoint_jacobian ref_K (BatchBool false) rx_crot_tape None false (new_device 2 None true)
    = (Exc (QuantumFunctionError msg), warned (new_device 2 None true)).
Proof.
  apply (adjoint_jacobian_unsupported_operation ref_K (BatchBool false) rx_crot_tape None
           false (new_device 2 None true)).
  - discriminate.
  - reflexivity.
Defined.

(** C6, as stated, fails: a tape with a three-parameter [CRot] and no trainable
    parameter raises nothing; the zero result is returned before the operations
    are checked. *)
Lemma adjoint_jacobian_unsupported_operation_counterexample :
  existsb unsupported_op (operations crot_tape) = true
  /\ adjoint_jacobian ref_K (BatchBool false) crot_tape None false (new_device 2 None true)
     = (Val (Array0d 0%R), new_device 2 None true).
Proof. split; reflexivity. Qed.

(** ** Assembly of the Jacobian *)

Lemma length_replace_nth {A} (i : nat) (x : A) (l : list A) :
  length (replace_nth i x l) = length l.
Proof.
  revert i. induction l as [|y l IH]; intros [|i]; simpl; auto.
Qed.

Lemma nth_replace_nth_eq {A} (i : nat) (x d : A) (l : list A) :
  i < length l -> nth i (replace_nth i x l) d = x.
Proof.
  revert i. induction l as [|y l IH]; intros [|i] H; simpl in *; try lia; auto.
  apply IH. lia.
Qed.

Lemma nth_replace_nth_neq {A} (i j : nat) (x d : A) (l : list A) :
  i <> j -> nth j (replace_nth i x l) d = nth j l d.
Proof.
  revert i j. induction l as [|y l IH]; intros [|i] [|j] H; simpl; auto; try lia.
Qed.

Lemma Forall_replace_nth {A} (P : A -> Prop) (i : nat) (x : A) (l : list A) :
  P x -> Forall P l -> Forall P (replace_nth i x l).
Proof.
  intros Hx. revert i. induction l as [|y l IH]; intros [|i] H; simpl; auto;
    inversion H; subst; constructor; auto.
Qed.

Lemma row_is_length (n : nat) (r src : list R) : row_is n r src -> length r = n.
Proof.
  intros [[H ->] | (x & _ & ->)]; [exact H | apply repeat_length].
Qed.

Lemma assign_row_inv (n : nat) (jr jr' : list (list R)) (idx : nat) (src : list R)
    (d d' : device) :
  assign_row n jr idx src d = (Val jr', d') ->
  d' = d /\ idx < length jr
  /\ exists r, row_is n r src /\ jr' = replace_nth idx r jr.
Proof.
  unfold assign_row. destruct (Nat.ltb idx (length jr)) eqn:E; simpl; [|discriminate].
  apply Nat.ltb_lt in E. destruct (Nat.eqb (length src) n) eqn:En.
  - intros H. inversion H. apply Nat.eqb_eq in En.
    repeat split; auto. exists src. split; [left; auto | reflexivity].
  - destruct src as [|x [|y src]]; try discriminate.
    intros H. inversion H. repeat split; auto.
    exists (repeat x n). split; [right; exists x; auto | reflexivity].
Qed.

Lemma assign_row_2d_inv (n : nat) (jr jr' : list (list R)) (idx : nat)
    (src : list (list R)) (d d' : device) :
  assign_row_2d n jr idx src d = (Val jr', d') ->
  d' = d /\ idx < length jr
  /\ exists row r, src = [row] /\ row_is n r row /\ jr' = replace_nth idx r jr.
Proof.
  unfold assign_row_2d. destruct src as [|row [|row2 src]].
  - destruct (negb (Nat.ltb idx (length jr))); discriminate.
  - intros H. apply assign_row_inv in H. destruct H as (Hd & Hi & r & Hr & Hjr).
    repeat split; auto. exists row, r. auto.
  - destruct (negb (Nat.ltb idx (length jr))); discriminate.
Qed.

Lemma reduce_loop_inv (jac : list (list R)) (m : nat) (offsets : list nat) (n : nat)
    (idxs : list nat) (jr jr' : list (list R)) (d d' : device) :
  reduce_loop jac m offsets n idxs jr d = (Val jr', d') ->
  NoDup idxs ->
  d' = d /\ length jr' = length jr
  /\ (Forall (fun r => length r = n) jr -> Forall (fun r => length r = n) jr')
  /\ (forall idx, In idx idxs ->
        idx < length jr /\ reduced_row n jac m offsets idx (nth idx jr' []))
  /\ (forall i, ~ In i idxs -> nth i jr' [] = nth i jr []).
Proof.
  revert jr d. induction idxs as [|idx rest IH]; intros jr d H Hnd.
  - inversion H; subst. split; [reflexivity|]. split; [reflexivity|].
    split; [auto|]. split; [intros idx []|auto].
  - simpl in H. apply bind_inv_val in H. destruct H as (jr1 & d1 & Hone & Hrest).
    inversion Hnd as [|? ? Hnotin Hnd']; subst.
    assert (Hstep : d1 = d /\ idx < length jr
                    /\ exists r, reduced_row n jac m offsets idx r
                                 /\ jr1 = replace_nth idx r jr).
    { unfold reduced_row.
      destruct (Z.ltb 1 (Z.of_nat (nth (idx + 1) offsets 0) - Z.of_nat (nth idx offsets 0))).
      - apply assign_row_inv in Hone. destruct Hone as (? & ? & r & ? & ?).
        split; [assumption|]. split; [assumption|]. exists r. auto.
      - apply assign_row_2d_inv in Hone. destruct Hone as (? & ? & row & r & ? & ? & ?).
        split; [assumption|]. split; [assumption|].
        exists r. split; [exists row; auto | auto]. }
    destruct Hstep as (-> & Hidx & r & Hr & ->).
    apply IH in Hrest; [|exact Hnd'].
    destruct Hrest as (-> & Hlen & Hshape & Hin & Hout).
    rewrite length_replace_nth in Hlen.
    split; [reflexivity|]. split; [exact Hlen|]. split; [|split].
    + intros Hall. apply Hshape. apply Forall_replace_nth; [|exact Hall].
      unfold reduced_row in Hr.
      destruct (Z.ltb 1 (Z.of_nat (nth (idx + 1) offsets 0) - Z.of_nat (nth idx offsets 0))).
      * eapply row_is_length; eauto.
      * destruct Hr as (row & _ & Hr). eapply row_is_length; eauto.
    + intros i [<- | Hi].
      * split; [exact Hidx|].
        rewrite (Hout idx Hnotin). rewrite nth_replace_nth_eq by exact Hidx. exact Hr.
      * destruct (Hin i Hi) as [Hlt Hrow]. rewrite length_replace_nth in Hlt.
        split; assumption.
    + intros i Hi. rewrite Hout by (intros Hc; apply Hi; right; exact Hc).
      apply nth_replace_nth_neq. intros ->. apply Hi. left. reflexivity.
Qed.

Lemma reshape_rows_inv (jac : list R) (m : nat) (rows : list (list R)) (d d' : device) :
  reshape_rows jac m d = (Val rows, d') ->
  d' = d /\ m <> 0 /\ rows = chunk_rows (length jac) m jac.
Proof.
  unfold reshape_rows. destruct (Nat.eqb m 0) eqn:E; [discriminate|].
  apply Nat.eqb_neq in E.
  destruct (negb (Nat.eqb (length jac mod m) 0)); [discriminate|].
  intros H. inversion H. auto.
Qed.

Lemma Forall_repeat {A} (P : A -> Prop) (x : A) (n : nat) : P x -> Forall P (repeat x n).
Proof. intros H. induction n; simpl; constructor; auto. Qed.

Lemma assemble_jacobian_inv (jac : list R) (m : nat) (offsets : list nat)
    (n_obs all_params n : nat) (rows : list (list R)) (d d' : device) :
  assemble_jacobian jac m offsets n_obs all_params d = (Val (Array2d n rows), d') ->
  d' = d /\ n = all_params /\ m <> 0 /\ length rows = n_obs
  /\ Forall (fun r => length r = n) rows
  /\ forall idx, idx < length offsets - 1 ->
       reduced_row n (chunk_rows (length jac) m jac) m offsets idx (nth idx rows []).
Proof.
  unfold assemble_jacobian. intros H.
  apply bind_inv_val in H. destruct H as (tr & d1 & Hresh & H).
  apply reshape_rows_inv in Hresh. destruct Hresh as (-> & Hm & ->).
  apply bind_inv_val in H. destruct H as (jr & d2 & Hred & H).
  inversion H; subst. clear H.
  apply reduce_loop_inv in Hred; [|apply seq_NoDup].
  destruct Hred as (-> & Hlen & Hshape & Hin & _).
  rewrite repeat_length in Hlen.
  split; [reflexivity|]. split; [reflexivity|]. split; [exact Hm|].
  split; [exact Hlen|]. split.
  - apply Hshape. apply Forall_repeat. apply repeat_length.
  - intros idx Hidx. apply Hin. apply in_seq. lia.
Qed.

(** ** The trainable positions handed to the kernels *)

Lemma skipn_cons_nth {A} (n : nat) (l : list A) (x : A) (r : list A) :
  skipn n l = x :: r -> nth_error l n = Some x /\ skipn (S n) l = r.
Proof.
  revert l. induction n as [|n IH]; intros [|y l] H; simpl in *; try discriminate.
  - inversion H. auto.
  - apply IH. exact H.
Qed.

Lemma trainable_loop_inv (t : tape) (tps : list nat) (op_idx : nat)
    (a a' : list Z) (b b' : list nat) (c c' : nat) (d d' : device) :
  skipn op_idx (trainable_params t) = tps ->
  trainable_loop t op_idx tps (a, b, c) d = (Val (a', b', c'), d') ->
  d' = d
  /\ a' = a ++ map Z.of_nat (filter (owner_differentiable t) tps)
  /\ c' = c + length tps.
Proof.
  revert op_idx a b c d. induction tps as [|tp rest IH]; intros op_idx a b c d Hskip H.
  - inversion H. rewrite app_nil_r. auto.
  - simpl in H. apply bind_inv_val in H. destruct H as (op & d1 & Hop & H).
    destruct (skipn_cons_nth _ _ _ _ Hskip) as [Hnth Hskip'].
    unfold get_operation in Hop. rewrite Hnth in Hop.
    assert (Hown : owner_differentiable t tp = differentiable_op op /\ d1 = d).
    { unfold owner_differentiable.
      destruct (nth_error (par_info t) tp); inversion Hop; auto. }
    destruct Hown as [Hown ->].
    simpl filter. rewrite Hown.
    destruct (differentiable_op op).
    + apply (IH _ _ _ _ _ Hskip') in H. destruct H as (-> & -> & ->).
      simpl. rewrite <- app_assoc. simpl. repeat split; auto; lia.
    + apply (IH _ _ _ _ _ Hskip') in H. destruct H as (-> & -> & ->).
      simpl. repeat split; auto; lia.
Qed.

Lemma stateless_trainable_loop (t : tape) (tps : list nat) (op_idx : nat)
    (acc : list Z * list nat * nat) :
  stateless (trainable_loop t op_idx tps acc).
Proof.
  revert op_idx acc. induction tps as [|tp rest IH]; intros op_idx acc; simpl.
  - apply stateless_ret.
  - apply stateless_bind.
    + unfold get_operation. destruct (nth_error (trainable_params t) op_idx);
        [|apply stateless_raise].
      destruct (nth_error (par_info t) n); auto with stateless.
    + intros op. destruct acc as [[a b] c]. apply IH.
Qed.

Lemma stateless_filter_trainable_params (t : tape) (sp : bool) :
  stateless (filter_trainable_params t sp).
Proof.
  unfold filter_trainable_params. apply stateless_bind.
  - apply stateless_trainable_loop.
  - intros [[a b] c]. apply stateless_ret.
Qed.

Lemma filter_trainable_params_inv (t : tape) (sp : bool) (tp : list Z)
    (rec : list nat) (all : nat) (d d' : device) :
  sorted (trainable_params t) = trainable_params t ->
  filter_trainable_params t sp d = (Val (tp, rec, all), d') ->
  all = length (trainable_params t)
  /\ tp = (if sp then map (fun i => (i - 1)%Z) else fun l => l)
            (map Z.of_nat (filter (owner_differentiable t) (trainable_params t))).
Proof.
  intros Hsorted H. unfold filter_trainable_params in H. rewrite Hsorted in H.
  apply bind_inv_val in H. destruct H as ([[a b] c] & d1 & Hloop & H).
  apply trainable_loop_inv in Hloop; [|reflexivity].
  destruct Hloop as (-> & -> & ->). inversion H. simpl. split; [reflexivity|].
  destruct sp; reflexivity.
Qed.

(** ** The kernel calls *)

Lemma set_trace_set_trace (t1 t2 : list event) (d : device) :
  set_trace t2 (set_trace t1 d) = set_trace t2 d.
Proof. reflexivity. Qed.

Lemma batched_loop_run (K : collaborators) (obs : list (ser_obs K)) (ops : ops_struct K)
    (tp : list Z) (bs : Z) (chunks : list Z) (acc : list R) (d : device) :
  exists evs,
    Forall (kernel_event_with tp) evs
    /\ batched_loop K obs ops tp bs chunks acc d
       = (Val (acc ++ flat_map
                        (fun chunk =>
                           adj_adjoint_jacobian_batched K (use_csingle d) (_gpu_state d)
                             (slice obs (Z.to_nat chunk) (Z.to_nat (chunk + bs))) ops tp)
                        chunks),
          set_trace (evs ++ trace d) d).
Proof.
  revert acc d. induction chunks as [|chunk rest IH]; intros acc d.
  - exists []. split; [constructor|]. simpl. rewrite app_nil_r.
    destruct d. reflexivity.
  - set (e := AdjointKernel true
                (length (slice obs (Z.to_nat chunk) (Z.to_nat (chunk + bs)))) tp).
    destruct (IH (acc ++ adj_adjoint_jacobian_batched K (use_csingle d) (_gpu_state d)
                          (slice obs (Z.to_nat chunk) (Z.to_nat (chunk + bs))) ops tp)
                 (set_trace (e :: trace d) d)) as (evs & Hevs & Hrun).
    exists (evs ++ [e]). split.
    + apply Forall_app. split; [exact Hevs|]. constructor; [|constructor].
      unfold kernel_event_with, e. eauto.
    + simpl batched_loop. unfold bind at 1, gets at 1. unfold bind at 1, gets at 1.
      unfold bind at 1, log_event at 1, modify at 1.
      fold e. rewrite Hrun. simpl. rewrite <- !app_assoc. reflexivity.
Qed.

Lemma run_kernels_run (K : collaborators) (bo : batch_policy) (obs : list (ser_obs K))
    (ops : ops_struct K) (tp : list Z) (d : device) :
  exists evs,
    Forall (kernel_event_with tp) evs
    /\ run_kernels K bo obs ops tp d
       = (kernel_result K bo (use_csingle d) (_gpu_state d) obs ops tp,
          set_trace (evs ++ trace d) d).
Proof.
  unfold run_kernels, kernel_result. destruct (truthy bo).
  - set (bs := match bo with
               | BatchBool _ => Z.of_nat (length obs)
               | BatchInt k => (k * getTotalDevices K)%Z
               end).
    unfold py_range. destruct (Z.eqb bs 0).
    + exists []. split; [constructor|]. simpl. destruct d. reflexivity.
    + destruct (Z.ltb bs 0).
      * exists []. split; [constructor|]. destruct d. reflexivity.
      * destruct (batched_loop_run K obs ops tp bs
                    (range_up (Z.to_nat (Z.of_nat (length obs))) 0
                       (Z.of_nat (length obs)) bs) [] d) as (evs & Hevs & Hrun).
        exists evs. split; [exact Hevs|]. unfold bind at 1, ret at 1.
        rewrite Hrun. reflexivity.
  - exists [AdjointKernel false (length obs) tp]. split.
    + constructor; [|constructor]. unfold kernel_event_with. eauto.
    + reflexivity.
Qed.

Lemma stateless_assign_row (n : nat) (jr : list (list R)) (idx : nat) (src : list R) :
  stateless (assign_row n jr idx src).
Proof.
  unfold assign_row. repeat apply stateless_if; auto with stateless.
  destruct src as [|x [|y src]]; auto with stateless.
Qed.

Lemma stateless_reduce_loop (jac : list (list R)) (m : nat) (offsets : list nat)
    (n : nat) (idxs : list nat) (jr : list (list R)) :
  stateless (reduce_loop jac m offsets n idxs jr).
Proof.
  revert jr. induction idxs as [|idx rest IH]; intros jr; simpl.
  - apply stateless_ret.
  - apply stateless_bind; [|intros; apply IH].
    apply stateless_if; [apply stateless_assign_row|].
    unfold assign_row_2d.
    destruct (slice jac (nth idx offsets 0) (nth (idx + 1) offsets 0)) as [|row [|row2 s]];
      try apply stateless_assign_row; apply stateless_if; auto with stateless.
Qed.

Lemma stateless_assemble_jacobian (jac : list R) (m : nat) (offsets : list nat)
    (n_obs all : nat) :
  stateless (assemble_jacobian jac m offsets n_obs all).
Proof.
  unfold assemble_jacobian. apply stateless_bind.
  - unfold reshape_rows. repeat apply stateless_if; auto with stateless.
  - intros rows. apply stateless_bind; [apply stateless_reduce_loop|].
    intros. apply stateless_ret.
Qed.

(** [adjoint_differentiate], run: its value, and the collaborator calls it
    adds to the record. *)
Lemma adjoint_differentiate_run (K : collaborators) (bo : batch_policy) (t : tape)
    (d : device) :
  exists evs,
    adjoint_differentiate K bo t d
    = (differentiate_result K bo t d,
       set_trace (evs ++ trace (differentiation_start d)) d)
    /\ forall tp rec all,
         fst (filter_trainable_params t
                (snd (_serialize_ops K t (wires d) (use_csingle d))) d)
         = Val (tp, rec, all) ->
         Forall (kernel_event_with tp) evs.
Proof.
  unfold adjoint_differentiate, differentiate_result.
  unfold bind at 1, gets at 1. unfold bind at 1, gets at 1.
  destruct (_serialize_observables K t (wires d) (use_csingle d)) as [obs offsets].
  unfold bind at 1, log_event at 1, modify at 1.
  destruct (_serialize_ops K t (wires d) (use_csingle d)) as [ops_ser sp].
  unfold bind at 1, log_event at 1, modify at 1.
  unfold bind at 1, log_event at 1, modify at 1.
  rewrite !set_trace_set_trace. cbn [fst snd].
  match goal with
  | |- context [bind (filter_trainable_params t sp) _ ?st] =>
      change st with (differentiation_start d)
  end.
  pose proof (stateless_filter_trainable_params t sp) as Hf.
  unfold bind at 1.
  rewrite (stateless_any _ (differentiation_start d) d Hf).
  destruct (fst (filter_trainable_params t sp d)) as [[[tp rec] all]|e].
  - destruct (run_kernels_run K bo obs (create_ops_list K ops_ser) tp
                (differentiation_start d)) as (evs & Hevs & Hrun).
    exists evs. split.
    + unfold bind at 1. rewrite Hrun.
      change (use_csingle (differentiation_start d)) with (use_csingle d).
      change (_gpu_state (differentiation_start d)) with (_gpu_state d).
      destruct (kernel_result K bo (use_csingle d) (_gpu_state d) obs
                  (create_ops_list K ops_ser) tp) as [jac|e].
      * rewrite (stateless_any _ _ d (stateless_assemble_jacobian _ _ _ _ _)).
        reflexivity.
      * reflexivity.
    + intros tp' rec' all' H. inversion H; subst. exact Hevs.
  - exists []. split; [|intros ? ? ? H; discriminate H].
    unfold differentiation_start. simpl. reflexivity.
Qed.

(** ** The Jacobian that [adjoint_jacobian] returns *)

Lemma adjoint_jacobian_inv (K : collaborators) (bo : batch_policy) (t : tape)
    (ss : option tensor) (uds : bool) (dev dev' : device) (n : nat)
    (rows : list (list R)) :
  adjoint_jacobian K bo t ss uds dev = (Val (Array2d n rows), dev') ->
  trainable_params t <> []
  /\ exists d1, adjoint_differentiate K bo t d1 = (Val (Array2d n rows), dev').
Proof.
  rewrite adjoint_jacobian_prefix. intros H.
  apply bind_inv_val in H. destruct H as (rt & d0 & _ & H).
  destruct (trainable_params t) as [|tp tps]; [discriminate H|].
  cbn [length Nat.eqb] in H.
  apply bind_inv_val in H. destruct H as (u & d2 & _ & H).
  apply bind_inv_val in H. destruct H as (u' & d1 & _ & H).
  split; [discriminate|]. exists d1. exact H.
Qed.

(** What a successful differentiation consists of. *)
Lemma adjoint_differentiate_inv (K : collaborators) (bo : batch_policy) (t : tape)
    (d1 dev' : device) (J : ndarray) :
  adjoint_differentiate K bo t d1 = (Val J, dev') ->
  exists evs tp rec all jac,
    dev' = set_trace (evs ++ trace (differentiation_start d1)) d1
    /\ Forall (kernel_event_with tp) evs
    /\ fst (filter_trainable_params t
              (snd (_serialize_ops K t (wires d1) (use_csingle d1))) d1)
       = Val (tp, rec, all)
    /\ kernel_result K bo (use_csingle d1) (_gpu_state d1)
         (fst (_serialize_observables K t (wires d1) (use_csingle d1)))
         (create_ops_list K (fst (_serialize_ops K t (wires d1) (use_csingle d1)))) tp
       = Val jac
    /\ assemble_jacobian jac (length tp)
         (snd (_serialize_observables K t (wires d1) (use_csingle d1)))
         (num_observables t) all d1
       = (Val J, d1).
Proof.
  intros H. destruct (adjoint_differentiate_run K bo t d1) as (evs & Hrun & Hevs).
  rewrite Hrun in H. injection H as Hres Hdev. subst dev'.
  unfold differentiate_result in Hres.
  destruct (fst (filter_trainable_params t
                   (snd (_serialize_ops K t (wires d1) (use_csingle d1))) d1))
    as [[[tp rec] all]|e] eqn:Hf; [|discriminate Hres].
  destruct (kernel_result K bo (use_csingle d1) (_gpu_state d1)
              (fst (_serialize_observables K t (wires d1) (use_csingle d1)))
              (create_ops_list K (fst (_serialize_ops K t (wires d1) (use_csingle d1)))) tp)
    as [jac|e] eqn:Hk; [|discriminate Hres].
  exists evs, tp, rec, all, jac.
  split; [reflexivity|]. split; [eapply Hevs; reflexivity|].
  split; [first [exact Hf | reflexivity]|]. split; [first [exact Hk | reflexivity]|].
  rewrite (stateless_any _ d1 d1 (stateless_assemble_jacobian _ _ _ _ _)).
  rewrite Hres. reflexivity.
Qed.

Lemma filter_length_forallb {A} (f : A -> bool) (l : list A) :
  length (filter f l) = length l <-> forallb f l = true.
Proof.
  induction l as [|x l IH]; simpl; [tauto|].
  pose proof (filter_length_le f l) as Hle.
  destruct (f x); simpl.
  - rewrite <- IH. split; intros H; lia.
  - split; [intros H; lia | discriminate].
Qed.

(** C1.  The columns of the result are not those of the filtered positions.
    On a tape that prepares a state and applies two rotations, with the three
    parameters marked trainable, the filter hands the kernels the positions
    of the two rotations, lowered by one, and records in [record_tp_rows] the
    two columns they belong to; but [record_tp_rows] is never read, the
    result is allocated with [all_params = 3] columns, and storing the kernel
    row of two entries raises the broadcast [ValueError].  With one rotation
    the kernel row has one entry, which numpy repeats: the Jacobian returned
    has two columns, one of them for the state preparation. *)
Theorem adjoint_jacobian_state_prep_columns :
  let dev := new_device 1 None true in
  existsb is_state_prep (firstn 1 (operations prepared_tape_2)) = true
  /\ trainable_params prepared_tape_2 = [0; 1; 2]
  /\ fst (filter_trainable_params prepared_tape_2 true dev)
     = Val ([0%Z; 1%Z], [1; 2], 3)
  /\ trace (snd (adjoint_jacobian ref_K (BatchBool false) prepared_tape_2 None true dev))
     = [AdjointKernel false 1 [0%Z; 1%Z]; CreatedOpsList; SerializedOps;
        SerializedObservables]
  /\ fst (adjoint_jacobian ref_K (BatchBool false) prepared_tape_2 None true dev)
     = Exc broadcast_error
  /\ trainable_params prepared_tape_1 = [0; 1]
  /\ fst (filter_trainable_params prepared_tape_1 true dev) = Val ([0%Z], [1], 2)
  /\ fst (adjoint_jacobian ref_K (BatchBool false) prepared_tape_1 None true dev)
     = Val (Array2d 2 [[(1 * 1)%R; (1 * 1)%R]]).
Proof.
  intros dev. repeat split; reflexivity.
Qed.

(** ** Aggregation of the terms of a Hamiltonian *)

Lemma chunk_rows_lengths (m : nat) (fuel : nat) (l : list R) :
  m <> 0 -> length l mod m = 0 ->
  Forall (fun r => length r = m) (chunk_rows fuel m l).
Proof.
  intros Hm. revert l. induction fuel as [|fuel IH]; intros l Hmod; simpl.
  - constructor.
  - destruct l as [|x l']; [constructor|].
    set (l := x :: l') in *.
    apply Nat.Div0.mod_divides in Hmod. destruct Hmod as [q Hq].
    assert (Hq1 : q <> 0) by (intros ->; rewrite Nat.mul_0_r in Hq; discriminate Hq).
    constructor.
    + apply firstn_length_le. rewrite Hq. nia.
    + apply IH. rewrite length_skipn, Hq.
      apply Nat.Div0.mod_divides. exists (q - 1). nia.
Qed.

Lemma In_firstn {A} (n : nat) (l : list A) (x : A) : In x (firstn n l) -> In x l.
Proof.
  revert l. induction n as [|n IH]; intros [|y l] H; simpl in *; try contradiction.
  destruct H as [H|H]; [left; exact H | right; apply IH; exact H].
Qed.

Lemma In_skipn {A} (n : nat) (l : list A) (x : A) : In x (skipn n l) -> In x l.
Proof.
  revert l. induction n as [|n IH]; intros [|y l] H; simpl in *; try contradiction; auto.
Qed.

Lemma In_slice {A} (l : list A) (a b : nat) (x : A) : In x (slice l a b) -> In x l.
Proof.
  unfold slice. intros H. apply In_firstn in H. apply In_skipn in H. exact H.
Qed.

Lemma assemble_jacobian_term_rows (jac : list R) (m : nat) (offsets : list nat)
    (n_obs all : nat) (J : ndarray) (d d' : device) :
  assemble_jacobian jac m offsets n_obs all d = (Val J, d') ->
  Forall (fun r => length r = m) (chunk_rows (length jac) m jac).
Proof.
  unfold assemble_jacobian. intros H.
  apply bind_inv_val in H. destruct H as (tr & d1 & Hresh & _).
  unfold reshape_rows in Hresh.
  destruct (Nat.eqb m 0) eqn:Em; [discriminate Hresh|].
  destruct (Nat.eqb (length jac mod m) 0) eqn:Emod; [|discriminate Hresh].
  apply chunk_rows_lengths.
  - apply Nat.eqb_neq. exact Em.
  - apply Nat.eqb_eq. exact Emod.
Qed.

Lemma length_sum_axis0 (m : nat) (rows : list (list R)) : length (sum_axis0 m rows) = m.
Proof. unfold sum_axis0. rewrite length_map, length_seq. reflexivity. Qed.

Lemma row_is_same_length (n : nat) (r src : list R) :
  row_is n r src -> length src = n -> r = src.
Proof.
  intros [[_ ->] | (x & -> & ->)] Hlen; [reflexivity|].
  simpl in Hlen. subst n. reflexivity.
Qed.

(** The rows of a Jacobian that [adjoint_jacobian] returns. *)
Lemma adjoint_jacobian_rows (K : collaborators) (bo : batch_policy)
    (t : tape) (ss : option tensor) (uds : bool) (dev dev' : device) (n : nat)
    (rows : list (list R)) :
  adjoint_jacobian K bo t ss uds dev = (Val (Array2d n rows), dev') ->
  exists d1 tp rec all jac,
    let so := _serialize_observables K t (wires d1) (use_csingle d1) in
    let sp := _serialize_ops K t (wires d1) (use_csingle d1) in
    let offsets := snd so in
    let term_rows := chunk_rows (length jac) (length tp) jac in
    fst (filter_trainable_params t (snd sp) d1) = Val (tp, rec, all)
    /\ kernel_result K bo (use_csingle d1) (_gpu_state d1) (fst so)
         (create_ops_list K (fst sp)) tp = Val jac
    /\ Forall (fun r => length r = length tp) term_rows
    /\ length rows = num_observables t
    /\ forall idx, idx < length offsets - 1 ->
         let a := nth idx offsets 0 in
         let b := nth (idx + 1) offsets 0 in
         (1 < b - a ->
            row_is n (nth idx rows []) (sum_axis0 (length tp) (slice term_rows a b))
            /\ (length tp = n -> nth idx rows [] = sum_axis0 n (slice term_rows a b)))
         /\ (b - a <= 1 ->
               exists row, slice term_rows a b = [row]
                           /\ row_is n (nth idx rows []) row
                           /\ (length tp = n -> nth idx rows [] = row)).
Proof.
  intros H. apply adjoint_jacobian_inv in H. destruct H as (_ & d1 & H).
  apply adjoint_differentiate_inv in H.
  destruct H as (evs & tp & rec & all & jac & _ & _ & Hf & Hk & Hasm).
  exists d1, tp, rec, all, jac. cbv zeta.
  pose proof (assemble_jacobian_term_rows _ _ _ _ _ _ _ _ Hasm) as Hterm.
  apply assemble_jacobian_inv in Hasm.
  destruct Hasm as (_ & -> & Hm & Hrows & _ & Hred).
  split; [exact Hf|]. split; [exact Hk|]. split; [exact Hterm|]. split; [exact Hrows|].
  intros idx Hidx. specialize (Hred idx Hidx). unfold reduced_row in Hred.
  set (offsets := snd (_serialize_observables K t (wires d1) (use_csingle d1))) in *.
  set (a := nth idx offsets 0) in *. set (b := nth (idx + 1) offsets 0) in *.
  split.
  - intros Hlong.
    assert (E : Z.ltb 1 (Z.of_nat b - Z.of_nat a) = true) by (apply Z.ltb_lt; lia).
    rewrite E in Hred. split; [exact Hred|].
    intros Hcols. pose proof (row_is_same_length _ _ _ Hred) as Hsame.
    rewrite length_sum_axis0 in Hsame. rewrite (Hsame Hcols), Hcols. reflexivity.
  - intros Hshort.
    assert (E : Z.ltb 1 (Z.of_nat b - Z.of_nat a) = false) by (apply Z.ltb_ge; lia).
    rewrite E in Hred. destruct Hred as (row & Hslice & Hrow).
    exists row. split; [exact Hslice|]. split; [exact Hrow|].
    intros Hcols. apply (row_is_same_length _ _ _ Hrow).
    rewrite Forall_forall in Hterm. rewrite (Hterm row); [exact Hcols|].
    apply (In_slice _ a b). rewrite Hslice. left. reflexivity.
Qed.

(** *** Conditions under which a Jacobian is returned *)








(** *** The entries of the rows, by their position in the kernel output *)











(** The Jacobian of the three-term Hamiltonian next to a Pauli Z, on the
    reference kernel: one summed row, one copied row. *)
Example ham_tape_jacobian :
  fst (adjoint_jacobian ref_K (BatchBool false) ham_tape None true (new_device 2 None true))
  = Val (Array2d 2
           [[(1 / 2 * 1 + (2 * 1 + (3 * 1 + 0)))%R; (1 / 2 * 2 + (2 * 2 + (3 * 2 + 0)))%R];
            [(1 * 1)%R; (1 * 2)%R]]).
Proof. reflexivity. Qed.

(** ** Invariance under the batching policy *)

Lemma range_slices {A} (l : list A) (s : Z) (fuel : nat) (cur : Z) :
  (0 < s)%Z -> (0 <= cur)%Z ->
  (Z.of_nat (length l) - cur <= Z.of_nat fuel)%Z ->
  concat (map (fun c => slice l (Z.to_nat c) (Z.to_nat (c + s)))
              (range_up fuel cur (Z.of_nat (length l)) s))
  = skipn (Z.to_nat cur) l.
Proof.
  intros Hs. revert cur. induction fuel as [|fuel IH]; intros cur Hcur Hfuel; simpl.
  - symmetry. apply skipn_all2. lia.
  - destruct (Z.ltb cur (Z.of_nat (length l))) eqn:E.
    + simpl. rewrite IH by lia. unfold slice.
      replace (Z.to_nat (cur + s) - Z.to_nat cur) with (Z.to_nat s) by lia.
      replace (Z.to_nat (cur + s)) with (Z.to_nat s + Z.to_nat cur) by lia.
      rewrite <- skipn_skipn. apply firstn_skipn.
    + apply Z.ltb_ge in E. symmetry. apply skipn_all2. lia.
Qed.

Section Kernels.

Variable K : collaborators.

(** The batched entry point computes what the plain one computes. *)
Hypothesis batched_agrees :
  forall cs g obs ops tp,
    adj_adjoint_jacobian_batched K cs g obs ops tp = adj_adjoint_jacobian K cs g obs ops tp.

(** The kernel returns its rows observable by observable. *)
Hypothesis rows_per_observable :
  forall cs g obs1 obs2 ops tp,
    adj_adjoint_jacobian K cs g (obs1 ++ obs2) ops tp
    = adj_adjoint_jacobian K cs g obs1 ops tp ++ adj_adjoint_jacobian K cs g obs2 ops tp.

Lemma kernel_no_observable cs g ops tp : adj_adjoint_jacobian K cs g [] ops tp = [].
Proof.
  pose proof (rows_per_observable cs g [] [] ops tp) as H. simpl in H.
  apply (f_equal (@length R)) in H. rewrite length_app in H.
  destruct (adj_adjoint_jacobian K cs g [] ops tp); [reflexivity|].
  simpl in H. lia.
Qed.

Lemma kernel_over_chunks cs g ops tp (pieces : list Z) (piece : Z -> list (ser_obs K)) :
  flat_map (fun c => adj_adjoint_jacobian_batched K cs g (piece c) ops tp) pieces
  = adj_adjoint_jacobian K cs g (concat (map piece pieces)) ops tp.
Proof.
  induction pieces as [|c rest IH]; simpl.
  - symmetry. apply kernel_no_observable.
  - rewrite IH, batched_agrees, rows_per_observable. reflexivity.
Qed.

Lemma kernel_windows cs g obs ops tp (s : Z) :
  (0 < s)%Z ->
  flat_map (fun chunk =>
              adj_adjoint_jacobian_batched K cs g
                (slice obs (Z.to_nat chunk) (Z.to_nat (chunk + s))) ops tp)
           (range_up (Z.to_nat (Z.of_nat (length obs))) 0 (Z.of_nat (length obs)) s)
  = adj_adjoint_jacobian K cs g obs ops tp.
Proof.
  intros Hs.
  rewrite (kernel_over_chunks cs g ops tp _
             (fun c => slice obs (Z.to_nat c) (Z.to_nat (c + s)))).
  rewrite range_slices by lia. reflexivity.
Qed.

Lemma kernel_result_capped (k : Z) cs g obs ops tp :
  (0 < k)%Z -> (0 < getTotalDevices K)%Z ->
  kernel_result K (BatchInt k) cs g obs ops tp
  = kernel_result K (BatchBool false) cs g obs ops tp.
Proof.
  intros Hk Hdev. unfold kernel_result. simpl truthy.
  assert (Hpos : (0 < k * getTotalDevices K)%Z) by lia.
  replace (Z.eqb k 0) with false by (symmetry; apply Z.eqb_neq; lia).
  simpl negb. cbv iota.
  replace (Z.eqb (k * getTotalDevices K) 0) with false by (symmetry; apply Z.eqb_neq; lia).
  replace (Z.ltb (k * getTotalDevices K) 0) with false by (symmetry; apply Z.ltb_ge; lia).
  f_equal. apply kernel_windows. exact Hpos.
Qed.

Lemma kernel_result_distributed cs g obs ops tp :
  obs <> [] ->
  kernel_result K (BatchBool true) cs g obs ops tp
  = kernel_result K (BatchBool false) cs g obs ops tp.
Proof.
  intros Hobs. unfold kernel_result. simpl truthy. cbv iota.
  assert (Hpos : (0 < Z.of_nat (length obs))%Z).
  { destruct obs; [contradiction|]. simpl length. lia. }
  replace (Z.eqb (Z.of_nat (length obs)) 0) with false by (symmetry; apply Z.eqb_neq; lia).
  replace (Z.ltb (Z.of_nat (length obs)) 0) with false by (symmetry; apply Z.ltb_ge; lia).
  f_equal. apply kernel_windows. exact Hpos.
Qed.

Lemma kernel_result_distributed_empty cs g ops tp :
  exists e, kernel_result K (BatchBool true) cs g [] ops tp = Exc e.
Proof. eexists. reflexivity. Qed.

Lemma differentiate_result_capped (k : Z) (t : tape) (d : device) :
  (0 < k)%Z -> (0 < getTotalDevices K)%Z ->
  differentiate_result K (BatchInt k) t d = differentiate_result K (BatchBool false) t d.
Proof.
  intros Hk Hdev. unfold differentiate_result.
  destruct (fst (filter_trainable_params t _ d)) as [[[tp rec] all]|e]; [|reflexivity].
  rewrite kernel_result_capped by assumption. reflexivity.
Qed.

Lemma differentiate_result_distributed (t : tape) (d : device) :
  fst (_serialize_observables K t (wires d) (use_csingle d)) <> [] ->
  differentiate_result K (BatchBool true) t d = differentiate_result K (BatchBool false) t d.
Proof.
  intros Hobs. unfold differentiate_result.
  destruct (fst (filter_trainable_params t _ d)) as [[[tp rec] all]|e]; [|reflexivity].
  rewrite kernel_result_distributed by assumption. reflexivity.
Qed.

Lemma differentiate_result_distributed_val (t : tape) (d : device) (J : ndarray) :
  differentiate_result K (BatchBool true) t d = Val J ->
  differentiate_result K (BatchBool false) t d = Val J.
Proof.
  intros H.
  destruct (fst (_serialize_observables K t (wires d) (use_csingle d))) as [|o obs] eqn:E.
  - exfalso. unfold differentiate_result in H. rewrite E in H.
    destruct (fst (filter_trainable_params t _ d)) as [[[tp rec] all]|e]; [|discriminate H].
    destruct (kernel_result_distributed_empty (use_csingle d) (_gpu_state d)
                (create_ops_list K (fst (_serialize_ops K t (wires d) (use_csingle d)))) tp)
      as [e He].
    rewrite He in H. discriminate H.
  - rewrite <- differentiate_result_distributed; [exact H|]. rewrite E. discriminate.
Qed.

End Kernels.

(** The value of [adjoint_jacobian] depends on the policy through
    [differentiate_result] alone. *)
Lemma adjoint_jacobian_value (K : collaborators) (bo : batch_policy) (t : tape)
    (ss : option tensor) (uds : bool) (dev : device) :
  (exists d1, fst (adjoint_jacobian K bo t ss uds dev) = differentiate_result K bo t d1
              /\ forall bo', fst (adjoint_jacobian K bo' t ss uds dev)
                             = differentiate_result K bo' t d1)
  \/ (forall bo', fst (adjoint_jacobian K bo' t ss uds dev)
                  = fst (adjoint_jacobian K bo t ss uds dev)).
Proof.
  assert (Hall : forall bo',
            adjoint_jacobian K bo' t ss uds dev
            = bind (_check_adjdiff_supported_measurements (measurements t))
                (fun _ =>
                   if Nat.eqb (length (trainable_params t)) 0 then ret (Array0d 0%R)
                   else bind (_check_adjdiff_supported_operations (operations t))
                          (fun _ => bind (adjoint_init_state K t ss uds)
                                      (fun _ => adjoint_differentiate K bo' t)))
                (warned dev))
    by (intros; apply adjoint_jacobian_prefix).
  unfold bind in Hall.
  destruct (_check_adjdiff_supported_measurements (measurements t) (warned dev))
    as [[rt|e] d0]; [|right; intros; rewrite !Hall; reflexivity].
  destruct (Nat.eqb (length (trainable_params t)) 0);
    [right; intros; rewrite !Hall; reflexivity|].
  destruct (_check_adjdiff_supported_operations (operations t) d0)
    as [[u|e] d2]; [|right; intros; rewrite !Hall; reflexivity].
  destruct (adjoint_init_state K t ss uds d2)
    as [[u'|e] d1]; [|right; intros; rewrite !Hall; reflexivity].
  left. exists d1.
  assert (H : forall bo', fst (adjoint_jacobian K bo' t ss uds dev)
                          = differentiate_result K bo' t d1).
  { intros bo'. rewrite Hall.
    destruct (adjoint_differentiate_run K bo' t d1) as (evs & Hrun & _).
    rewrite Hrun. reflexivity. }
  split; [apply H | exact H].
Qed.

(** C3 (as amended).  Provided the batched kernel entry point computes what
    the plain one computes and the kernel returns its rows observable by
    observable, the outcome of [adjoint_jacobian] (the Jacobian, its rows,
    their order and their values) is the same whether the policy is unbatched
    ([batch_obs=False]), capped at a positive integer [k] (windows of [k]
    times the device count, results concatenated in observable order), or,
    when at least one observable is serialized, fully distributed
    ([batch_obs=True], one batched call over all observables).  Every Jacobian
    that the fully distributed policy returns is the one the unbatched policy
    returns. *)
Theorem adjoint_jacobian_batch_invariance (K : collaborators) (t : tape)
    (ss : option tensor) (uds : bool) (dev : device) (k : Z) :
  (forall cs g obs ops tp,
      adj_adjoint_jacobian_batched K cs g obs ops tp
      = adj_adjoint_jacobian K cs g obs ops tp) ->
  (forall cs g obs1 obs2 ops tp,
      adj_adjoint_jacobian K cs g (obs1 ++ obs2) ops tp
      = adj_adjoint_jacobian K cs g obs1 ops tp
        ++ adj_adjoint_jacobian K cs g obs2 ops tp) ->
  (0 < k)%Z ->
  (0 < getTotalDevices K)%Z ->
  let unbatched := fst (adjoint_jacobian K (BatchBool false) t ss uds dev) in
  let distributed := fst (adjoint_jacobian K (BatchBool true) t ss uds dev) in
  let capped := fst (adjoint_jacobian K (BatchInt k) t ss uds dev) in
  capped = unbatched
  /\ ((forall wm cs, fst (_serialize_observables K t wm cs) <> []) ->
      distributed = unbatched)
  /\ (forall J, distributed = Val J -> unbatched = Val J).
Proof.
  intros Hb Hrows Hk Hdev unbatched distributed capped.
  unfold unbatched, distributed, capped.
  destruct (adjoint_jacobian_value K (BatchBool false) t ss uds dev)
    as [(d1 & _ & H) | H].
  - rewrite (H (BatchInt k)), (H (BatchBool true)), (H (BatchBool false)).
    split; [|split].
    + apply differentiate_result_capped; assumption.
    + intros Hobs. apply differentiate_result_distributed; auto.
    + intros J. apply differentiate_result_distributed_val; assumption.
  - rewrite (H (BatchInt k)), (H (BatchBool true)).
    split; [reflexivity|]. split; [reflexivity|]. auto.
Qed.

Lemma ref_adjoint_rows_per_observable cs g (obs1 obs2 : list R) ops tp :
  ref_adjoint cs g (obs1 ++ obs2) ops tp
  = ref_adjoint cs g obs1 ops tp ++ ref_adjoint cs g obs2 ops tp.
Proof. unfold ref_adjoint. apply flat_map_app. Qed.

Lemma adjoint_jacobian_batch_invariance_witness :
  fst (adjoint_jacobian ref_K (BatchInt 1) ham_tape None true (new_device 2 None true))
  = fst (adjoint_jacobian ref_K (BatchBool false) ham_tape None true (new_device 2 None true))
  /\ fst (adjoint_jacobian ref_K (BatchBool true) ham_tape None true (new_device 2 None true))
     = fst (adjoint_jacobian ref_K (BatchBool false) ham_tape None true
              (new_device 2 None true)).
Proof.
  destruct (adjoint_jacobian_batch_invariance ref_K ham_tape None true
              (new_device 2 None true) 1
              (fun _ _ _ _ _ => eq_refl) ref_adjoint_rows_per_observable
              eq_refl eq_refl) as (Hcapped & Hdistributed & _).
  split; [exact Hcapped|]. apply Hdistributed. intros wm cs. simpl. discriminate.
Defined.

(** C3, as stated, fails at the edges of the policy.  With nothing measured
    the fully distributed policy has a window length of zero and raises, while
    the unbatched policy returns the Jacobian without rows; capped at a
    negative integer no window is processed, and the row of a Hamiltonian is
    the sum of no term, zero, instead of the sum of its three terms. *)
Lemma adjoint_jacobian_batch_invariance_counterexample :
  (fst (adjoint_jacobian ref_K (BatchBool true) unmeasured_tape None true
          (new_device 1 None true))
   = Exc (ValueError "range() arg 3 must not be zero")
   /\ fst (adjoint_jacobian ref_K (BatchBool false) unmeasured_tape None true
             (new_device 1 None true))
      = Val (Array2d 1 []))
  /\ (fst (adjoint_jacobian ref_K (BatchInt (-1)) ham_only_tape None true
             (new_device 2 None true))
      = Val (Array2d 2 [[0%R; 0%R]])
      /\ fst (adjoint_jacobian ref_K (BatchBool false) ham_only_tape None true
                (new_device 2 None true))
         = Val (Array2d 2
                  [[(1 / 2 * 1 + (2 * 1 + (3 * 1 + 0)))%R;
                    (1 / 2 * 2 + (2 * 2 + (3 * 2 + 0)))%R]])
      /\ (1 / 2 * 1 + (2 * 1 + (3 * 1 + 0)) <> 0)%R).
Proof.
  split; [split; reflexivity|]. split; [reflexivity|]. split; [reflexivity|]. lra.
Qed.
(** ** Indexing of the buffer by bit rows *)

Lemma length_set_nth (i x : nat) (l : list nat) : length (set_nth i x l) = length l.
Proof.
  revert i; induction l as [|y l IH]; intros [|i]; simpl; auto.
Qed.

Lemma nth_set_nth_eq (i x : nat) (l : list nat) :
  i < length l -> nth i (set_nth i x l) 0 = x.
Proof.
  revert i; induction l as [|y l IH]; intros [|i] H; simpl in *; try lia; auto.
  apply IH; lia.
Qed.

Lemma nth_set_nth_neq (i j x : nat) (l : list nat) :
  i <> j -> nth j (set_nth i x l) 0 = nth j l 0.
Proof.
  revert i j; induction l as [|y l IH]; intros [|i] [|j] H; simpl; auto; try lia.
Qed.

Lemma bit_row_set_nth (i x : nat) (l : list nat) :
  x <= 1 -> bit_row l -> bit_row (set_nth i x l).
Proof.
  intros Hx; revert i; induction l as [|y l IH]; intros [|i] H; simpl; auto;
    inversion H; subst; constructor; auto.
  apply IH; auto.
Qed.

Lemma length_scatter_bits (ws bits row : list nat) :
  length (scatter_bits ws bits row) = length row.
Proof.
  revert bits row; induction ws as [|w ws IH]; intros [|b bs] row; simpl; auto.
  rewrite IH. apply length_set_nth.
Qed.

Lemma bit_row_scatter_bits (ws bits row : list nat) :
  bit_row bits -> bit_row row -> bit_row (scatter_bits ws bits row).
Proof.
  revert bits row; induction ws as [|w ws IH]; intros [|b bs] row Hb Hr; simpl; auto.
  inversion Hb; subst. apply IH; auto. apply bit_row_set_nth; auto.
Qed.

Lemma bit_row_repeat0 (n : nat) : bit_row (repeat 0 n).
Proof. apply Forall_repeat. lia. Qed.

Lemma ravel_bits_bounds (row : list nat) :
  bit_row row -> (0 <= ravel_bits row < 2 ^ Z.of_nat (length row))%Z.
Proof.
  induction 1 as [|b row Hb Hrow IH]; simpl ravel_bits; simpl length.
  - simpl. lia.
  - rewrite Nat2Z.inj_succ, Z.pow_succ_r by lia.
    assert (Z.of_nat b = 0 \/ Z.of_nat b = 1)%Z as [E|E] by lia; rewrite E; lia.
Qed.

Lemma ravel_bits_inj (r1 r2 : list nat) :
  bit_row r1 -> bit_row r2 -> length r1 = length r2 ->
  ravel_bits r1 = ravel_bits r2 -> r1 = r2.
Proof.
  intros H1; revert r2; induction H1 as [|b r1 Hb Hr1 IH]; intros r2 H2 Hl He.
  - destruct r2; simpl in Hl; congruence.
  - destruct r2 as [|c r2]; simpl in Hl; [discriminate|].
    inversion H2 as [|? ? Hc Hr2]; subst.
    injection Hl as Hl. simpl in He. rewrite <- Hl in He.
    pose proof (ravel_bits_bounds r1 Hr1) as B1.
    pose proof (ravel_bits_bounds r2 Hr2) as B2. rewrite <- Hl in B2.
    assert (b = c) by nia. subst c.
    f_equal. apply IH; auto. lia.
Qed.

Lemma product01_rows (k : nat) (bits : list nat) :
  In bits (product01 k) -> length bits = k /\ bit_row bits.
Proof.
  revert bits; induction k as [|k IH]; intros bits H; simpl in H.
  - destruct H as [<-|[]]. split; [reflexivity|constructor].
  - apply in_app_or in H. destruct H as [H|H]; apply in_map_iff in H;
      destruct H as (r & <- & Hr); destruct (IH _ Hr) as [Hl Hb];
      split; simpl; try congruence; constructor; auto.
Qed.

Lemma length_product01 (k : nat) : length (product01 k) = 2 ^ k.
Proof.
  induction k as [|k IH]; simpl; auto.
  rewrite length_app, !length_map, IH. lia.
Qed.

Lemma NoDup_product01 (k : nat) : NoDup (product01 k).
Proof.
  induction k as [|k IH]; simpl.
  - constructor; [intros []|constructor].
  - apply NoDup_app.
    + apply NoDup_map_NoDup_ForallPairs; auto. intros x y _ _ E; congruence.
    + apply NoDup_map_NoDup_ForallPairs; auto. intros x y _ _ E; congruence.
    + intros x H1 H2. apply in_map_iff in H1. apply in_map_iff in H2.
      destruct H1 as (a & <- & _). destruct H2 as (b & E & _). discriminate.
Qed.

Lemma ravel_bits_set_nth (w b : nat) (row : list nat) :
  w < length row ->
  ravel_bits (set_nth w b row)
  = (ravel_bits row
     + (Z.of_nat b - Z.of_nat (nth w row 0%nat))
       * 2 ^ (Z.of_nat (length row) - 1 - Z.of_nat w))%Z.
Proof.
  revert w; induction row as [|y row IH]; intros [|w] H; simpl in H; try lia.
  - simpl ravel_bits. simpl nth. simpl length.
    replace (Z.of_nat (S (length row)) - 1 - Z.of_nat 0)%Z
      with (Z.of_nat (length row)) by lia.
    lia.
  - simpl set_nth. simpl ravel_bits. rewrite length_set_nth.
    rewrite IH by lia. simpl nth. simpl length.
    replace (Z.of_nat (S (length row)) - 1 - Z.of_nat (S w))%Z
      with (Z.of_nat (length row) - 1 - Z.of_nat w)%Z by lia.
    lia.
Qed.

Lemma nth_scatter_bits_other (ws bits row : list nat) (w : nat) :
  ~ In w ws -> nth w (scatter_bits ws bits row) 0 = nth w row 0.
Proof.
  revert bits row; induction ws as [|x ws IH]; intros [|b bs] row H; simpl; auto.
  rewrite IH by (intros ?; apply H; right; assumption).
  apply nth_set_nth_neq. intros ->. apply H. left; reflexivity.
Qed.

(** Reading the scattered row back at the wires returns the bits. *)
Lemma nth_scatter_bits (ws bits row : list nat) (j : nat) :
  NoDup ws -> Forall (fun w => w < length row) ws -> length bits = length ws ->
  j < length ws ->
  nth (nth j ws 0) (scatter_bits ws bits row) 0 = nth j bits 0.
Proof.
  revert bits row j; induction ws as [|w ws IH]; intros [|b bs] row j Hnd Hlt Hl Hj;
    simpl in *; try lia.
  inversion Hnd; subst. inversion Hlt; subst.
  destruct j as [|j].
  - rewrite nth_scatter_bits_other by assumption. apply nth_set_nth_eq. assumption.
  - apply IH; auto; try lia.
    rewrite length_set_nth. assumption.
Qed.

Lemma scatter_bits_inj (ws b1 b2 row : list nat) :
  NoDup ws -> Forall (fun w => w < length row) ws ->
  length b1 = length ws -> length b2 = length ws ->
  scatter_bits ws b1 row = scatter_bits ws b2 row -> b1 = b2.
Proof.
  intros Hnd Hlt H1 H2 E.
  apply (nth_ext _ _ 0 0); [congruence|].
  intros j Hj. rewrite H1 in Hj.
  rewrite <- (nth_scatter_bits ws b1 row j), <- (nth_scatter_bits ws b2 row j) by auto.
  rewrite E. reflexivity.
Qed.

(** The index of a scattered row is the weighted sum that
    [_apply_basis_state_GPU] takes of the same bits. *)
Lemma ravel_scatter_bits (ws bits row : list nat) :
  NoDup ws -> Forall (fun w => w < length row /\ nth w row 0 = 0) ws ->
  ravel_bits (scatter_bits ws bits row)
  = (ravel_bits row + basis_index (length row) (map Z.of_nat bits) ws)%Z.
Proof.
  revert bits row; induction ws as [|w ws IH]; intros [|b bs] row Hnd Hz; simpl;
    try lia.
  inversion Hnd as [|? ? Hnotin Hnd']; subst.
  inversion Hz as [|? ? [Hw H0] Hz']; subst.
  rewrite IH; auto.
  - rewrite length_set_nth, ravel_bits_set_nth, H0 by assumption. simpl. lia.
  - rewrite length_set_nth. apply Forall_forall. intros x Hx.
    rewrite Forall_forall in Hz'. destruct (Hz' x Hx) as [Hlt Hx0].
    split; auto. rewrite nth_set_nth_neq; auto. intros ->. contradiction.
Qed.

Lemma ravel_bits_repeat0 (n : nat) : ravel_bits (repeat 0 n) = 0%Z.
Proof. induction n; simpl; lia. Qed.

Lemma nth_repeat0 (n w : nat) : nth w (repeat 0 n) 0 = 0.
Proof. revert w; induction n; intros [|w]; simpl; auto. Qed.

Lemma scatter_index_basis_index (n : nat) (dw bits : list nat) :
  NoDup dw -> Forall (fun w => w < n) dw ->
  ravel_bits (scatter_bits dw bits (repeat 0 n))
  = basis_index n (map Z.of_nat bits) dw.
Proof.
  intros Hnd Hlt. rewrite ravel_scatter_bits; auto.
  - rewrite ravel_bits_repeat0, repeat_length. lia.
  - rewrite repeat_length. eapply Forall_impl; [|exact Hlt].
    intros w Hw. split; auto. apply nth_repeat0.
Qed.

(** X1.  For distinct device wires below [n], the indices that
    [_apply_state_vector_GPU] hands to [setStateVector] are [2 ** k] pairwise
    distinct positions of the buffer of [2 ** n] amplitudes, [k] being the
    number of wires: no amplitude of the input is written twice or out of
    range. *)
Theorem ravelled_indices_distinct_in_range (n : nat) (dw : list nat) :
  NoDup dw -> Forall (fun w => w < n) dw ->
  length (ravelled_indices n dw) = 2 ^ length dw
  /\ NoDup (ravelled_indices n dw)
  /\ Forall (fun i => (0 <= i < 2 ^ Z.of_nat n)%Z) (ravelled_indices n dw).
Proof.
  intros Hnd Hlt. unfold ravelled_indices. split; [|split].
  - rewrite length_map. apply length_product01.
  - apply NoDup_map_NoDup_ForallPairs; [|apply NoDup_product01].
    intros b1 b2 H1 H2 E.
    destruct (product01_rows _ _ H1) as [L1 B1].
    destruct (product01_rows _ _ H2) as [L2 B2].
    apply ravel_bits_inj in E.
    + eapply scatter_bits_inj; eauto. rewrite repeat_length. assumption.
    + apply bit_row_scatter_bits; auto. apply bit_row_repeat0.
    + apply bit_row_scatter_bits; auto. apply bit_row_repeat0.
    + rewrite !length_scatter_bits. reflexivity.
  - apply Forall_forall. intros i Hi. apply in_map_iff in Hi.
    destruct Hi as (bits & <- & Hb).
    destruct (product01_rows _ _ Hb) as [L B].
    pose proof (ravel_bits_bounds (scatter_bits dw bits (repeat 0 n))) as Hr.
    rewrite length_scatter_bits, repeat_length in Hr.
    apply Hr. apply bit_row_scatter_bits; auto. apply bit_row_repeat0.
Qed.

Lemma ravelled_indices_distinct_in_range_witness :
  length (ravelled_indices 3 [2; 0]) = 2 ^ 2
  /\ NoDup (ravelled_indices 3 [2; 0])
  /\ Forall (fun i => (0 <= i < 2 ^ Z.of_nat 3)%Z) (ravelled_indices 3 [2; 0]).
Proof.
  apply (ravelled_indices_distinct_in_range 3 [2; 0]).
  - repeat constructor; simpl; intuition lia.
  - repeat constructor; lia.
Defined.

(** ** Wire labels and positions *)

Lemma index_of_nth (w : nat) (l : list nat) (i : nat) :
  index_of w l = Some i -> i < length l /\ nth i l 0 = w.
Proof.
  revert i; induction l as [|x l IH]; intros i H; simpl in H; [discriminate|].
  destruct (Nat.eqb x w) eqn:E.
  - injection H as <-. apply Nat.eqb_eq in E. simpl. split; [lia|assumption].
  - destruct (index_of w l) as [j|]; [|discriminate].
    injection H as <-. destruct (IH j eq_refl). simpl. split; [lia|assumption].
Qed.

Lemma indices_positions (l ws dw : list nat) :
  indices l ws = Some dw ->
  length dw = length ws
  /\ Forall (fun i => i < length l) dw
  /\ (NoDup ws -> NoDup dw).
Proof.
  revert dw; induction ws as [|w ws IH]; intros dw H; simpl in H.
  - injection H as <-. repeat split; auto; constructor.
  - destruct (index_of w l) as [i|] eqn:Ei; [|discriminate].
    destruct (indices l ws) as [r|] eqn:Er; [|discriminate].
    injection H as <-. destruct (IH r eq_refl) as (Hl & Hlt & Hnd).
    destruct (index_of_nth _ _ _ Ei) as [Hi Hn].
    split; [simpl; congruence|]. split; [constructor; assumption|].
    intros Hws. apply NoDup_cons_iff in Hws. destruct Hws as [Hnotin Hws'].
    constructor; auto.
    intros Hin. apply Hnotin. clear - Hin Er Hn.
    revert r Er Hin; induction ws as [|x ws IH]; intros r Er Hin; simpl in Er.
    + injection Er as <-. destruct Hin.
    + destruct (index_of x l) as [j|] eqn:Ej; [|discriminate].
      destruct (indices l ws) as [r'|] eqn:Er'; [|discriminate].
      injection Er as <-. destruct Hin as [->|Hin].
      * left. destruct (index_of_nth _ _ _ Ej) as [_ Hx]. congruence.
      * right. eapply IH; eauto.
Qed.

(** ** Preparation of a basis state *)

Lemma bits_of_Z (bits : list Z) :
  forallb Z_is_bit bits = true ->
  bits = map Z.of_nat (map Z.to_nat bits) /\ bit_row (map Z.to_nat bits).
Proof.
  induction bits as [|b bits IH]; simpl; intros H.
  - split; [reflexivity|constructor].
  - apply andb_true_iff in H. destruct H as [Hb H]. destruct (IH H) as [E B].
    unfold Z_is_bit in Hb. apply orb_true_iff in Hb.
    rewrite !Z.eqb_eq in Hb.
    split.
    + rewrite <- E. f_equal. destruct Hb; subst b; reflexivity.
    + constructor; auto. destruct Hb; subst b; simpl; lia.
Qed.

Lemma basis_index_bounds (n : nat) (bits : list Z) (dw : list nat) :
  forallb Z_is_bit bits = true -> NoDup dw -> Forall (fun w => w < n) dw ->
  (0 <= basis_index n bits dw < 2 ^ Z.of_nat n)%Z.
Proof.
  intros Hb Hnd Hlt. destruct (bits_of_Z _ Hb) as [E B].
  rewrite E, <- scatter_index_basis_index by assumption.
  pose proof (ravel_bits_bounds (scatter_bits dw (map Z.to_nat bits) (repeat 0 n))) as Hr.
  rewrite length_scatter_bits, repeat_length in Hr.
  apply Hr. apply bit_row_scatter_bits; auto. apply bit_row_repeat0.
Qed.

(** *** The 64-bit arithmetic of the basis number *)

Lemma int64_small (z : Z) : (- 2 ^ 63 <= z < 2 ^ 63)%Z -> int64 z = z.
Proof.
  intros H. unfold int64. rewrite Z.mod_small; lia.
Qed.

Lemma pow2_le_63 (n : nat) : n < 64 -> (2 ^ Z.of_nat n <= 2 ^ 63)%Z.
Proof. intros H. apply Z.pow_le_mono_r; lia. Qed.

Lemma basis_weight_exact (n w : nat) :
  n < 64 -> w < n ->
  int64 (2 ^ (Z.of_nat n - 1 - Z.of_nat w)) = (2 ^ (Z.of_nat n - 1 - Z.of_nat w))%Z.
Proof.
  intros Hn Hw. apply int64_small.
  assert (0 < 2 ^ (Z.of_nat n - 1 - Z.of_nat w))%Z by (apply Z.pow_pos_nonneg; lia).
  assert (2 ^ (Z.of_nat n - 1 - Z.of_nat w) <= 2 ^ 62)%Z
    by (apply Z.pow_le_mono_r; lia).
  lia.
Qed.

(** Below 64 wires the int64 arithmetic of numpy loses nothing. *)
Lemma dot_basis_exact (n : nat) (bits : list Z) (dw : list nat) :
  n < 64 -> forallb Z_is_bit bits = true -> NoDup dw -> Forall (fun w => w < n) dw ->
  dot_basis n bits dw = basis_index n bits dw.
Proof.
  intros Hn. unfold dot_basis.
  revert dw; induction bits as [|b bits IH]; intros [|w dw] Hb Hnd Hlt;
    try reflexivity.
  pose proof (basis_index_bounds n (b :: bits) (w :: dw) Hb Hnd Hlt) as Hbound.
  simpl in Hb. apply andb_true_iff in Hb. destruct Hb as [_ Hb].
  apply NoDup_cons_iff in Hnd. destruct Hnd as [_ Hnd].
  pose proof (Forall_inv Hlt) as Hw. pose proof (Forall_inv_tail Hlt) as Hlt'.
  cbn [basis_weights map dot_int64 basis_index] in *.
  fold (basis_weights n dw).
  rewrite (IH dw Hb Hnd Hlt'), (basis_weight_exact n w Hn Hw).
  apply int64_small. pose proof (pow2_le_63 n Hn). lia.
Qed.

(** From 64 wires on it does: the weight of wire 0 is no longer [2 ** 63]. *)
Example dot_basis_64_wires : dot_basis 64 [1%Z] [0] = (- 2 ^ 63)%Z.
Proof. reflexivity. Qed.

Lemma Reqb_true_iff (a b : R) : Reqb a b = true <-> a = b.
Proof.
  unfold Reqb. destruct (Req_dec_T a b); split; intros H; auto; discriminate.
Qed.

Lemma py_int_IZR (z : Z) : py_int (IZR z) = z.
Proof.
  unfold py_int. destruct (Rle_dec 0 (IZR z)).
  - symmetry. apply Int_part_spec. lra.
  - rewrite <- opp_IZR.
    replace (Int_part (IZR (- z))) with (- z)%Z; [lia|].
    apply Int_part_spec. lra.
Qed.

(** The float dot product of valid bits with the weights is the basis
    number, as a real. *)
Lemma dot_float_bits (n : nat) (data : list C) (dw : list nat) :
  n < 64 -> Forall (fun w => w < n) dw -> forallb C_is_bit data = true ->
  fst (dot_float data (basis_weights n dw))
  = IZR (basis_index n (map (fun z => if Reqb (fst z) 1 then 1%Z else 0%Z) data) dw).
Proof.
  intros Hn. revert dw; induction data as [|z data IH]; intros [|w dw] Hlt Hb;
    try reflexivity.
  simpl in Hb. apply andb_true_iff in Hb. destruct Hb as [Hz Hb].
  pose proof (Forall_inv Hlt) as Hw. pose proof (Forall_inv_tail Hlt) as Hlt'.
  cbn [basis_weights map dot_float basis_index fst].
  fold (basis_weights n dw).
  rewrite (IH dw Hlt' Hb), (basis_weight_exact n w Hn Hw), plus_IZR, mult_IZR.
  f_equal. f_equal.
  unfold C_is_bit in Hz. apply andb_true_iff in Hz. destruct Hz as [_ Hz].
  apply orb_true_iff in Hz. destruct Hz as [Hz|Hz].
  - apply Reqb_true_iff in Hz. rewrite Hz.
    destruct (Reqb 0 1) eqn:E; [apply Reqb_true_iff in E; lra|reflexivity].
  - rewrite Hz. apply Reqb_true_iff in Hz. rewrite Hz. reflexivity.
Qed.

Lemma length_param_bits (p : param) (bits : list Z) :
  array_1d p -> param_bits p = Some bits ->
  param_len p = ret (length bits) /\ entries_are_bits p = ret true
  /\ forallb Z_is_bit bits = true.
Proof.
  intros H1 Hb. destruct p as [x|x|v|t]; simpl in *; try contradiction.
  - destruct (forallb Z_is_bit v) eqn:E; [|discriminate Hb].
    injection Hb as <-. auto.
  - destruct (forallb C_is_bit (t_data t)) eqn:E; [|discriminate Hb].
    injection Hb as <-. rewrite H1, length_map. cbv iota.
    split; [reflexivity|]. split; [destruct (length (t_data t)); reflexivity|].
    apply forallb_forall. intros b Hin. apply in_map_iff in Hin.
    destruct Hin as (z & <- & _). destruct (Reqb (fst z) 1); reflexivity.
Qed.

(** The basis number of valid bits, below 64 wires. *)
Lemma basis_number_exact (n : nat) (p : param) (bits : list Z) (dw : list nat) :
  array_1d p -> param_bits p = Some bits ->
  n < 64 -> NoDup dw -> Forall (fun w => w < n) dw ->
  basis_number n p dw = ret (basis_index n bits dw).
Proof.
  intros H1 Hb Hn Hnd Hlt. destruct p as [x|x|v|t]; simpl in *; try contradiction.
  - destruct (forallb Z_is_bit v) eqn:E; [|discriminate Hb].
    injection Hb as <-. rewrite dot_basis_exact; auto.
  - destruct (forallb C_is_bit (t_data t)) eqn:E; [|discriminate Hb].
    injection Hb as <-. rewrite H1.
    rewrite (dot_float_bits n (t_data t) dw Hn Hlt E), py_int_IZR. reflexivity.
Qed.

Lemma basis_state_run (dev : device) (p : param) (bits : list Z) (ws : list wire)
    (dw : list nat) :
  array_1d p -> param_bits p = Some bits ->
  indices (wires dev) ws = Some dw -> NoDup ws -> num_wires dev < 64 ->
  length bits = length ws ->
  _apply_basis_state_GPU p ws dev
  = (Val tt,
     set_gpu_state (setBasisState (basis_index (num_wires dev) bits dw) false
                    :: setZeroState :: _gpu_state dev) dev).
Proof.
  intros H1 Hb H Hnd Hn Hl.
  destruct (indices_positions _ _ _ H) as (Hdw & Hlt & Hnd').
  destruct (length_param_bits p bits H1 Hb) as (Hlen & Hbits & _).
  unfold _apply_basis_state_GPU, map_wires, wires_indices.
  unfold bind at 1. rewrite H. unfold bind at 1, gets at 1.
  unfold bind at 1. rewrite Hlen. unfold ret at 1.
  unfold bind at 1. rewrite Hbits. unfold ret at 1.
  simpl negb. cbv iota. unfold bind at 1, ret at 1.
  unfold wire in *. rewrite Hdw, Hl, Nat.eqb_refl. simpl negb. cbv iota.
  unfold bind at 1, ret at 1. unfold bind at 1.
  rewrite (basis_number_exact (num_wires dev) p bits dw H1 Hb Hn (Hnd' Hnd) Hlt).
  reflexivity.
Qed.

Lemma wires_limit_le (p : param) : wires_limit p <= 64.
Proof. destruct p; simpl; lia. Qed.

(** X2.  Below 64 wires the two state preparations index the buffer alike:
    the position at which [_apply_state_vector_GPU] writes the amplitude of a
    bit tuple is the number that [_apply_basis_state_GPU] computes, in the
    64-bit integers of numpy, for the same bits on the same distinct wires,
    the tuples being taken in lexicographic order. *)
Theorem ravelled_indices_basis_numbers (n : nat) (dw : list nat) :
  n < 64 -> NoDup dw -> Forall (fun w => w < n) dw ->
  ravelled_indices n dw
  = map (fun bits => dot_basis n (map Z.of_nat bits) dw) (product01 (length dw)).
Proof.
  intros Hn Hnd Hlt. unfold ravelled_indices. apply map_ext_in.
  intros bits Hin. destruct (product01_rows _ _ Hin) as [_ Hb].
  rewrite dot_basis_exact; auto.
  - apply scatter_index_basis_index; assumption.
  - apply forallb_forall. intros z Hz. apply in_map_iff in Hz.
    destruct Hz as (b & <- & Hb'). unfold bit_row in Hb.
    rewrite Forall_forall in Hb. specialize (Hb b Hb').
    unfold Z_is_bit. destruct b as [|[|b]]; try reflexivity. lia.
Qed.

Lemma ravelled_indices_basis_numbers_witness :
  ravelled_indices 3 [2; 0]
  = map (fun bits => dot_basis 3 (map Z.of_nat bits) [2; 0]) (product01 2).
Proof.
  apply (ravelled_indices_basis_numbers 3 [2; 0]).
  - lia.
  - repeat constructor; simpl; intuition lia.
  - repeat constructor; lia.
Defined.

(** X3.  [_apply_basis_state_GPU] on a one-dimensional array, of integers,
    floats or complex numbers.  A label that is not a wire of the device
    raises [WireError]; an entry other than 0 or 1 raises [ValueError], and
    so does a number of entries different from the number of wires; in these
    cases the device is left as it was.  Otherwise, on distinct wires of a
    device below 64 wires for an integer array, and below 54 wires for a
    float or complex array, the buffer receives [setZeroState] and then
    [setBasisState(num)], with [num] the sum of
    [bit * 2 ** (num_wires - 1 - wire)], which lies in
    [0 .. 2 ** num_wires - 1]; nothing else of the device changes. *)
Theorem basis_state_preparation (dev : device) (p : param) (ws : list wire) :
  array_1d p ->
  (indices (wires dev) ws = None ->
   _apply_basis_state_GPU p ws dev = (Exc WireError, dev))
  /\ forall dw, indices (wires dev) ws = Some dw ->
       match param_bits p with
       | None =>
           _apply_basis_state_GPU p ws dev
           = (Exc (ValueError "BasisState parameter must consist of 0 or 1 integers."),
              dev)
       | Some bits =>
           if Nat.eqb (length bits) (length ws)
           then
             NoDup ws -> num_wires dev < wires_limit p ->
             let num := basis_index (num_wires dev) bits dw in
             (0 <= num < 2 ^ Z.of_nat (num_wires dev))%Z
             /\ _apply_basis_state_GPU p ws dev
                = (Val tt,
                   set_gpu_state
                     (setBasisState num false :: setZeroState :: _gpu_state dev) dev)
           else
             _apply_basis_state_GPU p ws dev
             = (Exc (ValueError "BasisState parameter and wires must be of equal length."),
                dev)
       end.
Proof.
  intros H1. split.
  - intros H. unfold _apply_basis_state_GPU, map_wires, wires_indices, bind.
    rewrite H. reflexivity.
  - intros dw H. destruct (indices_positions _ _ _ H) as (Hdw & Hlt & Hnd').
    destruct (param_bits p) as [bits|] eqn:Hb.
    + destruct (Nat.eqb (length bits) (length ws)) eqn:El.
      * intros Hnd Hn. apply Nat.eqb_eq in El.
        pose proof (wires_limit_le p) as Hlim. split.
        -- destruct (length_param_bits p bits H1 Hb) as (_ & _ & Hz).
           apply basis_index_bounds; auto.
        -- apply basis_state_run; auto. lia.
      * destruct (length_param_bits p bits H1 Hb) as (Hlen & Hbits & _).
        unfold _apply_basis_state_GPU, map_wires, wires_indices.
        unfold bind at 1. rewrite H. unfold bind at 1, gets at 1.
        unfold bind at 1. rewrite Hlen. unfold ret at 1.
        unfold bind at 1. rewrite Hbits. unfold ret at 1.
        simpl negb. cbv iota. unfold bind at 1, ret at 1.
        unfold wire in *. rewrite Hdw, El. reflexivity.
    + unfold _apply_basis_state_GPU, map_wires, wires_indices.
      unfold bind at 1. rewrite H. unfold bind at 1, gets at 1.
      destruct p as [x|x|v|t]; simpl in H1, Hb; try contradiction.
      * destruct (forallb Z_is_bit v) eqn:E; [discriminate Hb|].
        unfold bind, param_len, entries_are_bits, ret. rewrite E. reflexivity.
      * destruct (forallb C_is_bit (t_data t)) eqn:E; [discriminate Hb|].
        unfold bind, param_len, entries_are_bits, ret. rewrite H1, E.
        destruct (length (t_data t)); reflexivity.
Qed.

Lemma float_bits_10_bits : param_bits (Array float_bits_10) = Some [1%Z; 0%Z].
Proof.
  assert (E1 : Reqb 1 1 = true) by (apply Reqb_true_iff; reflexivity).
  assert (E0 : Reqb 0 0 = true) by (apply Reqb_true_iff; reflexivity).
  assert (E01 : Reqb 0 1 = false).
  { destruct (Reqb 0 1) eqn:E; [apply Reqb_true_iff in E; lra|reflexivity]. }
  unfold param_bits, float_bits_10, C_is_bit, Cone, Czero.
  cbn [t_data forallb map fst snd]. rewrite E1, E0, E01, orb_true_r. reflexivity.
Qed.

Lemma basis_state_preparation_witness :
  _apply_basis_state_GPU (IntArray [1%Z; 0%Z]) [2; 0] (new_device 3 None true)
  = (Val tt,
     set_gpu_state (setBasisState 1 false :: setZeroState
                    :: _gpu_state (new_device 3 None true))
       (new_device 3 None true))
  /\ _apply_basis_state_GPU (Array float_bits_10) [2; 0] (new_device 3 None true)
     = (Val tt,
        set_gpu_state (setBasisState 1 false :: setZeroState
                       :: _gpu_state (new_device 3 None true))
          (new_device 3 None true)).
Proof.
  assert (Hnd : NoDup [2; 0]) by (repeat constructor; simpl; intuition lia).
  assert (Hn : num_wires (new_device 3 None true) < 64) by (vm_compute; lia).
  assert (Hn' : num_wires (new_device 3 None true) < 54) by (vm_compute; lia).
  split.
  - destruct (basis_state_preparation (new_device 3 None true) (IntArray [1%Z; 0%Z])
                [2; 0] I) as [_ H].
    exact (proj2 (H [2; 0] eq_refl Hnd Hn)).
  - destruct (basis_state_preparation (new_device 3 None true) (Array float_bits_10)
                [2; 0] eq_refl) as [_ H].
    specialize (H [2; 0] eq_refl). rewrite float_bits_10_bits in H.
    exact (proj2 (H Hnd Hn')).
Defined.

(** ** The two ways of writing a state vector *)

Lemma state_vector_run (dev : device) (p : param) (ws : list wire) (use_async : bool) :
  _apply_state_vector_GPU p ws use_async dev
  = match indices (wires dev) ws with
    | None => (Exc WireError, dev)
    | Some dw =>
        let st := _asarray p in
        let n := num_wires dev in
        if negb (shape_in (t_shape st) (2 ^ length dw)
                   (_get_batch_size st [2 ^ length dw] (2 ^ length dw)))
        then (Exc (ValueError shape_error), dev)
        else if negb (t_abstract st) && negb (allclose (linalg_norm st) 1%R tolerance)
        then (Exc (ValueError norm_error), dev)
        else if Nat.eqb (length dw) n && list_eqb (sorted dw) dw
        then (Val tt,
              set_gpu_state (HostToDevice (t_data st) false :: _gpu_state dev)
                (set_state (mk_tensor (state_vector_shape st (length dw) n) (t_data st)
                              (t_abstract st)) dev))
        else (Val tt,
              set_gpu_state
                (setStateVector (ravelled_indices n dw) (t_data st) use_async
                 :: _gpu_state dev) dev)
    end.
Proof.
  unfold _apply_state_vector_GPU, map_wires, wires_indices, bind at 1.
  destruct (indices (wires dev) ws) as [dw|]; [|reflexivity].
  unfold bind at 1, gets at 1. cbv zeta.
  destruct (shape_in _ _ _); simpl negb; cbv iota.
  2:{ reflexivity. }
  unfold bind at 1, ret at 1.
  destruct (t_abstract (_asarray p)) eqn:Ha; simpl negb; cbv iota.
  - simpl andb. cbv iota. unfold bind at 1, ret at 1.
    destruct (Nat.eqb (length dw) (num_wires dev) && list_eqb (sorted dw) dw);
      reflexivity.
  - destruct (allclose _ _ _); simpl negb; simpl andb; cbv iota.
    + unfold bind at 1, ret at 1.
      destruct (Nat.eqb (length dw) (num_wires dev) && list_eqb (sorted dw) dw);
        reflexivity.
    + reflexivity.
Qed.

Lemma In_insert_sorted (x z : nat) (l : list nat) :
  In z (insert_sorted x l) <-> z = x \/ In z l.
Proof.
  induction l as [|y l IH]; simpl.
  - intuition.
  - destruct (Nat.leb x y); simpl; rewrite ?IH; intuition.
Qed.

Lemma insert_sorted_increasing (x : nat) (l : list nat) :
  StronglySorted le l -> StronglySorted le (insert_sorted x l).
Proof.
  induction 1 as [|y l Hs IH Hall]; simpl.
  - constructor; constructor.
  - destruct (Nat.leb x y) eqn:E.
    + apply Nat.leb_le in E. constructor.
      * constructor; assumption.
      * constructor; [assumption|].
        eapply Forall_impl; [|exact Hall]. intros; lia.
    + apply Nat.leb_gt in E. constructor; [assumption|].
      apply Forall_forall. intros z Hz. apply In_insert_sorted in Hz.
      destruct Hz as [->|Hz]; [lia|].
      rewrite Forall_forall in Hall. auto.
Qed.

Lemma sorted_increasing (l : list nat) : StronglySorted le (sorted l).
Proof.
  induction l as [|x l IH]; simpl.
  - constructor.
  - apply insert_sorted_increasing. assumption.
Qed.

Lemma sorted_seq (a n : nat) : sorted (seq a n) = seq a n.
Proof.
  revert a; induction n as [|n IH]; intros a; simpl; [reflexivity|].
  unfold sorted in IH. rewrite IH.
  destruct n; simpl; [reflexivity|].
  replace (Nat.leb a (S a)) with true by (symmetry; apply Nat.leb_le; lia).
  reflexivity.
Qed.

(** An increasing list without repetition that fits in a window of its own
    length fills the window. *)
Lemma increasing_window (l : list nat) (a : nat) :
  StronglySorted le l -> NoDup l ->
  Forall (fun x => a <= x < a + length l) l ->
  l = seq a (length l).
Proof.
  intros Hs; revert a; induction Hs as [|x l Hs IH Hall]; intros a Hnd Hw.
  - reflexivity.
  - apply NoDup_cons_iff in Hnd. destruct Hnd as [Hnotin Hnd].
    inversion Hw as [|? ? Hx Hw']; subst. simpl length in *.
    assert (Hl : l = seq (S a) (length l)).
    { apply IH; auto. apply Forall_forall. intros z Hz.
      rewrite Forall_forall in Hall, Hw'.
      specialize (Hall z Hz). specialize (Hw' z Hz).
      assert (z <> x) by (intros ->; contradiction). lia. }
    assert (x = a).
    { destruct l as [|y l']; simpl in *; [lia|].
      injection Hl as Hy _. pose proof (Forall_inv Hall) as Hxy.
      assert (y <> x) by (intros E; apply Hnotin; left; exact E). lia. }
    subst x. simpl. f_equal. assumption.
Qed.

Lemma indices_nth (l ws dw : list nat) (j : nat) :
  indices l ws = Some dw -> j < length ws ->
  index_of (nth j ws 0) l = Some (nth j dw 0).
Proof.
  revert dw j; induction ws as [|w ws IH]; intros dw j H Hj; simpl in *; [lia|].
  destruct (index_of w l) as [i|] eqn:Ei; [|discriminate].
  destruct (indices l ws) as [r|] eqn:Er; [|discriminate].
  injection H as <-. destruct j as [|j]; simpl; auto.
  apply IH; auto. lia.
Qed.

(** The positions are [0 .. n-1] exactly when the labels are the wires of the
    device, in the order of the device. *)
Lemma indices_identity (l ws dw : list nat) :
  indices l ws = Some dw -> NoDup ws ->
  (dw = seq 0 (length l) <-> ws = l).
Proof.
  intros H Hnd. destruct (indices_positions _ _ _ H) as (Hl & Hlt & _).
  split; intros E.
  - apply (nth_ext _ _ 0 0).
    + rewrite <- Hl, E, length_seq. reflexivity.
    + intros j Hj.
      destruct (index_of_nth _ _ _ (indices_nth _ _ _ j H Hj)) as [_ Hn].
      rewrite <- Hn, E, seq_nth; [reflexivity|].
      rewrite <- Hl, E, length_seq in Hj. assumption.
  - subst ws. apply (nth_ext _ _ 0 0).
    + rewrite length_seq. assumption.
    + intros j Hj. rewrite Hl in Hj. rewrite seq_nth by assumption. simpl.
      destruct (index_of_nth _ _ _ (indices_nth _ _ _ j H Hj)) as [Hi Hn].
      apply (proj1 (NoDup_nth l 0) Hnd); assumption.
Qed.

Lemma whole_device_test (n : nat) (dw : list nat) :
  NoDup dw -> Forall (fun w => w < n) dw ->
  Nat.eqb (length dw) n && list_eqb (sorted dw) dw = true <-> dw = seq 0 n.
Proof.
  intros Hnd Hlt. rewrite andb_true_iff, Nat.eqb_eq, list_eqb_eq. split.
  - intros [Hl Hs]. rewrite <- Hl. apply increasing_window; auto.
    + rewrite <- Hs. apply sorted_increasing.
    + rewrite Hl. eapply Forall_impl; [|exact Hlt]. intros a Ha; simpl in *; lia.
  - intros ->. rewrite length_seq, sorted_seq. auto.
Qed.

(** X4.  An accepted state vector is written in one of two ways.  When the
    labels are the wires of the device in the order of the device, the host
    copy becomes the input (reshaped) and the buffer receives one
    [HostToDevice] of its data, always synchronous.  For any other list of
    distinct labels, a subset or a permutation, the buffer receives one
    [setStateVector] with the scattered indices and the host copy is left as
    it was. *)
Theorem state_vector_write_path (dev dev' : device) (p : param) (ws : list wire)
    (use_async : bool) (dw : list nat) :
  indices (wires dev) ws = Some dw -> NoDup ws ->
  _apply_state_vector_GPU p ws use_async dev = (Val tt, dev') ->
  let st := _asarray p in
  let n := num_wires dev in
  (ws = wires dev ->
   dev' = set_gpu_state (HostToDevice (t_data st) false :: _gpu_state dev)
            (set_state (mk_tensor (state_vector_shape st n n) (t_data st)
                          (t_abstract st)) dev))
  /\ (ws <> wires dev ->
      dev' = set_gpu_state
               (setStateVector (ravelled_indices n dw) (t_data st) use_async
                :: _gpu_state dev) dev
      /\ _state dev' = _state dev).
Proof.
  intros H Hnd Hrun st n.
  destruct (indices_positions _ _ _ H) as (Hl & Hlt & Hdw). specialize (Hdw Hnd).
  pose proof (whole_device_test n dw Hdw Hlt) as Htest.
  pose proof (indices_identity _ _ _ H Hnd) as Hid. fold (num_wires dev) in Hid. fold n in Hid.
  rewrite state_vector_run, H in Hrun. cbv zeta in Hrun. fold st n in Hrun.
  destruct (negb (shape_in _ _ _)); [discriminate|].
  destruct (negb (t_abstract st) && negb (allclose (linalg_norm st) 1 tolerance));
    [discriminate|].
  destruct (Nat.eqb (length dw) n && list_eqb (sorted dw) dw) eqn:Ec.
  - assert (Edw : dw = seq 0 n) by (apply Htest; reflexivity).
    split.
    + intros _. injection Hrun as <-. rewrite Edw, length_seq. reflexivity.
    + intros Hne. exfalso. apply Hne. apply Hid. assumption.
  - split.
    + intros E. apply Hid in E. apply Htest in E. congruence.
    + intros _. injection Hrun as <-. split; reflexivity.
Qed.

Lemma loose_state_on_wire_1 :
  _apply_state_vector_GPU (Array loose_state) [1] true (new_device 2 None true)
  = (Val tt,
     set_gpu_state
       (setStateVector (ravelled_indices 2 [1]) (t_data loose_state) true
        :: _gpu_state (new_device 2 None true)) (new_device 2 None true)).
Proof.
  assert (Hclose : allclose (linalg_norm (_asarray (Array loose_state))) 1%R tolerance = true).
  { apply allclose_one_spec. simpl _asarray. rewrite loose_state_norm.
    constructor; [|constructor].
    unfold tolerance, default_rtol, loose_norm. rewrite Rabs_pos_eq; lra. }
  rewrite state_vector_run. simpl indices. cbv zeta.
  rewrite Hclose. reflexivity.
Qed.

Lemma state_vector_write_path_witness :
  exists dev',
    _apply_state_vector_GPU (Array loose_state) [1] true (new_device 2 None true)
    = (Val tt, dev')
    /\ _gpu_state dev'
       = [setStateVector [0%Z; 1%Z] (t_data loose_state) true; setBasisState 0 false]
    /\ _state dev' = _state (new_device 2 None true).
Proof.
  eexists. split; [exact loose_state_on_wire_1|].
  assert (Hnd : NoDup [1]) by (repeat constructor; simpl; intuition).
  assert (Hne : [1] <> wires (new_device 2 None true)) by discriminate.
  destruct (state_vector_write_path (new_device 2 None true) _ (Array loose_state) [1] true [1]
              eq_refl Hnd loose_state_on_wire_1) as [_ H].
  destruct (H Hne) as [_ Hst]. split; [reflexivity|exact Hst].
Defined.

(** ** Replaying gates in pieces *)

Lemma for_each_app {A} (f : A -> M unit) (l1 l2 : list A) (d : device) :
  for_each f (l1 ++ l2) d = bind (for_each f l1) (fun _ => for_each f l2) d.
Proof.
  revert d; induction l1 as [|x l1 IH]; intros d; simpl.
  - reflexivity.
  - unfold bind. destruct (f x d) as [[[]|e] d1]; [|reflexivity].
    rewrite IH. reflexivity.
Qed.

(** What one step of [apply_cq] does. *)
Lemma apply_cq_one_run (K : collaborators) (o : operation) (d : device) :
  apply_cq_one K o d
  = if negb (replayed o) then (Val tt, d)
    else match indices (wires d) (op_wires o) with
         | None => (Exc WireError, d)
         | Some ws =>
             if has_kernel K (split_dot_head (op_name o))
             then (Val tt, set_gpu_state (gate_call K ws o :: _gpu_state d) d)
             else match op_matrix o with
                  | None => (Exc MatrixUndefinedError, d)
                  | Some m =>
                      if Nat.eqb (length m) 0
                      then (Exc (PyException "Unsupported operation"), d)
                      else (Val tt, set_gpu_state (gate_call K ws o :: _gpu_state d) d)
                  end
         end.
Proof.
  unfold apply_cq_one, replayed, gate_call.
  destruct (String.eqb (op_base_name o) "Identity"); simpl negb; cbv iota; [reflexivity|].
  unfold bind, wires_indices.
  destruct (indices (wires d) (op_wires o)) as [ws|]; [|reflexivity].
  destruct (has_kernel K (split_dot_head (op_name o))); simpl; [reflexivity|].
  unfold qml_matrix. destruct (op_matrix o) as [m|]; [|reflexivity].
  unfold ret at 1. destruct (Nat.eqb (length m) 0); reflexivity.
Qed.

Lemma set_gpu_state_twice (g1 g2 : list kernel_call) (d : device) :
  set_gpu_state g2 (set_gpu_state g1 d) = set_gpu_state g2 d.
Proof. reflexivity. Qed.

Lemma apply_cq_runnable (K : collaborators) (ops : list operation) (d : device) :
  forallb (runnable K (wires d)) ops = true ->
  apply_cq K ops d
  = (Val tt, set_gpu_state (rev (gate_calls K (wires d) ops) ++ _gpu_state d) d).
Proof.
  revert d; induction ops as [|o ops IH]; intros d H.
  - simpl. rewrite set_gpu_state_same. reflexivity.
  - simpl in H. apply andb_true_iff in H. destruct H as [Ho H].
    unfold apply_cq in *. simpl for_each. unfold bind.
    rewrite apply_cq_one_run. unfold runnable in Ho. unfold gate_calls. simpl flat_map.
    fold (gate_calls K (wires d) ops).
    destruct (replayed o); simpl negb in *; cbv iota.
    + simpl orb in Ho.
      destruct (indices (wires d) (op_wires o)) as [ws|]; [|discriminate Ho].
      simpl andb in Ho.
      destruct (has_kernel K (split_dot_head (op_name o))); simpl in Ho |- *.
      * rewrite IH by exact H. simpl. rewrite <- app_assoc. reflexivity.
      * destruct (op_matrix o) as [m|]; [|discriminate Ho].
        apply negb_true_iff in Ho. rewrite Ho.
        rewrite IH by exact H. simpl. rewrite <- app_assoc. reflexivity.
    + rewrite IH by exact H. reflexivity.
Qed.

Lemma apply_cq_one_not_runnable (K : collaborators) (o : operation) (d : device) :
  runnable K (wires d) o = false ->
  apply_cq_one K o d = (Exc (replay_error (wires d) o), d).
Proof.
  intros H. rewrite apply_cq_one_run. unfold runnable in H. unfold replay_error.
  destruct (replayed o); simpl in H; [|discriminate H]. simpl negb. cbv iota.
  destruct (indices (wires d) (op_wires o)) as [ws|]; [|reflexivity].
  simpl in H. apply orb_false_iff in H. destruct H as [Hk Hm].
  rewrite Hk. destruct (op_matrix o) as [m|]; [|reflexivity].
  apply negb_false_iff in Hm. rewrite Hm. reflexivity.
Qed.

Lemma apply_cq_failure (K : collaborators) (ops1 ops2 : list operation) (o : operation)
    (d : device) :
  forallb (runnable K (wires d)) ops1 = true ->
  runnable K (wires d) o = false ->
  apply_cq K (ops1 ++ o :: ops2) d
  = (Exc (replay_error (wires d) o),
     set_gpu_state (rev (gate_calls K (wires d) ops1) ++ _gpu_state d) d).
Proof.
  intros H1 Ho. unfold apply_cq. rewrite for_each_app. unfold bind at 1.
  fold (apply_cq K ops1). rewrite (apply_cq_runnable K ops1 d H1).
  simpl for_each. unfold bind. rewrite apply_cq_one_not_runnable by exact Ho.
  reflexivity.
Qed.

Lemma first_failure {A} (f : A -> bool) (l : list A) :
  forallb f l = false ->
  exists l1 x l2, l = l1 ++ x :: l2 /\ forallb f l1 = true /\ f x = false.
Proof.
  induction l as [|x l IH]; simpl; intros H; [discriminate|].
  destruct (f x) eqn:E.
  - destruct (IH H) as (l1 & y & l2 & -> & H1 & Hy).
    exists (x :: l1), y, l2. simpl. rewrite E. auto.
  - exists [], x, l. auto.
Qed.

(** X6.  [apply_cq] returns exactly when every operation is an Identity
    (skipped) or has its wires on the device and either a kernel of its name
    or a matrix that is not empty; it then adds one kernel call per operation
    that is not an Identity, in order, and changes nothing else.  Otherwise
    it stops at the first operation that cannot be replayed: with [WireError]
    for an unknown wire; without a kernel of the name, with the
    [MatrixUndefinedError] of [qml.matrix] for an operation that defines no
    matrix, which the handler for [AttributeError] lets through, and with the
    exception of message [Unsupported operation] for an empty matrix.  The
    calls of the operations before it stay on the buffer and no later
    operation is applied. *)
Theorem apply_cq_outcome (K : collaborators) (ops : list operation) (d : device) :
  (forallb (runnable K (wires d)) ops = true <->
   exists d', apply_cq K ops d = (Val tt, d'))
  /\ (forallb (runnable K (wires d)) ops = true ->
      apply_cq K ops d
      = (Val tt, set_gpu_state (rev (gate_calls K (wires d) ops) ++ _gpu_state d) d))
  /\ (forall ops1 o ops2,
        ops = ops1 ++ o :: ops2 ->
        forallb (runnable K (wires d)) ops1 = true ->
        runnable K (wires d) o = false ->
        apply_cq K ops d
        = (Exc (replay_error (wires d) o),
           set_gpu_state (rev (gate_calls K (wires d) ops1) ++ _gpu_state d) d)).
Proof.
  split; [|split].
  - split.
    + intros H. eexists. apply apply_cq_runnable. exact H.
    + intros [d' H]. destruct (forallb (runnable K (wires d)) ops) eqn:E; [reflexivity|].
      destruct (first_failure _ _ E) as (l1 & x & l2 & -> & H1 & Hx).
      rewrite (apply_cq_failure K l1 l2 x d H1 Hx) in H. discriminate H.
  - apply apply_cq_runnable.
  - intros ops1 o ops2 -> H1 Ho. apply apply_cq_failure; assumption.
Qed.

Lemma apply_cq_outcome_witness :
  apply_cq gates_K [rx (3 / 10)%R 0; qubit_unitary_x 1; barrier 0; ry (5 / 10)%R 0]
    (new_device 2 None true)
  = (Exc MatrixUndefinedError,
     set_gpu_state
       [matrix_gate "QubitUnitary" [1] [Czero; Cone; Cone; Czero];
        named_gate "RX" [0] false [PyFloat (3 / 10)%R];
        setBasisState 0 false]
       (new_device 2 None true))
  /\ apply_cq gates_K [rx (3 / 10)%R 0; gate "PauliX" [5] []; ry (5 / 10)%R 0]
       (new_device 2 None true)
     = (Exc WireError,
        set_gpu_state
          [named_gate "RX" [0] false [PyFloat (3 / 10)%R]; setBasisState 0 false]
          (new_device 2 None true)).
Proof.
  split.
  - destruct (apply_cq_outcome gates_K
                [rx (3 / 10)%R 0; qubit_unitary_x 1; barrier 0; ry (5 / 10)%R 0]
                (new_device 2 None true)) as (_ & _ & H).
    exact (H [rx (3 / 10)%R 0; qubit_unitary_x 1] (barrier 0) [ry (5 / 10)%R 0]
             eq_refl eq_refl eq_refl).
  - destruct (apply_cq_outcome gates_K
                [rx (3 / 10)%R 0; gate "PauliX" [5] []; ry (5 / 10)%R 0]
                (new_device 2 None true)) as (_ & _ & H).
    exact (H [rx (3 / 10)%R 0] (gate "PauliX" [5] []) [ry (5 / 10)%R 0]
             eq_refl eq_refl eq_refl).
Defined.


(** ** Synchronization of the host copy *)

Lemma syncD2H_run (K : collaborators) (use_async : bool) (d : device) :
  syncD2H K use_async d
  = match t_shape (_state d) with
    | [] => (Exc (TypeError "len() of unsized object"), d)
    | len :: _ =>
        let st1 := if negb (Nat.eqb len (2 ^ num_wires d))
                   then mk_tensor (repeat 2 (num_wires d))
                          (repeat Czero (2 ^ num_wires d)) false
                   else _state d in
        let st2 := mk_tensor (t_shape st1)
                     (DeviceToHost K (_gpu_state d) (t_data st1)) (t_abstract st1) in
        (Val tt, set_pre_rotated_state st2 (set_state st2 d))
    end.
Proof.
  unfold syncD2H, bind, gets, py_len.
  destruct (t_shape (_state d)) as [|len rest]; [reflexivity|].
  unfold ret. destruct (Nat.eqb len (2 ^ num_wires d)); reflexivity.
Qed.

Lemma pow2_ge_4 (n : nat) : 2 <= n -> 4 <= 2 ^ n.
Proof.
  intros H. destruct n as [|[|n]]; try lia.
  simpl. pose proof (pow2_nonzero n). lia.
Qed.

Lemma syncD2H_fresh (K : collaborators) (use_async : bool) (d : device) (len : nat)
    (rest : list nat) :
  t_shape (_state d) = len :: rest -> len <> 2 ^ num_wires d ->
  syncD2H K use_async d
  = (Val tt, set_pre_rotated_state (fresh_host_copy K d)
               (set_state (fresh_host_copy K d) d)).
Proof.
  intros Hs Hl. rewrite syncD2H_run, Hs.
  apply Nat.eqb_neq in Hl. rewrite Hl. reflexivity.
Qed.

(** X7.  On a device of at least two wires whose host copy does not have
    [2 ** num_wires] as its first dimension (as after [__init__], [reset] or a
    previous synchronization), [syncD2H] allocates a zero-filled array of
    shape [[2] * num_wires], lets [DeviceToHost] fill it, and makes it both
    [_state] and [_pre_rotated_state]; the previous host copy plays no part
    and the buffer is not written.  A second [syncD2H] changes nothing. *)
Theorem syncD2H_idempotent (K : collaborators) (a1 a2 : bool) (d : device) (len : nat)
    (rest : list nat) :
  t_shape (_state d) = len :: rest -> len <> 2 ^ num_wires d -> 2 <= num_wires d ->
  let host := fresh_host_copy K d in
  syncD2H K a1 d = (Val tt, set_pre_rotated_state host (set_state host d))
  /\ bind (syncD2H K a1) (fun _ => syncD2H K a2) d = syncD2H K a1 d.
Proof.
  intros Hs Hl Hn host.
  pose proof (syncD2H_fresh K a1 d len rest Hs Hl) as H1. fold host in H1.
  split; [exact H1|].
  unfold bind. rewrite H1.
  set (d1 := set_pre_rotated_state host (set_state host d)).
  assert (Hs1 : t_shape (_state d1) = 2 :: repeat 2 (num_wires d - 1)).
  { simpl. replace (num_wires d) with (S (num_wires d - 1)) at 1 by lia. reflexivity. }
  rewrite (syncD2H_fresh K a2 d1 2 _ Hs1); [reflexivity|].
  change (num_wires d1) with (num_wires d).
  pose proof (pow2_ge_4 (num_wires d)). lia.
Qed.

Lemma syncD2H_idempotent_witness :
  bind (syncD2H ref_K false) (fun _ => syncD2H ref_K false) (new_device 2 None true)
  = syncD2H ref_K false (new_device 2 None true).
Proof.
  assert (Hl : 2 <> 2 ^ num_wires (new_device 2 None true)).
  { intros E. vm_compute in E. discriminate E. }
  assert (Hn : 2 <= num_wires (new_device 2 None true)).
  { vm_compute. constructor. }
  exact (proj2 (syncD2H_idempotent ref_K false false (new_device 2 None true) 2 []
                  eq_refl Hl Hn)).
Defined.

Lemma prod_shape_repeat2 (n : nat) : prod_shape (repeat 2 n) = 2 ^ n.
Proof.
  induction n as [|n IH]; [reflexivity|].
  simpl repeat. unfold prod_shape in *. simpl fold_right. rewrite IH.
  rewrite Nat.pow_succ_r'. reflexivity.
Qed.

(** X8.  The [state] property of a device with at least one wire, whose host
    copy has shape [[2]] or [[2] * num_wires], returns an array of shape
    [(2 ** num_wires,)]; with two wires or more its data is what
    [DeviceToHost] writes into a zero-filled array.  The buffer is not
    written, [_pre_rotated_state] is [_state] afterwards, and the shape of the
    host copy allows the next call. *)
Theorem state_is_flat (K : collaborators) (d : device) :
  1 <= num_wires d -> host_shape_ok d ->
  exists r d',
    state K d = (Val r, d')
    /\ t_shape r = [2 ^ num_wires d]
    /\ (2 <= num_wires d ->
        t_data r = DeviceToHost K (_gpu_state d) (repeat Czero (2 ^ num_wires d)))
    /\ _gpu_state d' = _gpu_state d
    /\ _pre_rotated_state d' = _state d'
    /\ host_shape_ok d'.
Proof.
  intros Hn Hshape.
  assert (Hrun : exists st,
             syncD2H K false d = (Val tt, set_pre_rotated_state st (set_state st d))
             /\ t_shape st = repeat 2 (num_wires d)
             /\ (2 <= num_wires d -> st = fresh_host_copy K d)).
  { destruct (Nat.eq_dec (num_wires d) 1) as [E1|E1].
    - assert (Hs : t_shape (_state d) = [2]).
      { destruct Hshape as [Hs|Hs]; [exact Hs|]. rewrite Hs, E1. reflexivity. }
      eexists. split; [|split].
      + rewrite syncD2H_run, Hs, E1. simpl. reflexivity.
      + simpl. rewrite Hs, E1. reflexivity.
      + intros; lia.
    - assert (Hs : exists rest, t_shape (_state d) = 2 :: rest).
      { destruct Hshape as [Hs|Hs]; rewrite Hs; [eexists; reflexivity|].
        destruct (num_wires d); [lia|]. eexists; reflexivity. }
      destruct Hs as [rest Hs].
      exists (fresh_host_copy K d). split; [|split; [reflexivity|auto]].
      apply (syncD2H_fresh K false d 2 rest Hs).
      pose proof (pow2_ge_4 (num_wires d)). lia. }
  destruct Hrun as (st & Hrun & Hst & Hfresh).
  exists (mk_tensor [2 ^ num_wires d] (t_data st) (t_abstract st)),
    (set_pre_rotated_state st (set_state st d)).
  split; [|split; [|split; [|split; [|split]]]].
  - unfold state, bind, gets. rewrite Hrun. simpl.
    unfold _reshape, _size. rewrite Hst, prod_shape_repeat2. simpl.
    rewrite Nat.shiftl_1_l, Nat.mul_1_r, Nat.eqb_refl.
    reflexivity.
  - reflexivity.
  - intros H2. rewrite (Hfresh H2). reflexivity.
  - reflexivity.
  - reflexivity.
  - right. exact Hst.
Qed.

Lemma state_is_flat_witness :
  exists r d',
    state ref_K (new_device 3 None true) = (Val r, d')
    /\ t_shape r = [8]
    /\ t_data r = repeat Czero 8.
Proof.
  assert (Hn : 1 <= num_wires (new_device 3 None true)) by (vm_compute; lia).
  assert (Hs : host_shape_ok (new_device 3 None true)) by (left; reflexivity).
  destruct (state_is_flat ref_K (new_device 3 None true) Hn Hs)
    as (r & d' & Hrun & Hshape & Hdata & _).
  exists r, d'. split; [exact Hrun|]. split; [exact Hshape|].
  apply Hdata. vm_compute; lia.
Defined.

Lemma state_fresh (K : collaborators) (d : device) (len : nat) (rest : list nat) :
  t_shape (_state d) = len :: rest -> len <> 2 ^ num_wires d ->
  state K d
  = (Val (mk_tensor [2 ^ num_wires d] (t_data (fresh_host_copy K d)) false),
     set_pre_rotated_state (fresh_host_copy K d) (set_state (fresh_host_copy K d) d)).
Proof.
  intros Hs Hl. unfold state. unfold bind at 1, gets at 1. unfold bind at 1.
  rewrite (syncD2H_fresh K false d len rest Hs Hl).
  unfold bind, gets. cbn [_pre_rotated_state set_pre_rotated_state].
  unfold _reshape, _size, fresh_host_copy. cbn [t_shape t_data t_abstract].
  rewrite prod_shape_repeat2. cbn [prod_shape fold_right].
  rewrite Nat.shiftl_1_l, Nat.mul_1_r, Nat.eqb_refl. reflexivity.
Qed.

(** X9.  After [reset], on two wires or more, [state] returns the [2 ** n]
    amplitudes read back from the buffer on which [resetGPU(False)] was just
    called: the two-entry host copy that [reset] stores is never what [state]
    returns. *)
Theorem reset_then_state (K : collaborators) (d d1 : device) :
  super_reset K d = (Val tt, d1) -> 2 <= num_wires d1 ->
  exists d',
    bind (reset K) (fun _ => state K) d
    = (Val (mk_tensor [2 ^ num_wires d1]
              (DeviceToHost K (resetGPU false :: _gpu_state d1)
                 (repeat Czero (2 ^ num_wires d1))) false), d')
    /\ _gpu_state d' = resetGPU false :: _gpu_state d1
    /\ _pre_rotated_state d' = _state d'.
Proof.
  intros Hsuper Hn.
  set (basis := mk_tensor [2] [Cone; Czero] false).
  set (d2 := set_gpu_state (resetGPU false :: _gpu_state d1)
               (set_pre_rotated_state basis (set_state basis d1))).
  assert (Hreset : reset K d = (Val tt, d2)).
  { unfold reset. unfold bind at 1. rewrite Hsuper. reflexivity. }
  eexists. split; [|split].
  - unfold bind at 1. rewrite Hreset.
    rewrite (state_fresh K d2 2 []); [reflexivity|reflexivity|].
    change (num_wires d2) with (num_wires d1).
    pose proof (pow2_ge_4 (num_wires d1)). lia.
  - reflexivity.
  - reflexivity.
Qed.

Lemma reset_then_state_witness :
  exists d',
    bind (reset ref_K) (fun _ => state ref_K) (new_device 2 None true)
    = (Val (mk_tensor [4] (repeat Czero 4) false), d')
    /\ _gpu_state d' = [resetGPU false; setBasisState 0 false].
Proof.
  assert (Hn : 2 <= num_wires (new_device 2 None true)) by (vm_compute; lia).
  destruct (reset_then_state ref_K (new_device 2 None true) (new_device 2 None true)
              eq_refl Hn) as (d' & Hrun & Hg & _).
  exists d'. split; [exact Hrun|exact Hg].
Defined.

(** ** The measurement check *)

Lemma check_measurements_supported (ms : list measurement) (d : device) :
  ms <> [] -> supported_measurements ms = true ->
  _check_adjdiff_supported_measurements ms d = (Val (Some Expectation), d).
Proof.
  intros Hne Hs. unfold supported_measurements in Hs.
  apply andb_true_iff in Hs. destruct Hs as [Hexp Hobs].
  unfold _check_adjdiff_supported_measurements.
  destruct ms as [|m ms]; [congruence|].
  cbn [length Nat.eqb].
  assert (Hstate : Nat.eqb (length ms) 0 && is_state (m_return_type m) = false).
  { simpl in Hexp. apply andb_true_iff in Hexp. destruct Hexp as [Hm _].
    destruct (m_return_type m); try discriminate Hm.
    apply andb_false_r. }
  rewrite Hstate, Hexp. simpl negb. cbv iota.
  unfold bind. change (negb true) with false. cbv beta iota.
  pose proof (check_all_obs_run (m :: ms) d) as Hrun.
  rewrite Hobs in Hrun. rewrite Hrun. reflexivity.
Qed.

(** X10.  [_check_adjdiff_supported_measurements] never touches the device.
    It returns [None] for an empty list and [Expectation] for a non-empty
    list of expectation values none of which is of a Projector or a Hermitian
    observable (alone or inside a tensor product); every other list raises
    [QuantumFunctionError]. *)
Theorem check_measurements_outcome (ms : list measurement) (d : device) :
  (ms = [] -> _check_adjdiff_supported_measurements ms d = (Val None, d))
  /\ (ms <> [] -> supported_measurements ms = true ->
      _check_adjdiff_supported_measurements ms d = (Val (Some Expectation), d))
  /\ (supported_measurements ms = false ->
      exists msg,
        _check_adjdiff_supported_measurements ms d = (Exc (QuantumFunctionError msg), d)).
Proof.
  split; [|split].
  - intros ->. reflexivity.
  - apply check_measurements_supported.
  - intros Hs. pose proof (check_measurements_run ms d) as Hrun.
    rewrite Hs in Hrun. exact Hrun.
Qed.

Lemma check_measurements_outcome_witness :
  _check_adjdiff_supported_measurements [expval_of pauli_z] (new_device 1 None true)
  = (Val (Some Expectation), new_device 1 None true)
  /\ exists msg,
       _check_adjdiff_supported_measurements [mk_measurement State None]
         (new_device 1 None true)
       = (Exc (QuantumFunctionError msg), new_device 1 None true).
Proof.
  split.
  - destruct (check_measurements_outcome [expval_of pauli_z] (new_device 1 None true))
      as (_ & H & _).
    apply H; [discriminate|reflexivity].
  - destruct (check_measurements_outcome [mk_measurement State None]
                (new_device 1 None true)) as (_ & _ & H).
    apply H. reflexivity.
Defined.

(** ** Differentiation on the state that the device holds *)

Lemma warned_trace (dev : device) :
  exists w, warned dev = set_trace (w ++ trace dev) dev.
Proof.
  unfold warned. destruct (shots dev).
  - exists [Warned shots_warning]. reflexivity.
  - exists []. destruct dev; reflexivity.
Qed.

Lemma adjoint_init_state_reuse (K : collaborators) (t : tape) (ss : option tensor)
    (uds : bool) (d : device) :
  ss <> None \/ uds = true -> adjoint_init_state K t ss uds d = (Val tt, d).
Proof.
  intros [H|H]; unfold adjoint_init_state.
  - destruct ss; [reflexivity|congruence].
  - subst uds. destruct ss; reflexivity.
Qed.

(** X11.  When [adjoint_jacobian] is given a starting state, or is told to use
    the state of the device, it leaves the device as it was whatever its
    outcome: the buffer, the host copies, the samples and the settings are
    unchanged; only calls to collaborators are added to the record. *)
Theorem adjoint_jacobian_reuse_frame (K : collaborators) (bo : batch_policy) (t : tape)
    (ss : option tensor) (uds : bool) (dev : device) :
  ss <> None \/ uds = true ->
  exists evs,
    snd (adjoint_jacobian K bo t ss uds dev) = set_trace (evs ++ trace dev) dev.
Proof.
  intros Hreuse. rewrite adjoint_jacobian_prefix.
  destruct (warned_trace dev) as [w Hw].
  unfold bind at 1.
  pose proof (check_measurements_run (measurements t) (warned dev)) as Hm.
  destruct (supported_measurements (measurements t)).
  2:{ destruct Hm as [msg ->]. exists w. simpl. exact Hw. }
  destruct Hm as [rt ->].
  destruct (Nat.eqb (length (trainable_params t)) 0).
  { exists w. simpl. exact Hw. }
  unfold bind at 1. rewrite check_operations_run.
  destruct (find unsupported_op (operations t)).
  { exists w. simpl. exact Hw. }
  unfold bind at 1. rewrite (adjoint_init_state_reuse K t ss uds _ Hreuse).
  destruct (adjoint_differentiate_run K bo t (warned dev)) as (evs & -> & _).
  exists (evs ++ [CreatedOpsList; SerializedOps; SerializedObservables] ++ w).
  simpl snd. rewrite Hw. simpl. rewrite <- !app_assoc. reflexivity.
Qed.

Lemma adjoint_jacobian_reuse_frame_witness :
  exists evs,
    snd (adjoint_jacobian ref_K (BatchBool false) ham_tape None true
           (new_device 2 None true))
    = set_trace (evs ++ trace (new_device 2 None true)) (new_device 2 None true).
Proof.
  apply (adjoint_jacobian_reuse_frame ref_K (BatchBool false) ham_tape None true
           (new_device 2 None true)).
  right. reflexivity.
Defined.

Lemma adjoint_jacobian_inv_val (K : collaborators) (bo : batch_policy) (t : tape)
    (ss : option tensor) (uds : bool) (dev dev' : device) (J : ndarray) :
  trainable_params t <> [] ->
  adjoint_jacobian K bo t ss uds dev = (Val J, dev') ->
  exists d1, adjoint_differentiate K bo t d1 = (Val J, dev').
Proof.
  intros Hne. rewrite adjoint_jacobian_prefix. intros H.
  apply bind_inv_val in H. destruct H as (rt & d0 & _ & H).
  destruct (trainable_params t) as [|tp tps]; [congruence|].
  cbn [length Nat.eqb] in H.
  apply bind_inv_val in H. destruct H as (u & d2 & _ & H).
  apply bind_inv_val in H. destruct H as (u' & d1 & _ & H).
  exists d1. exact H.
Qed.

Lemma filter_nothing {A} (f : A -> bool) (l : list A) :
  forallb (fun x => negb (f x)) l = true -> filter f l = [].
Proof.
  induction l as [|x l IH]; simpl; intros H; [reflexivity|].
  apply andb_true_iff in H. destruct H as [Hx H].
  apply negb_true_iff in Hx. rewrite Hx. auto.
Qed.

(** X12.  When the tape has trainable parameters (listed in increasing
    order) and none of them belongs to an operation that the adjoint method
    differentiates, for instance when only the parameter of a state
    preparation is trainable, [adjoint_jacobian] does not return an empty or
    a zero Jacobian: it raises. *)
Theorem adjoint_jacobian_nothing_differentiable (K : collaborators) (bo : batch_policy)
    (t : tape) (ss : option tensor) (uds : bool) (dev : device) :
  trainable_params t <> [] ->
  sorted (trainable_params t) = trainable_params t ->
  forallb (fun tp => negb (owner_differentiable t tp)) (trainable_params t) = true ->
  exists e, fst (adjoint_jacobian K bo t ss uds dev) = Exc e.
Proof.
  intros Hne Hsorted Hnone.
  destruct (adjoint_jacobian K bo t ss uds dev) as [[J|e] dev'] eqn:H;
    [|exists e; reflexivity].
  exfalso.
  apply adjoint_jacobian_inv_val in H; [|exact Hne]. destruct H as [d1 H].
  apply adjoint_differentiate_inv in H.
  destruct H as (evs & tp & rec & all & jac & _ & _ & Hf & _ & Hasm).
  set (sp := snd (_serialize_ops K t (wires d1) (use_csingle d1))) in *.
  pose proof (stateless_filter_trainable_params t sp) as Hst.
  assert (Hf' : filter_trainable_params t sp d1 = (Val (tp, rec, all), d1)).
  { rewrite (stateless_any _ d1 d1 Hst), Hf. reflexivity. }
  apply filter_trainable_params_inv in Hf'; [|exact Hsorted].
  destruct Hf' as (_ & Htp). rewrite (filter_nothing _ _ Hnone) in Htp.
  assert (Etp : tp = []) by (rewrite Htp; destruct sp; reflexivity).
  clear Htp. subst tp.
  unfold assemble_jacobian, bind, reshape_rows, raise in Hasm. simpl in Hasm.
  discriminate Hasm.
Qed.

Lemma adjoint_jacobian_nothing_differentiable_witness :
  exists e,
    fst (adjoint_jacobian ref_K (BatchBool false) prep_only_tape None true
           (new_device 1 None true)) = Exc e.
Proof.
  apply (adjoint_jacobian_nothing_differentiable ref_K (BatchBool false) prep_only_tape
           None true (new_device 1 None true)).
  - discriminate.
  - reflexivity.
  - reflexivity.
Defined.

(** X13.  When the serializer reports no state preparation, every kernel
    invocation of a call of [adjoint_jacobian] that returns a Jacobian
    receives the trainable positions (in increasing order) that belong to
    differentiable operations, unshifted; there is at least one such
    position. *)
Theorem adjoint_jacobian_positions_unshifted (K : collaborators) (bo : batch_policy)
    (t : tape) (ss : option tensor) (uds : bool) (dev dev' : device) (n : nat)
    (rows : list (list R)) :
  (forall wm cs, snd (_serialize_ops K t wm cs) = false) ->
  sorted (trainable_params t) = trainable_params t ->
  adjoint_jacobian K bo t ss uds dev = (Val (Array2d n rows), dev') ->
  let tp := map Z.of_nat (filter (owner_differentiable t) (trainable_params t)) in
  tp <> []
  /\ exists d1 evs,
       trace dev' = evs ++ trace (differentiation_start d1)
       /\ Forall (kernel_event_with tp) evs.
Proof.
  intros Hsp Hsorted H tp.
  apply adjoint_jacobian_inv in H. destruct H as (_ & d1 & H).
  apply adjoint_differentiate_inv in H.
  destruct H as (evs & tp' & rec & all & jac & Hdev & Hevs & Hf & _ & Hasm).
  rewrite Hsp in Hf.
  pose proof (stateless_filter_trainable_params t false) as Hst.
  assert (Hf' : filter_trainable_params t false d1 = (Val (tp', rec, all), d1)).
  { rewrite (stateless_any _ d1 d1 Hst), Hf. reflexivity. }
  apply filter_trainable_params_inv in Hf'; [|exact Hsorted].
  destruct Hf' as (_ & Htp). fold tp in Htp. subst tp'.
  apply assemble_jacobian_inv in Hasm.
  destruct Hasm as (_ & _ & Hm & _).
  split.
  - intros E. apply Hm. rewrite E. reflexivity.
  - exists d1, evs. split; [rewrite Hdev; reflexivity|exact Hevs].
Qed.

Lemma adjoint_jacobian_positions_unshifted_witness :
  exists n rows dev',
    adjoint_jacobian ref_K (BatchBool false) ham_tape None true (new_device 2 None true)
    = (Val (Array2d n rows), dev')
    /\ exists d1 evs,
         trace dev' = evs ++ trace (differentiation_start d1)
         /\ Forall (kernel_event_with [0%Z; 1%Z]) evs.
Proof.
  eexists. eexists. eexists. split; [vm_compute; reflexivity|].
  destruct (adjoint_jacobian_positions_unshifted ref_K (BatchBool false) ham_tape
              None true (new_device 2 None true) _ _ _
              (fun _ _ => eq_refl) eq_refl eq_refl) as (_ & H).
  exact H.
Defined.

Lemma slice_single_inv {A} (l : list A) (a : nat) (x d : A) :
  slice l a (a + 1) = [x] -> a < length l /\ nth a l d = x.
Proof.
  unfold slice. replace (a + 1 - a) with 1 by lia.
  intros H. destruct (skipn a l) as [|y r] eqn:E; [discriminate H|].
  simpl in H. injection H as ->.
  destruct (skipn_cons_nth _ _ _ _ E) as [Hn _].
  split.
  - apply nth_error_Some. congruence.
  - apply nth_error_nth. exact Hn.
Qed.

(** X14.  When every observable is serialized into one term and every
    trainable parameter (in increasing order) belongs to a differentiable
    operation, the Jacobian that [adjoint_jacobian] returns is the output of
    the kernels cut into rows of one entry per trainable parameter, one row
    per observable: the reduction over the offsets changes nothing. *)
Theorem adjoint_jacobian_plain_observables (K : collaborators) (bo : batch_policy)
    (t : tape) (ss : option tensor) (uds : bool) (dev dev' : device) (n : nat)
    (rows : list (list R)) :
  (forall wm cs,
     snd (_serialize_observables K t wm cs) = seq 0 (num_observables t + 1)) ->
  sorted (trainable_params t) = trainable_params t ->
  forallb (owner_differentiable t) (trainable_params t) = true ->
  adjoint_jacobian K bo t ss uds dev = (Val (Array2d n rows), dev') ->
  n = length (trainable_params t)
  /\ exists d1 jac,
       kernel_result K bo (use_csingle d1) (_gpu_state d1)
         (fst (_serialize_observables K t (wires d1) (use_csingle d1)))
         (create_ops_list K (fst (_serialize_ops K t (wires d1) (use_csingle d1))))
         ((if snd (_serialize_ops K t (wires d1) (use_csingle d1))
           then map (fun i => (i - 1)%Z) else fun l => l)
            (map Z.of_nat (trainable_params t)))
       = Val jac
       /\ rows = firstn (num_observables t) (chunk_rows (length jac) n jac).
Proof.
  intros Hoff Hsorted Hall H.
  apply adjoint_jacobian_inv in H. destruct H as (_ & d1 & H).
  apply adjoint_differentiate_inv in H.
  destruct H as (evs & tp & rec & all & jac & _ & _ & Hf & Hk & Hasm).
  set (sp := snd (_serialize_ops K t (wires d1) (use_csingle d1))) in *.
  pose proof (stateless_filter_trainable_params t sp) as Hst.
  assert (Hf' : filter_trainable_params t sp d1 = (Val (tp, rec, all), d1)).
  { rewrite (stateless_any _ d1 d1 Hst), Hf. reflexivity. }
  apply filter_trainable_params_inv in Hf'; [|exact Hsorted].
  destruct Hf' as (Eall & Htp).
  assert (Hkept : filter (owner_differentiable t) (trainable_params t)
                  = trainable_params t).
  { clear - Hall. induction (trainable_params t) as [|x l IH]; simpl in *; auto.
    apply andb_true_iff in Hall. destruct Hall as [Hx Hl]. rewrite Hx, IH; auto. }
  rewrite Hkept in Htp.
  assert (Hlen : length tp = length (trainable_params t)).
  { rewrite Htp. destruct sp; rewrite ?length_map; reflexivity. }
  pose proof (assemble_jacobian_term_rows _ _ _ _ _ _ _ _ Hasm) as Hterm.
  apply assemble_jacobian_inv in Hasm.
  destruct Hasm as (_ & En & _ & Hrows & _ & Hred).
  rewrite Hoff, length_seq in Hred.
  assert (Ecols : length tp = n) by congruence.
  split; [congruence|].
  exists d1, jac. split; [rewrite Htp in Hk; exact Hk|].
  rewrite Ecols in *.
  set (term_rows := chunk_rows (length jac) n jac) in *.
  assert (Hrow : forall idx, idx < num_observables t ->
                   idx < length term_rows /\ nth idx rows [] = nth idx term_rows []).
  { intros idx Hidx. specialize (Hred idx ltac:(lia)). unfold reduced_row in Hred.
    rewrite !seq_nth in Hred by lia. simpl in Hred.
    replace (Z.ltb 1 (Z.of_nat (idx + 1) - Z.of_nat idx)) with false in Hred
      by (symmetry; apply Z.ltb_ge; lia).
    destruct Hred as (row & Hslice & Hrow).
    destruct (slice_single_inv _ _ _ [] Hslice) as [Hlt Hnth].
    split; [exact Hlt|]. rewrite Hnth.
    apply (row_is_same_length _ _ _ Hrow).
    rewrite Forall_forall in Hterm. apply Hterm.
    apply (In_slice _ idx (idx + 1)). rewrite Hslice. left. reflexivity. }
  assert (Hfit : num_observables t <= length term_rows).
  { destruct (num_observables t) as [|k] eqn:Ek; [lia|].
    destruct (Hrow k ltac:(lia)). lia. }
  apply (nth_ext _ _ [] []).
  - rewrite length_firstn. lia.
  - intros idx Hidx. rewrite Hrows in Hidx.
    rewrite (proj2 (Hrow idx Hidx)). rewrite nth_firstn.
    replace (Nat.ltb idx (num_observables t)) with true
      by (symmetry; apply Nat.ltb_lt; exact Hidx).
    reflexivity.
Qed.

Lemma adjoint_jacobian_plain_observables_witness :
  exists n rows dev',
    adjoint_jacobian ref_K (BatchBool false) two_z_tape None true (new_device 2 None true)
    = (Val (Array2d n rows), dev')
    /\ n = 2.
Proof.
  eexists. eexists. eexists. split; [vm_compute; reflexivity|].
  destruct (adjoint_jacobian_plain_observables ref_K (BatchBool false) two_z_tape
              None true (new_device 2 None true) _ _ _
              (fun _ _ => eq_refl) eq_refl eq_refl eq_refl) as (Hn & _).
  exact Hn.
Defined.

(** ** Measurements and the device buffer *)

Lemma sample_run (K : collaborators) (ob : observable) (opts : sample_opts) (d : device) :
  pyname_eqb_str (ob_name ob) "PauliZ" = false ->
  forallb (runnable K (wires d)) (ob_diagonalizing_gates ob) = true ->
  let g := rev (gate_calls K (wires d) (ob_diagonalizing_gates ob)) ++ _gpu_state d in
  sample K ob opts d
  = super_sample K ob opts
      (set_samples (Some (GenerateSamples K (length (wires d)) (shots d) g))
         (set_gpu_state g d)).
Proof.
  intros Hz Hrun g. unfold sample. rewrite Hz. simpl negb. cbv iota.
  unfold bind at 1. unfold bind at 1.
  rewrite (apply_cq_runnable K _ d Hrun). fold g.
  reflexivity.
Qed.

(** X15.  The rotation that [sample] applies to the buffer accumulates: when
    the inherited [sample] leaves the device alone and the diagonalizing
    gates of an observable other than PauliZ can be replayed, a first call
    puts their kernel calls on the buffer and a second call puts them there
    again, on top of the first ones. *)
Theorem sample_twice_rotates_twice (K : collaborators) (ob : observable)
    (opts1 opts2 : sample_opts) (dev d1 : device) (s1 : list R) :
  pyname_eqb_str (ob_name ob) "PauliZ" = false ->
  forallb (runnable K (wires dev)) (ob_diagonalizing_gates ob) = true ->
  (forall opts d, snd (super_sample K ob opts d) = d) ->
  sample K ob opts1 dev = (Val s1, d1) ->
  let calls := gate_calls K (wires dev) (ob_diagonalizing_gates ob) in
  _gpu_state d1 = rev calls ++ _gpu_state dev
  /\ _gpu_state (snd (sample K ob opts2 d1)) = rev calls ++ rev calls ++ _gpu_state dev.
Proof.
  intros Hz Hrun Hsuper H1 calls.
  rewrite (sample_run K ob opts1 dev Hz Hrun) in H1.
  assert (Ed1 : d1 = set_samples
                       (Some (GenerateSamples K (length (wires dev)) (shots dev)
                                (rev calls ++ _gpu_state dev)))
                       (set_gpu_state (rev calls ++ _gpu_state dev) dev)).
  { fold calls in H1. pose proof (Hsuper opts1
       (set_samples
          (Some (GenerateSamples K (length (wires dev)) (shots dev)
                   (rev calls ++ _gpu_state dev)))
          (set_gpu_state (rev calls ++ _gpu_state dev) dev))) as Hd.
    rewrite H1 in Hd. exact Hd. }
  split; [rewrite Ed1; reflexivity|].
  assert (Hrun1 : forallb (runnable K (wires d1)) (ob_diagonalizing_gates ob) = true).
  { rewrite Ed1. exact Hrun. }
  rewrite (sample_run K ob opts2 d1 Hz Hrun1), Hsuper.
  rewrite Ed1. reflexivity.
Qed.

Lemma expval_analytic_state (K : collaborators) (ob : observable) (opts : sample_opts)
    (dev : device) :
  shots dev = None ->
  pyname_eqb_str (ob_name ob) "Projector" || pyname_eqb_str (ob_name ob) "Hermitian"
  = false ->
  snd (expval K ob opts dev) = dev.
Proof.
  intros Hs Hn. unfold expval. rewrite Hn.
  unfold bind at 1, gets at 1. rewrite Hs.
  unfold bind at 1, gets at 1.
  destruct (pyname_eqb_str (ob_name ob) "SparseHamiltonian"); [reflexivity|].
  destruct (pyname_eqb_str (ob_name ob) "Hamiltonian").
  - unfold bind at 1, map_wires, wires_indices.
    destruct (indices (wires dev) (ob_wires ob)) as [dw|]; [|reflexivity].
    destruct (Nat.ltb 13 (length dw)); [|reflexivity].
    unfold bind.
    destruct (compress_words_run (ob_ops ob) dev) as [(pw & -> & _)|(w & n & _ & _ & _ & ->)];
      reflexivity.
  - unfold bind, wires_indices.
    destruct (indices (wires dev) (ob_wires ob)); reflexivity.
Qed.

Lemma var_analytic_state (K : collaborators) (ob : observable) (opts : sample_opts)
    (dev : device) :
  shots dev = None -> snd (var K ob opts dev) = dev.
Proof.
  intros Hs. unfold var. unfold bind at 1, gets at 1. rewrite Hs.
  unfold bind, wires_indices, gets.
  destruct (indices (wires dev) (ob_wires ob)) eqn:E; [|reflexivity].
  rewrite E. reflexivity.
Qed.

(** X16.  Without shots, [expval] of an observable that is neither a
    Projector nor a Hermitian and [var] of any observable leave the device as
    it was, whether they return or raise; [var] of an observable on a wire
    that the device does not have raises [WireError]. *)
Theorem analytic_measurements_read_only (K : collaborators) (ob : observable)
    (opts : sample_opts) (dev : device) :
  shots dev = None ->
  (pyname_eqb_str (ob_name ob) "Projector" || pyname_eqb_str (ob_name ob) "Hermitian"
   = false ->
   snd (expval K ob opts dev) = dev)
  /\ snd (var K ob opts dev) = dev
  /\ (indices (wires dev) (ob_wires ob) = None ->
      fst (var K ob opts dev) = Exc WireError).
Proof.
  intros Hs. split; [|split].
  - apply expval_analytic_state. exact Hs.
  - apply var_analytic_state. exact Hs.
  - intros Hw. unfold var. unfold bind at 1, gets at 1. rewrite Hs.
    unfold bind, wires_indices. rewrite Hw. reflexivity.
Qed.

Lemma sample_twice_rotates_twice_witness :
  exists s1 d1,
    sample ref_K pauli_x no_opts (new_device 1 (Some 10) true) = (Val s1, d1)
    /\ _gpu_state (snd (sample ref_K pauli_x no_opts d1))
       = [named_gate "Hadamard" [0] false []; named_gate "Hadamard" [0] false [];
          setBasisState 0 false].
Proof.
  eexists. eexists. split; [reflexivity|].
  exact (proj2 (sample_twice_rotates_twice ref_K pauli_x no_opts no_opts
                  (new_device 1 (Some 10) true) _ _ eq_refl eq_refl
                  (fun _ _ => eq_refl) eq_refl)).
Defined.

Lemma analytic_measurements_read_only_witness :
  snd (expval ref_K pauli_z no_opts (new_device 1 None true)) = new_device 1 None true
  /\ snd (var ref_K pauli_z no_opts (new_device 1 None true)) = new_device 1 None true.
Proof.
  destruct (analytic_measurements_read_only ref_K pauli_z no_opts
              (new_device 1 None true) eq_refl) as (He & Hv & _).
  split; [exact (He eq_refl)|exact Hv].
Defined.

(** ** The bit-index shuffle of the probabilities *)

Lemma seq_shift_add (a n k : nat) : map (fun i => i + k) (seq a n) = seq (a + k) n.
Proof.
  revert a; induction n as [|n IH]; intros a; simpl; [reflexivity|].
  rewrite IH. reflexivity.
Qed.

(** [product01 k] lists the bit rows in the order of their index. *)
Lemma ravel_product01 (k : nat) :
  map (fun idx => Z.to_nat (ravel_bits idx)) (product01 k) = seq 0 (2 ^ k).
Proof.
  induction k as [|k IH]; [reflexivity|].
  cbn [product01]. rewrite map_app, !map_map.
  rewrite (map_ext_in _ (fun idx => Z.to_nat (ravel_bits idx))).
  2:{ intros idx Hidx. simpl. reflexivity. }
  rewrite (map_ext_in (fun x => Z.to_nat (ravel_bits (1 :: x)))
             (fun idx => Z.to_nat (ravel_bits idx) + 2 ^ k)).
  2:{ intros idx Hidx. destruct (product01_rows _ _ Hidx) as [Hl Hb].
      pose proof (ravel_bits_bounds idx Hb) as B.
      cbn [ravel_bits]. rewrite Hl.
      change (Z.of_nat 1) with 1%Z. rewrite Z.mul_1_l.
      change 2%Z with (Z.of_nat 2). rewrite <- Nat2Z.inj_pow.
      rewrite Z2Nat.inj_add by lia. rewrite Nat2Z.id. lia. }
  rewrite IH, <- (map_map (fun idx => Z.to_nat (ravel_bits idx)) (fun i => i + 2 ^ k)).
  rewrite IH, seq_shift_add. simpl Nat.add.
  rewrite Nat.pow_succ_r'. replace (2 * 2 ^ k) with (2 ^ k + 2 ^ k) by lia.
  rewrite seq_app. reflexivity.
Qed.

Lemma bit_row_rev (idx : list nat) : bit_row idx -> bit_row (rev idx).
Proof. unfold bit_row. apply Forall_rev. Qed.

Lemma ravel_index_lt (k : nat) (idx : list nat) :
  length idx = k -> bit_row idx -> Z.to_nat (ravel_bits idx) < 2 ^ k.
Proof.
  intros Hl Hb. pose proof (ravel_bits_bounds idx Hb) as B. rewrite Hl in B.
  change 2%Z with (Z.of_nat 2) in B. rewrite <- Nat2Z.inj_pow in B. lia.
Qed.

(** The bit row at the index of a bit row is that row. *)
Lemma nth_product01 (k : nat) (idx : list nat) :
  length idx = k -> bit_row idx ->
  nth (Z.to_nat (ravel_bits idx)) (product01 k) [] = idx.
Proof.
  intros Hl Hb. pose proof (ravel_index_lt k idx Hl Hb) as Hlt.
  set (i := Z.to_nat (ravel_bits idx)) in *.
  assert (Hin : In (nth i (product01 k) []) (product01 k)).
  { apply nth_In. rewrite length_product01. exact Hlt. }
  destruct (product01_rows _ _ Hin) as [Hl' Hb'].
  apply ravel_bits_inj; auto; [congruence|].
  pose proof (ravel_bits_bounds _ Hb') as B'. pose proof (ravel_bits_bounds _ Hb) as B.
  apply Z2Nat.inj; try lia.
  fold i.
  rewrite <- (map_nth (fun idx => Z.to_nat (ravel_bits idx)) (product01 k) [] i).
  rewrite ravel_product01. simpl ravel_bits. apply seq_nth. exact Hlt.
Qed.

Lemma map_nth_seq {A} (a : list A) (d : A) :
  map (fun i => nth i a d) (seq 0 (length a)) = a.
Proof.
  apply (nth_ext _ _ d d).
  - rewrite length_map, length_seq. reflexivity.
  - intros i Hi. rewrite length_map, length_seq in Hi.
    rewrite (nth_indep _ d (nth 0 a d)) by (rewrite length_map, length_seq; exact Hi).
    rewrite (map_nth (fun i => nth i a d) (seq 0 (length a)) 0 i).
    rewrite seq_nth by exact Hi. reflexivity.
Qed.

Lemma entries_in_order (k : nat) (a : list R) :
  length a = 2 ^ k -> map (entry a) (product01 k) = a.
Proof.
  intros Hl. unfold entry.
  rewrite <- (map_map (fun idx => Z.to_nat (ravel_bits idx)) (fun i => nth i a 0%R)).
  rewrite ravel_product01, <- Hl. apply map_nth_seq.
Qed.

Lemma length_transpose_flat (k : nat) (a : list R) :
  length (transpose_flat k a) = 2 ^ k.
Proof. unfold transpose_flat. rewrite length_map. apply length_product01. Qed.


Lemma reversed_indices_permutation (k : nat) :
  Permutation (reversed_indices k) (seq 0 (2 ^ k)).
Proof.
  unfold reversed_indices. apply NoDup_Permutation_bis.
  - apply NoDup_map_NoDup_ForallPairs; [|apply NoDup_product01].
    intros x y Hx Hy E.
    destruct (product01_rows _ _ Hx) as [Lx Bx].
    destruct (product01_rows _ _ Hy) as [Ly By].
    pose proof (ravel_bits_bounds _ (bit_row_rev _ Bx)).
    pose proof (ravel_bits_bounds _ (bit_row_rev _ By)).
    apply Z2Nat.inj in E; try lia.
    apply ravel_bits_inj in E; auto using bit_row_rev.
    + rewrite <- (rev_involutive x), <- (rev_involutive y), E. reflexivity.
    + rewrite !length_rev. congruence.
  - rewrite length_map, length_seq, length_product01. lia.
  - intros i Hi. apply in_map_iff in Hi. destruct Hi as (idx & <- & Hidx).
    destruct (product01_rows _ _ Hidx) as [L B].
    apply in_seq. split; [lia|]. simpl.
    apply ravel_index_lt; [rewrite length_rev; exact L|apply bit_row_rev; exact B].
Qed.

Lemma transpose_flat_permutation (k : nat) (a : list R) :
  length a = 2 ^ k -> Permutation (transpose_flat k a) a.
Proof.
  intros Hl.
  assert (E : transpose_flat k a = map (fun i => nth i a 0%R) (reversed_indices k)).
  { unfold transpose_flat, reversed_indices, entry. rewrite map_map. reflexivity. }
  rewrite E.
  apply (Permutation_trans (l' := map (fun i => nth i a 0%R) (seq 0 (2 ^ k)))).
  - apply Permutation_map. apply reversed_indices_permutation.
  - rewrite <- Hl, map_nth_seq. apply Permutation_refl.
Qed.

Lemma sum_R_permutation (l1 l2 : list R) :
  Permutation l1 l2 -> sum_R l1 = sum_R l2.
Proof.
  induction 1; simpl; try lra; congruence.
Qed.

(** X17.  The bit-index shuffle that [probability] applies to the output of
    the kernel, [reshape([2] * k).transpose().reshape(-1)], is its own
    inverse on arrays of [2 ** k] entries, and it is the identity for at most
    one wire. *)
Theorem transpose_flat_involutive (k : nat) (a : list R) :
  length a = 2 ^ k ->
  transpose_flat k (transpose_flat k a) = a
  /\ (k <= 1 -> transpose_flat k a = a).
Proof.
  intros Hl. split.
  - rewrite <- (entries_in_order k a Hl) at 2.
    unfold transpose_flat at 1. apply map_ext_in. intros idx Hidx.
    destruct (product01_rows _ _ Hidx) as [L B].
    unfold entry at 1.
    rewrite (nth_indep _ 0%R (entry a (rev []))).
    2:{ rewrite length_transpose_flat.
        apply ravel_index_lt; [rewrite length_rev; exact L|apply bit_row_rev; exact B]. }
    unfold transpose_flat.
    rewrite (map_nth (fun idx => entry a (rev idx)) (product01 k) []).
    rewrite nth_product01; [|rewrite length_rev; exact L|apply bit_row_rev; exact B].
    rewrite rev_involutive. reflexivity.
  - intros Hk. rewrite <- (entries_in_order k a Hl) at 2.
    unfold transpose_flat. apply map_ext_in. intros idx Hidx.
    destruct (product01_rows _ _ Hidx) as [L B].
    destruct idx as [|x [|y idx]]; simpl in *; try reflexivity. lia.
Qed.

Lemma transpose_flat_involutive_witness :
  transpose_flat 2 (transpose_flat 2 [1%R; 2%R; 3%R; 4%R]) = [1%R; 2%R; 3%R; 4%R].
Proof.
  exact (proj1 (transpose_flat_involutive 2 [1%R; 2%R; 3%R; 4%R] eq_refl)).
Defined.

Example transpose_flat_2 :
  transpose_flat 2 [1%R; 2%R; 3%R; 4%R] = [1%R; 3%R; 2%R; 4%R].
Proof. reflexivity. Qed.

Lemma nodupb_NoDup (l : list nat) : nodupb l = true <-> NoDup l.
Proof.
  induction l as [|x l IH]; simpl.
  - split; [constructor|reflexivity].
  - rewrite andb_true_iff, negb_true_iff, IH, NoDup_cons_iff.
    assert (E : existsb (Nat.eqb x) l = false <-> ~ In x l).
    { split.
      - intros H Hin. assert (existsb (Nat.eqb x) l = true); [|congruence].
        apply existsb_exists. exists x. split; [exact Hin|apply Nat.eqb_refl].
      - intros H. destruct (existsb (Nat.eqb x) l) eqn:Ex; [|reflexivity].
        apply existsb_exists in Ex. destruct Ex as (y & Hy & Exy).
        apply Nat.eqb_eq in Exy. subst y. contradiction. }
    rewrite E. reflexivity.
Qed.

Lemma probability_run (P : readout) (ws : option (list wire)) (opts : sample_opts)
    (dev : device) :
  shots dev = None ->
  let labels := probability_wires dev ws in
  probability P ws opts dev
  = if match ws with Some (_ :: _) => negb (nodupb labels) | _ => false end
    then (Exc WireError, dev)
    else match indices (wires dev) labels with
         | None => (Exc WireError, dev)
         | Some dw =>
             let a := Probability P dw (_gpu_state dev) in
             if Nat.eqb (length a) (2 ^ length labels)
             then (Val (transpose_flat (length labels) a), dev)
             else (Exc (ValueError "cannot reshape array"), dev)
         end.
Proof.
  intros Hs labels. unfold probability. unfold bind at 1, gets at 1. rewrite Hs.
  unfold bind at 1.
  assert (Hw : (match ws with
                | Some (w :: rest) => Wires (w :: rest)
                | _ => gets wires
                end) dev
               = if match ws with Some (_ :: _) => negb (nodupb labels) | _ => false end
                 then (Exc WireError, dev) else (Val labels, dev)).
  { unfold labels, probability_wires, Wires. destruct ws as [[|w rest]|]; try reflexivity.
    destruct (nodupb (w :: rest)); reflexivity. }
  rewrite Hw.
  destruct (match ws with Some (_ :: _) => negb (nodupb labels) | _ => false end);
    [reflexivity|].
  unfold bind at 1, map_wires, wires_indices.
  destruct (indices (wires dev) labels) as [dw|]; [|reflexivity].
  unfold bind, gets, reshape_bits. cbv zeta.
  destruct (Nat.eqb (length (Probability P dw (_gpu_state dev))) (2 ^ length labels));
    reflexivity.
Qed.

(** X18.  Without shots, a call of [probability] that returns leaves the
    device as it was and returns the [2 ** k] probabilities of the kernel for
    the device positions of the requested wires (all the wires of the device
    when none, or an empty list, is given), rearranged by the bit-index
    shuffle: the same entries in another order, hence with the same sum. *)
Theorem probability_is_rearrangement (P : readout) (ws : option (list wire))
    (opts : sample_opts) (dev dev' : device) (p : list R) :
  shots dev = None ->
  probability P ws opts dev = (Val p, dev') ->
  let labels := probability_wires dev ws in
  dev' = dev
  /\ exists dw,
       indices (wires dev) labels = Some dw
       /\ let a := Probability P dw (_gpu_state dev) in
          p = transpose_flat (length labels) a
          /\ length p = 2 ^ length labels
          /\ Permutation p a
          /\ sum_R p = sum_R a.
Proof.
  intros Hs H labels. rewrite (probability_run P ws opts dev Hs) in H.
  fold labels in H.
  destruct (match ws with Some (_ :: _) => negb (nodupb labels) | _ => false end);
    [discriminate H|].
  destruct (indices (wires dev) labels) as [dw|]; [|discriminate H].
  cbv zeta in H.
  destruct (Nat.eqb (length (Probability P dw (_gpu_state dev))) (2 ^ length labels))
    eqn:El; [|discriminate H].
  apply Nat.eqb_eq in El. injection H as <- <-.
  split; [reflexivity|]. exists dw. split; [reflexivity|]. cbv zeta.
  pose proof (transpose_flat_permutation _ _ El) as Hperm.
  split; [reflexivity|]. split; [apply length_transpose_flat|].
  split; [exact Hperm|]. apply sum_R_permutation. exact Hperm.
Qed.

Lemma probability_is_rearrangement_witness :
  exists p,
    probability ref_readout (Some [1; 0]) no_opts (new_device 2 None true)
    = (Val p, new_device 2 None true)
    /\ length p = 4
    /\ sum_R p = sum_R [1%R; 0%R; 0%R; 0%R].
Proof.
  eexists. split; [reflexivity|].
  destruct (probability_is_rearrangement ref_readout (Some [1; 0]) no_opts
              (new_device 2 None true) _ _ eq_refl eq_refl)
    as (_ & dw & Hdw & _ & Hlen & _ & Hsum).
  injection Hdw as <-. split; [exact Hlen|exact Hsum].
Defined.

(** X19.  Without shots, [probability] on a non-empty list of labels raises
    [WireError] when a label is repeated or is not a wire of the device, and
    [ValueError] when the kernel does not return [2 ** k] entries for [k]
    wires; the device is left as it was. *)
Theorem probability_rejects (P : readout) (ws : list wire) (opts : sample_opts)
    (dev : device) :
  shots dev = None -> ws <> [] ->
  (~ NoDup ws \/ indices (wires dev) ws = None ->
   probability P (Some ws) opts dev = (Exc WireError, dev))
  /\ (forall dw, NoDup ws -> indices (wires dev) ws = Some dw ->
        length (Probability P dw (_gpu_state dev)) <> 2 ^ length ws ->
        exists msg, probability P (Some ws) opts dev = (Exc (ValueError msg), dev)).
Proof.
  intros Hs Hne. destruct ws as [|w rest]; [congruence|].
  rewrite (probability_run P _ opts dev Hs). cbn [probability_wires].
  split.
  - intros [Hd|Hi].
    + destruct (nodupb (w :: rest)) eqn:E; [|reflexivity].
      apply nodupb_NoDup in E. contradiction.
    + destruct (negb (nodupb (w :: rest))); [reflexivity|]. rewrite Hi. reflexivity.
  - intros dw Hd Hi Hl. apply nodupb_NoDup in Hd. rewrite Hd, Hi. simpl negb. cbv iota zeta.
    apply Nat.eqb_neq in Hl. rewrite Hl. eexists. reflexivity.
Qed.

Lemma probability_rejects_witness :
  probability ref_readout (Some [0; 0]) no_opts (new_device 2 None true)
  = (Exc WireError, new_device 2 None true).
Proof.
  assert (Hne : [0; 0] <> []) by discriminate.
  destruct (probability_rejects ref_readout [0; 0] no_opts (new_device 2 None true)
              eq_refl Hne) as [H _].
  apply H. left. intros Hd. inversion Hd as [|? ? Hnotin _]; subst.
  apply Hnotin. left. reflexivity.
Defined.

(** ** Vector-Jacobian products *)

Lemma vjp_run (meas : list measurement) (dy : cotangent)
    (Hamiltonian : list R -> list (option observable) -> observable) (dev : device) :
  (supported_measurements meas = false ->
   exists msg, vjp Hamiltonian meas dy dev = (Exc (QuantumFunctionError msg), warned dev))
  /\ (supported_measurements meas = true ->
      vjp Hamiltonian meas dy dev
      = if allclose_zero dy || Nat.eqb (length meas) 0
        then (Val zero_vjp, warned dev)
        else if negb (Nat.eqb (length (dy_data dy)) (length meas))
        then (Exc dy_length_error, warned dev)
        else if dy_complex dy
        then (Exc dy_complex_error, warned dev)
        else (Val (processing_fn (Hamiltonian (map fst (dy_data dy)) (map m_obs meas))),
              warned dev)).
Proof.
  assert (E : forall k : option return_type -> M vjp_function,
             bind (gets shots)
               (fun sh => bind (match sh with
                                | Some _ => warn shots_warning
                                | None => ret tt
                                end)
                            (fun _ => bind (_check_adjdiff_supported_measurements meas) k))
               dev
             = bind (_check_adjdiff_supported_measurements meas) k (warned dev)).
  { intros k. unfold bind at 1, gets at 1.
    unfold warned, warn, log_event, modify, bind at 1.
    destruct (shots dev); reflexivity. }
  unfold vjp. rewrite E. clear E. split; intros Hs.
  - pose proof (check_measurements_run meas (warned dev)) as Hrun.
    rewrite Hs in Hrun. destruct Hrun as [msg Hm].
    exists msg. unfold bind. rewrite Hm. reflexivity.
  - destruct meas as [|m ms].
    + unfold bind. cbn [_check_adjdiff_supported_measurements length Nat.eqb].
      unfold ret at 1. rewrite !orb_true_r. reflexivity.
    + unfold bind.
      rewrite (check_measurements_supported (m :: ms) (warned dev) ltac:(discriminate) Hs).
      cbn [length Nat.eqb]. rewrite !orb_false_r.
      destruct (allclose_zero dy); [reflexivity|].
      destruct (negb (Nat.eqb (length (dy_data dy)) (S (length ms)))); [reflexivity|].
      destruct (dy_complex dy); reflexivity.
Qed.

Lemma Cabs_zero : Cabs (IZC 0) = 0%R.
Proof.
  unfold Cabs, Cnorm2, IZC. simpl.
  replace (0 * 0 + 0 * 0)%R with 0%R by ring. apply sqrt_0.
Qed.

Lemma Cabs_sub_zero (z : C) : Cabs (Csub z (IZC 0)) = Cabs z.
Proof.
  unfold Cabs. f_equal. unfold Cnorm2, Csub, IZC. simpl. ring.
Qed.

Lemma allclose_zero_spec (dy : cotangent) :
  allclose_zero dy = true
  <-> Forall (fun z => (Cabs z <= default_atol)%R) (dy_data dy).
Proof.
  unfold allclose_zero. rewrite forallb_forall, Forall_forall.
  split; intros H z Hz; specialize (H z Hz).
  - apply Rleb_true_iff in H. rewrite Cabs_sub_zero, Cabs_zero in H. lra.
  - apply Rleb_true_iff. rewrite Cabs_sub_zero, Cabs_zero. lra.
Qed.

(** X20.  [vjp] checks the measurements first: an unsupported list raises
    [QuantumFunctionError] even for a zero cotangent.  For supported
    measurements it returns the function that yields zeros when there is no
    measurement or when every entry of [dy] is within [1e-8] of zero,
    whatever the length of [dy].  Otherwise a [dy] whose length is not the
    number of measurements raises [ValueError], a complex [dy] of the right
    length raises [ValueError], and a real one gives the processing function
    around [Hamiltonian(dy, observables)].  The device is only warned about
    finite shots. *)
Theorem vjp_outcome (meas : list measurement) (dy : cotangent)
    (Hamiltonian : list R -> list (option observable) -> observable) (dev : device) :
  (supported_measurements meas = false ->
   exists msg, vjp Hamiltonian meas dy dev = (Exc (QuantumFunctionError msg), warned dev))
  /\ (supported_measurements meas = true ->
      (Forall (fun z => (Cabs z <= default_atol)%R) (dy_data dy) \/ meas = [] ->
       vjp Hamiltonian meas dy dev = (Val zero_vjp, warned dev))
      /\ (~ Forall (fun z => (Cabs z <= default_atol)%R) (dy_data dy) -> meas <> [] ->
          (length (dy_data dy) <> length meas ->
           vjp Hamiltonian meas dy dev = (Exc dy_length_error, warned dev))
          /\ (length (dy_data dy) = length meas -> dy_complex dy = true ->
              vjp Hamiltonian meas dy dev = (Exc dy_complex_error, warned dev))
          /\ (length (dy_data dy) = length meas -> dy_complex dy = false ->
              vjp Hamiltonian meas dy dev
              = (Val (processing_fn (Hamiltonian (map fst (dy_data dy))
                                       (map m_obs meas))),
                 warned dev)))).
Proof.
  destruct (vjp_run meas dy Hamiltonian dev) as [Hbad Hgood].
  split; [exact Hbad|]. intros Hs. rewrite (Hgood Hs). clear Hbad Hgood.
  split.
  - intros [Hz| ->].
    + apply allclose_zero_spec in Hz. rewrite Hz. reflexivity.
    + rewrite orb_true_r. reflexivity.
  - intros Hz Hne.
    assert (Ez : allclose_zero dy = false).
    { destruct (allclose_zero dy) eqn:E; [|reflexivity].
      apply allclose_zero_spec in E. contradiction. }
    assert (El : Nat.eqb (length meas) 0 = false).
    { destruct meas; [congruence|reflexivity]. }
    rewrite Ez, El. simpl orb. cbv iota.
    split; [|split].
    + intros Hl. apply Nat.eqb_neq in Hl. rewrite Hl. reflexivity.
    + intros Hl Hc. rewrite Hl, Nat.eqb_refl, Hc. reflexivity.
    + intros Hl Hc. rewrite Hl, Nat.eqb_refl, Hc. reflexivity.
Qed.

Lemma length_insert_sorted (x : nat) (l : list nat) :
  length (insert_sorted x l) = S (length l).
Proof.
  induction l as [|y l IH]; simpl; [reflexivity|].
  destruct (Nat.leb x y); simpl; auto.
Qed.

Lemma length_sorted (l : list nat) : length (sorted l) = length l.
Proof.
  induction l as [|x l IH]; [reflexivity|].
  change (sorted (x :: l)) with (insert_sorted x (sorted l)).
  rewrite length_insert_sorted, IH. reflexivity.
Qed.

Lemma trainable_loop_count (t : tape) (tps : list nat) (op_idx : nat)
    (acc acc' : list Z * list nat * nat) (d d' : device) :
  trainable_loop t op_idx tps acc d = (Val acc', d') ->
  snd acc' = snd acc + length tps.
Proof.
  revert op_idx acc d; induction tps as [|tp rest IH]; intros op_idx acc d H.
  - simpl in H. injection H as <- _. simpl. lia.
  - simpl in H. apply bind_inv_val in H. destruct H as (op & d1 & _ & H).
    destruct acc as [[a b] c].
    apply IH in H. rewrite H. destruct (differentiable_op op); simpl; lia.
Qed.

Lemma filter_trainable_params_count (t : tape) (sp : bool) (tp : list Z)
    (rec : list nat) (all : nat) (d : device) :
  fst (filter_trainable_params t sp d) = Val (tp, rec, all) ->
  all = length (trainable_params t).
Proof.
  unfold filter_trainable_params, bind.
  destruct (trainable_loop t 0 (sorted (trainable_params t)) ([], [], 0) d)
    as [[[[a b] c]|e] d1] eqn:E; simpl; [|discriminate].
  intros H. injection H as _ _ <-.
  apply trainable_loop_count in E. simpl in E. rewrite length_sorted in E. exact E.
Qed.

Lemma assemble_jacobian_shape (jac : list R) (m : nat) (offsets : list nat)
    (n_obs all : nat) (J : ndarray) (d d' : device) :
  assemble_jacobian jac m offsets n_obs all d = (Val J, d') ->
  exists rows, J = Array2d all rows.
Proof.
  unfold assemble_jacobian. intros H.
  apply bind_inv_val in H. destruct H as (r & d1 & _ & H).
  apply bind_inv_val in H. destruct H as (jr & d2 & _ & H).
  injection H as <- _. eexists. reflexivity.
Qed.

Lemma length_concat_rows (n : nat) (rows : list (list R)) :
  Forall (fun r => length r = n) rows -> length (concat rows) = length rows * n.
Proof.
  induction 1 as [|r rows Hr _ IH]; simpl; [reflexivity|].
  rewrite length_app, IH, Hr. reflexivity.
Qed.

(** X21.  Whenever the function that [vjp] returned yields a result for a
    tape, the result has one entry per trainable parameter of the tape.  The
    zero function returns zeros and leaves the device alone; for a tape with
    no trainable parameter the processing function returns the empty array
    without calling [adjoint_jacobian]. *)
Theorem call_vjp_length (K : collaborators) (bo : batch_policy) (f : vjp_function)
    (ss : option tensor) (uds : bool) (t : tape) (dev dev' : device) (v : list R) :
  call_vjp K bo f ss uds t dev = (Val v, dev') ->
  length v = length (trainable_params t)
  /\ (f = zero_vjp -> dev' = dev /\ Forall (fun x => x = 0%R) v)
  /\ (trainable_params t = [] -> dev' = dev).
Proof.
  intros H. destruct f as [|ham|]; simpl in H.
  - injection H as <- <-. split; [apply repeat_length|].
    split; [|reflexivity]. intros _. split; [reflexivity|].
    apply Forall_repeat. reflexivity.
  - destruct (trainable_params t) as [|tp0 tps] eqn:Et.
    + simpl in H. injection H as <- <-. split; [reflexivity|].
      split; [discriminate|reflexivity].
    + cbn [length Nat.eqb] in H.
      split; [|split; [discriminate|discriminate]].
      apply bind_inv_val in H. destruct H as (J & d1 & HJ & H).
      injection H as <- _.
      assert (Hne : trainable_params (with_expval t ham) <> []).
      { simpl. rewrite Et. discriminate. }
      apply (adjoint_jacobian_inv_val K bo _ ss uds dev d1 J Hne) in HJ.
      destruct HJ as [d2 HJ]. apply adjoint_differentiate_inv in HJ.
      destruct HJ as (evs & tp & rec & all & jac & _ & _ & Hf & _ & Hasm).
      apply filter_trainable_params_count in Hf. simpl in Hf. rewrite Et in Hf.
      destruct (assemble_jacobian_shape _ _ _ _ _ _ _ _ Hasm) as [rows ->].
      apply assemble_jacobian_inv in Hasm.
      destruct Hasm as (_ & _ & _ & Hrows & Hcols & _).
      simpl reshape_flat. rewrite (length_concat_rows all rows Hcols), Hrows.
      rewrite <- Hf. simpl. lia.
  - discriminate H.
Qed.

Lemma vjp_outcome_witness :
  vjp ref_Hamiltonian [expval_of pauli_z] (real_dy [0%R]) (new_device 1 None true)
  = (Val zero_vjp, new_device 1 None true)
  /\ vjp ref_Hamiltonian [expval_of pauli_z] (real_dy [1%R; 2%R]) (new_device 1 None true)
     = (Exc dy_length_error, new_device 1 None true).
Proof.
  assert (Hzero : (Cabs (0, 0) <= default_atol)%R).
  { change (0%R, 0%R) with (IZC 0). rewrite Cabs_zero. unfold default_atol. lra. }
  assert (Hone : ~ (Cabs (1, 0) <= default_atol)%R).
  { unfold Cabs, Cnorm2. simpl.
    replace (1 * 1 + 0 * 0)%R with 1%R by ring. rewrite sqrt_1.
    unfold default_atol. lra. }
  split.
  - destruct (vjp_outcome [expval_of pauli_z] (real_dy [0%R]) ref_Hamiltonian
                (new_device 1 None true)) as [_ H].
    destruct (H eq_refl) as [Hz _]. apply Hz. left.
    constructor; [exact Hzero|constructor].
  - destruct (vjp_outcome [expval_of pauli_z] (real_dy [1%R; 2%R]) ref_Hamiltonian
                (new_device 1 None true)) as [_ H].
    destruct (H eq_refl) as [_ Hnz].
    assert (Hne : [expval_of pauli_z] <> []) by discriminate.
    assert (Hnot : ~ Forall (fun z => (Cabs z <= default_atol)%R)
                     (dy_data (real_dy [1%R; 2%R]))).
    { intros HF. apply Hone. exact (Forall_inv HF). }
    destruct (Hnz Hnot Hne) as [Hl _]. apply Hl. simpl. lia.
Defined.

Lemma call_vjp_length_witness :
  exists v dev',
    call_vjp ref_K (BatchBool false) two_z_vjp None true two_z_tape
      (new_device 2 None true)
    = (Val v, dev')
    /\ length v = 2.
Proof.
  eexists. eexists. split; [vm_compute; reflexivity|].
  refine (proj1 (call_vjp_length ref_K (BatchBool false) two_z_vjp None true two_z_tape
                   (new_device 2 None true) _ _ _)).
  vm_compute. reflexivity.
Defined.

(** ** Gates followed by synchronization *)

Lemma existsb_false_find {A} (f : A -> bool) (l : list A) :
  existsb f l = false -> find f l = None.
Proof.
  induction l as [|x l IH]; simpl; [reflexivity|].
  intros H. apply orb_false_iff in H. destruct H as [Hx Hl]. rewrite Hx. auto.
Qed.

Lemma apply_without_state_prep (K : collaborators) (ops : list operation) (d : device) :
  existsb is_state_prep ops = false ->
  apply K ops d
  = bind (apply_cq K ops)
      (fun _ => bind (gets _sync) (fun s => if s then syncD2H K false else ret tt)) d.
Proof.
  intros H. unfold apply. unfold bind at 1.
  assert (Hprep : apply_state_preparation ops d = (Val ops, d)).
  { destruct ops as [|o ops]; [reflexivity|].
    simpl in H. apply orb_false_iff in H. destruct H as [Ho _].
    unfold is_state_prep in Ho. simpl.
    destruct (op_class_of o); try discriminate Ho; reflexivity. }
  rewrite Hprep. unfold bind at 1.
  rewrite reject_state_prep_run, (existsb_false_find _ _ H). reflexivity.
Qed.

(** X22.  [apply] on operations none of which prepares a state, on a device
    of at least two wires as [__init__] or [reset] leave it.  When every
    operation can be replayed, the buffer receives their kernel calls; with
    [_sync] set the host copies are then read back from the buffer after the
    gates, without [_sync] the device changes in its buffer only.  When an
    operation cannot be replayed, [apply] raises the error of the first such
    operation ([WireError] for an unknown wire; without a kernel of the name,
    the [MatrixUndefinedError] of [qml.matrix] for an operation that defines
    no matrix, and the exception of message [Unsupported operation] for an
    empty matrix), the earlier gates stay on the buffer and the host copy is
    not synchronized. *)
Theorem apply_gates_then_sync (K : collaborators) (ops : list operation) (d : device) :
  existsb is_state_prep ops = false ->
  2 <= num_wires d -> t_shape (_state d) = [2] ->
  let g := rev (gate_calls K (wires d) ops) ++ _gpu_state d in
  (forallb (runnable K (wires d)) ops = true ->
   exists d',
     apply K ops d = (Val tt, d')
     /\ _gpu_state d' = g
     /\ (_sync d = false -> d' = set_gpu_state g d)
     /\ (_sync d = true ->
         _state d' = mk_tensor (repeat 2 (num_wires d))
                       (DeviceToHost K g (repeat Czero (2 ^ num_wires d))) false
         /\ _pre_rotated_state d' = _state d'))
  /\ (forall ops1 o ops2,
        ops = ops1 ++ o :: ops2 ->
        forallb (runnable K (wires d)) ops1 = true ->
        runnable K (wires d) o = false ->
        apply K ops d
        = (Exc (replay_error (wires d) o),
           set_gpu_state (rev (gate_calls K (wires d) ops1) ++ _gpu_state d) d)).
Proof.
  intros Hprep Hn Hshape g. split.
  - intros Hrun. rewrite (apply_without_state_prep K ops d Hprep).
    unfold bind at 1. rewrite (apply_cq_runnable K ops d Hrun). fold g.
    unfold bind, gets. change (_sync (set_gpu_state g d)) with (_sync d).
    destruct (_sync d) eqn:Hsync.
    + rewrite (syncD2H_fresh K false (set_gpu_state g d) 2 []).
      * eexists. split; [reflexivity|]. split; [reflexivity|].
        split; [discriminate|]. intros _. split; reflexivity.
      * exact Hshape.
      * change (num_wires (set_gpu_state g d)) with (num_wires d).
        pose proof (pow2_ge_4 (num_wires d)). lia.
    + eexists. split; [reflexivity|]. split; [reflexivity|].
      split; [reflexivity|discriminate].
  - intros ops1 o ops2 E H1 Ho. rewrite (apply_without_state_prep K ops d Hprep).
    unfold bind at 1. rewrite E, (apply_cq_failure K ops1 ops2 o d H1 Ho). reflexivity.
Qed.

Lemma apply_gates_then_sync_witness :
  (exists d',
     apply gates_K [rx (3 / 10)%R 0; gate "Identity" [0] []; qubit_unitary_x 1]
       (new_device 2 None true) = (Val tt, d')
     /\ _gpu_state d'
        = [matrix_gate "QubitUnitary" [1] [Czero; Cone; Cone; Czero];
           named_gate "RX" [0] false [PyFloat (3 / 10)%R]; setBasisState 0 false]
     /\ _state d' = mk_tensor [2; 2] (repeat Czero 4) false)
  /\ apply gates_K [rx (3 / 10)%R 0; barrier 1; ry (5 / 10)%R 1]
       (new_device 2 None true)
     = (Exc MatrixUndefinedError,
        set_gpu_state
          [named_gate "RX" [0] false [PyFloat (3 / 10)%R]; setBasisState 0 false]
          (new_device 2 None true)).
Proof.
  assert (Hn : 2 <= num_wires (new_device 2 None true)) by (vm_compute; lia).
  split.
  - destruct (apply_gates_then_sync gates_K
                [rx (3 / 10)%R 0; gate "Identity" [0] []; qubit_unitary_x 1]
                (new_device 2 None true) eq_refl Hn eq_refl) as [H _].
    destruct (H eq_refl) as (d' & Hrun & Hg & _ & Hs).
    exists d'. split; [exact Hrun|]. split; [exact Hg|].
    exact (proj1 (Hs eq_refl)).
  - destruct (apply_gates_then_sync gates_K
                [rx (3 / 10)%R 0; barrier 1; ry (5 / 10)%R 1]
                (new_device 2 None true) eq_refl Hn eq_refl) as [_ H].
    exact (H [rx (3 / 10)%R 0] (barrier 1) [ry (5 / 10)%R 1] eq_refl eq_refl eq_refl).
Defined.

(** ** Construction *)

(** X23.  [__init__] raises [TypeError] for a [c_dtype] other than
    [complex64] and [complex128].  For these two, and shots other than zero,
    it returns a device with [n] wires whose precision flag agrees with the
    class of the buffer that [_gpu_dtype] selects (which cannot fail here),
    whose host copy has two entries whatever [n], and whose [state], for two
    wires or more, is read back from the buffer in the basis state 0. *)
Theorem init_then_state (K : collaborators) (n : nat) (sync : bool) (dt : dtype)
    (sh : option nat) (bo : batch_policy) :
  (dt <> complex64 -> dt <> complex128 ->
   exists msg, __init__ n sync dt sh bo = Exc (TypeError msg))
  /\ (dt = complex64 \/ dt = complex128 -> sh <> Some 0 ->
      exists dev cls,
        __init__ n sync dt sh bo = Val (dev, bo, cls)
        /\ _gpu_dtype dt = Val cls
        /\ (use_csingle dev = true <-> cls = LightningGPU_C64)
        /\ num_wires dev = n
        /\ shots dev = sh
        /\ t_shape (_state dev) = [2]
        /\ (2 <= n ->
            fst (state K dev)
            = Val (mk_tensor [2 ^ n]
                     (DeviceToHost K [setBasisState 0 false] (repeat Czero (2 ^ n)))
                     false))).
Proof.
  split.
  - intros H1 H2. destruct dt; try congruence; eexists; reflexivity.
  - assert (Hstate : forall dv, num_wires dv = n -> t_shape (_state dv) = [2] ->
                       _gpu_state dv = [setBasisState 0 false] -> 2 <= n ->
                       fst (state K dv)
                       = Val (mk_tensor [2 ^ n]
                                (DeviceToHost K [setBasisState 0 false]
                                   (repeat Czero (2 ^ n))) false)).
    { intros dv Hnw Hsh Hg Hn. rewrite (state_fresh K dv 2 [] Hsh).
      - unfold fresh_host_copy. rewrite Hnw, Hg. reflexivity.
      - rewrite Hnw. pose proof (pow2_ge_4 n Hn). lia. }
    intros Hdt Hsh.
    assert (Hinit : forall cs cls,
              (dt = complex64 /\ cs = true /\ cls = LightningGPU_C64)
              \/ (dt = complex128 /\ cs = false /\ cls = LightningGPU_C128) ->
              __init__ n sync dt sh bo
              = Val (mk_device (seq 0 n) sh cs sync (mk_tensor [2] [Cone; Czero] false)
                       (mk_tensor [2] [Cone; Czero] false) [setBasisState 0 false]
                       None [], bo, cls)).
    { intros cs cls [(-> & -> & ->)|(-> & -> & ->)]; unfold __init__; simpl;
        destruct sh as [[|k]|]; try congruence; reflexivity. }
    destruct Hdt as [-> | ->].
    + eexists. eexists. split; [apply Hinit; left; auto|]. split; [reflexivity|].
      split; [split; reflexivity|]. split; [simpl; apply length_seq|].
      split; [reflexivity|]. split; [reflexivity|].
      apply Hstate; try reflexivity. simpl. apply length_seq.
    + eexists. eexists. split; [apply Hinit; right; auto|]. split; [reflexivity|].
      split; [split; discriminate|]. split; [simpl; apply length_seq|].
      split; [reflexivity|]. split; [reflexivity|].
      apply Hstate; try reflexivity. simpl. apply length_seq.
Qed.

Lemma init_then_state_witness :
  exists dev cls,
    __init__ 2 true complex64 None (BatchBool false) = Val (dev, BatchBool false, cls)
    /\ cls = LightningGPU_C64
    /\ fst (state ref_K dev) = Val (mk_tensor [4] (repeat Czero 4) false).
Proof.
  destruct (init_then_state ref_K 2 true complex64 None (BatchBool false)) as [_ H].
  assert (Hsh : @None nat <> Some 0) by discriminate.
  destruct (H (or_introl eq_refl) Hsh) as (dev & cls & Hi & Hc & _ & _ & _ & _ & Hs).
  exists dev, cls. split; [exact Hi|]. split; [injection Hc as <-; reflexivity|].
  apply Hs. lia.
Defined.

(** ** A basis state followed by gates *)

(** X24.  [apply] on a [BasisState] followed by operations that prepare no
    state, with [_sync] off, on a device below 64 wires for an integer
    parameter and below 54 wires for a float or complex one: when the
    parameter is a one-dimensional array of integers, floats or complex
    numbers whose entries are 0 or 1, one for each of the distinct wires, and
    every later operation can be replayed, the buffer is zeroed, set to the
    basis state of number the sum of [bit * 2 ** (num_wires - 1 - wire)], and
    then receives the kernel calls of the later operations, in this order;
    nothing else of the device changes. *)
Theorem apply_basis_state_then_gates (K : collaborators) (o0 : operation)
    (rest : list operation) (p : param) (bits : list Z) (ps : list param)
    (dw : list nat) (d : device) :
  op_class_of o0 = BasisState -> op_parameters o0 = p :: ps ->
  array_1d p -> param_bits p = Some bits ->
  indices (wires d) (op_wires o0) = Some dw ->
  NoDup (op_wires o0) -> num_wires d < wires_limit p ->
  length bits = length (op_wires o0) ->
  existsb is_state_prep rest = false ->
  forallb (runnable K (wires d)) rest = true ->
  _sync d = false ->
  apply K (o0 :: rest) d
  = (Val tt,
     set_gpu_state
       (rev (gate_calls K (wires d) rest)
        ++ setBasisState (basis_index (num_wires d) bits dw) false
        :: setZeroState :: _gpu_state d) d).
Proof.
  intros Hc Hp H1 Hb Hw Hnd Hlim Hl Hprep Hrun Hsync.
  assert (Hn : num_wires d < 64) by (pose proof (wires_limit_le p); lia).
  unfold apply. unfold bind at 1.
  assert (Hsp : apply_state_preparation (o0 :: rest) d
                = (Val rest,
                   set_gpu_state (setBasisState (basis_index (num_wires d) bits dw) false
                                  :: setZeroState :: _gpu_state d) d)).
  { unfold apply_state_preparation. rewrite Hc.
    unfold bind at 1, first_parameter. rewrite Hp. unfold ret at 1.
    unfold bind at 1.
    rewrite (basis_state_run d p bits (op_wires o0) dw H1 Hb Hw Hnd Hn Hl).
    reflexivity. }
  rewrite Hsp. unfold bind at 1.
  rewrite reject_state_prep_run, (existsb_false_find _ _ Hprep).
  unfold bind at 1.
  match goal with
  | |- context [apply_cq K rest ?dd] => rewrite (apply_cq_runnable K rest dd Hrun)
  end.
  unfold bind, gets. cbn [_sync set_gpu_state]. rewrite Hsync. reflexivity.
Qed.

Lemma apply_basis_state_then_gates_witness :
  apply ref_K [float_basis_state_op float_bits_10 [1; 0]; rx (3 / 10)%R 0]
    (new_device 2 None false)
  = (Val tt,
     set_gpu_state [named_gate "RX" [0] false [PyFloat (3 / 10)%R];
                    setBasisState 1 false; setZeroState; setBasisState 0 false]
       (new_device 2 None false)).
Proof.
  refine (apply_basis_state_then_gates ref_K (float_basis_state_op float_bits_10 [1; 0])
            [rx (3 / 10)%R 0] (Array float_bits_10) [1%Z; 0%Z] [] [1; 0]
            (new_device 2 None false)
            eq_refl eq_refl eq_refl float_bits_10_bits eq_refl _ _
            eq_refl eq_refl eq_refl eq_refl).
  - repeat constructor; simpl; intuition lia.
  - vm_compute. lia.
Defined.

(** ** Shots and the adjoint Jacobian *)

Lemma stateless_check_measurement_obs (m : measurement) :
  stateless (check_measurement_obs m).
Proof.
  unfold check_measurement_obs. destruct (m_obs m) as [ob|]; [|apply stateless_ret].
  repeat apply stateless_if; try apply stateless_ret; apply stateless_raise.
Qed.

Lemma stateless_check_measurements (ms : list measurement) :
  stateless (_check_adjdiff_supported_measurements ms).
Proof.
  unfold _check_adjdiff_supported_measurements.
  repeat apply stateless_if; try apply stateless_ret; try apply stateless_raise.
  apply stateless_bind; [|intros; apply stateless_ret].
  apply stateless_for_each. apply stateless_check_measurement_obs.
Qed.

Lemma differentiate_result_same (K : collaborators) (bo : batch_policy) (t : tape)
    (d1 d2 : device) :
  wires d1 = wires d2 -> use_csingle d1 = use_csingle d2 ->
  _gpu_state d1 = _gpu_state d2 ->
  differentiate_result K bo t d1 = differentiate_result K bo t d2.
Proof.
  intros Hw Hc Hg. unfold differentiate_result. rewrite Hw, Hc, Hg.
  set (sp := snd (_serialize_ops K t (wires d2) (use_csingle d2))).
  rewrite (stateless_any _ d1 d2 (stateless_filter_trainable_params t sp)). simpl fst.
  destruct (fst (filter_trainable_params t sp d2)) as [[[tp rec] all]|e]; [|reflexivity].
  destruct (kernel_result K bo (use_csingle d2) (_gpu_state d2) _ _ tp) as [jac|e];
    [|reflexivity].
  rewrite (stateless_any _ d1 d2 (stateless_assemble_jacobian _ _ _ _ _)). reflexivity.
Qed.

Lemma adjoint_jacobian_reuse_value (K : collaborators) (bo : batch_policy) (t : tape)
    (ss : option tensor) (uds : bool) (dev : device) :
  ss <> None \/ uds = true ->
  fst (adjoint_jacobian K bo t ss uds dev)
  = match fst (_check_adjdiff_supported_measurements (measurements t) dev) with
    | Exc e => Exc e
    | Val _ =>
        if Nat.eqb (length (trainable_params t)) 0 then Val (Array0d 0%R)
        else match find unsupported_op (operations t) with
             | Some o => Exc (unsupported_op_error o)
             | None => differentiate_result K bo t dev
             end
    end.
Proof.
  intros Hreuse. rewrite adjoint_jacobian_prefix. unfold bind at 1.
  rewrite (stateless_any _ (warned dev) dev (stateless_check_measurements _)).
  destruct (fst (_check_adjdiff_supported_measurements (measurements t) dev))
    as [rt|e]; [|reflexivity].
  destruct (Nat.eqb (length (trainable_params t)) 0); [reflexivity|].
  unfold bind at 1. rewrite check_operations_run.
  destruct (find unsupported_op (operations t)); [reflexivity|].
  unfold bind at 1. rewrite (adjoint_init_state_reuse K t ss uds _ Hreuse).
  destruct (adjoint_differentiate_run K bo t (warned dev)) as (evs & -> & _).
  simpl fst. apply differentiate_result_same; unfold warned; destruct (shots dev); reflexivity.
Qed.

Lemma adjoint_jacobian_reuse_device (K : collaborators) (bo : batch_policy) (t : tape)
    (ss : option tensor) (uds : bool) (dev : device) :
  ss <> None \/ uds = true ->
  exists evs,
    snd (adjoint_jacobian K bo t ss uds dev)
    = set_trace (evs ++ trace (warned dev)) dev.
Proof.
  intros Hreuse. rewrite adjoint_jacobian_prefix.
  assert (Hw : warned dev = set_trace ([] ++ trace (warned dev)) dev).
  { unfold warned. destruct (shots dev); [reflexivity|]. destruct dev; reflexivity. }
  unfold bind at 1.
  pose proof (check_measurements_run (measurements t) (warned dev)) as Hm.
  destruct (supported_measurements (measurements t)).
  2:{ destruct Hm as [msg ->]. exists []. exact Hw. }
  destruct Hm as [rt ->].
  destruct (Nat.eqb (length (trainable_params t)) 0).
  { exists []. exact Hw. }
  unfold bind at 1. rewrite check_operations_run.
  destruct (find unsupported_op (operations t)).
  { exists []. exact Hw. }
  unfold bind at 1. rewrite (adjoint_init_state_reuse K t ss uds _ Hreuse).
  destruct (adjoint_differentiate_run K bo t (warned dev)) as (evs & -> & _).
  exists (evs ++ [CreatedOpsList; SerializedOps; SerializedObservables]).
  simpl snd. rewrite <- app_assoc. simpl.
  unfold warned. destruct (shots dev); reflexivity.
Qed.

(** X25.  The number of shots has no influence on what [adjoint_jacobian]
    computes from the state that the device holds (or from a given starting
    state): the Jacobian, or the error, is the same for every setting of the
    shots.  With finite shots the warning is recorded before anything
    else. *)
Theorem adjoint_jacobian_shots_only_warn (K : collaborators) (bo : batch_policy)
    (t : tape) (ss : option tensor) (uds : bool) (dev : device) (sh : option nat) :
  ss <> None \/ uds = true ->
  fst (adjoint_jacobian K bo t ss uds (set_shots sh dev))
  = fst (adjoint_jacobian K bo t ss uds dev)
  /\ (shots dev <> None ->
      exists evs,
        trace (snd (adjoint_jacobian K bo t ss uds dev))
        = evs ++ Warned shots_warning :: trace dev).
Proof.
  intros Hreuse. split.
  - rewrite !(adjoint_jacobian_reuse_value K bo t ss uds _ Hreuse).
    rewrite (stateless_any _ (set_shots sh dev) dev (stateless_check_measurements _)).
    simpl fst.
    rewrite (differentiate_result_same K bo t (set_shots sh dev) dev); reflexivity.
  - intros Hs. destruct (adjoint_jacobian_reuse_device K bo t ss uds dev Hreuse)
      as [evs ->].
    exists evs. simpl. unfold warned. destruct (shots dev); [reflexivity|congruence].
Qed.

Lemma adjoint_jacobian_shots_only_warn_witness :
  fst (adjoint_jacobian ref_K (BatchBool false) ham_tape None true
         (set_shots (Some 100) (new_device 2 None true)))
  = fst (adjoint_jacobian ref_K (BatchBool false) ham_tape None true
           (new_device 2 None true)).
Proof.
  exact (proj1 (adjoint_jacobian_shots_only_warn ref_K (BatchBool false) ham_tape
                  None true (new_device 2 None true) (Some 100)
                  (or_intror eq_refl))).
Defined.

(** ** Observables measured by the base class *)

(** X26.  [expval] of a Projector or of a Hermitian observable, with or
    without shots, first synchronizes the host copy and then hands the
    observable to the inherited [expval]: on a device of two wires or more as
    [__init__] or [reset] leave it, the inherited method runs on host copies
    that were just read back from the buffer. *)
Theorem expval_hermitian_syncs_first (K : collaborators) (ob : observable)
    (opts : sample_opts) (dev : device) :
  pyname_eqb_str (ob_name ob) "Projector" || pyname_eqb_str (ob_name ob) "Hermitian"
  = true ->
  2 <= num_wires dev -> t_shape (_state dev) = [2] ->
  expval K ob opts dev
  = super_expval K ob opts
      (set_pre_rotated_state (fresh_host_copy K dev)
         (set_state (fresh_host_copy K dev) dev)).
Proof.
  intros Hn Hw Hs. unfold expval. rewrite Hn. unfold bind.
  rewrite (syncD2H_fresh K false dev 2 [] Hs); [reflexivity|].
  pose proof (pow2_ge_4 (num_wires dev) Hw). lia.
Qed.

Lemma expval_hermitian_syncs_first_witness :
  expval ref_K hermitian_z no_opts (new_device 2 (Some 10) true)
  = (Val 0%R,
     set_pre_rotated_state (mk_tensor [2; 2] (repeat Czero 4) false)
       (set_state (mk_tensor [2; 2] (repeat Czero 4) false)
          (new_device 2 (Some 10) true))).
Proof.
  assert (Hw : 2 <= num_wires (new_device 2 (Some 10) true)) by (vm_compute; lia).
  exact (expval_hermitian_syncs_first ref_K hermitian_z no_opts
           (new_device 2 (Some 10) true) eq_refl Hw eq_refl).
Defined.
